(** * Vizier: namespaces, metadata views and trial-parameter resolution

    A shallow embedding of
    - [vizier/pyvizier/shared/common.py]  ([_parse], [Namespace], [Metadata]),
    - [vizier/pyvizier/oss/study_config.py] ([StudyConfig.to_proto],
      [StudyConfig._trial_to_external_values],
      [StudyConfig._pytrial_parameters]),
    together with the properties the specification states about them.

    Python [str] is modelled by [string] (a sequence of characters), tuples
    and lists by [list], a [dict] whose iteration order is observable by an
    insertion-ordered association list, a [dict] that is only looked up by
    stdpp's [gmap]. *)

From Stdlib Require Import Ascii String.
From stdpp Require Import gmap strings list fin_maps sorting.
From Equations.Prop Require Import Equations Logic.

(** ** Python string primitives used by [common.py] *)

Module PyStr.

Definition colon : ascii := ":"%char.
Definition backslash : ascii := "\"%char.

(** [s.split(sep)] for a one-character separator: cuts at every
    occurrence, never drops empty pieces, and returns [['']] on the empty
    string. *)
Fixpoint split (sep : ascii) (s : string) : list string :=
  match s with
  | EmptyString => [EmptyString]
  | String c s' =>
      if Ascii.eqb c sep then EmptyString :: split sep s'
      else match split sep s' with
           | h :: t => String c h :: t
           | [] => [String c EmptyString]
           end
  end.

(** [s.lstrip(chars)] for a one-character set. *)
Fixpoint lstrip (ch : ascii) (s : string) : string :=
  match s with
  | String c s' => if Ascii.eqb c ch then lstrip ch s' else s
  | EmptyString => EmptyString
  end.

(** [sep.join(parts)]. *)
Fixpoint join (sep : string) (parts : list string) : string :=
  match parts with
  | [] => EmptyString
  | [p] => p
  | p :: ps => p +:+ sep +:+ join sep ps
  end.

(** [s[-1]], which only exists for a non-empty [s]. *)
Fixpoint last_char (s : string) : option ascii :=
  match s with
  | EmptyString => None
  | String c EmptyString => Some c
  | String _ s' => last_char s'
  end.

(** [s[:-1]]. *)
Fixpoint drop_last (s : string) : string :=
  match s with
  | EmptyString => EmptyString
  | String _ EmptyString => EmptyString
  | String c s' => String c (drop_last s')
  end.

(** [frag and frag[-1] == '\\'] *)
Definition ends_with_escape (frag : string) : bool :=
  match last_char frag with
  | Some c => Ascii.eqb c backslash
  | None => false
  end.

(** [s.translate(str.maketrans({':': '\\:'}))]. *)
Fixpoint translate_colon (s : string) : string :=
  match s with
  | EmptyString => EmptyString
  | String c s' =>
      if Ascii.eqb c colon then String backslash (String colon (translate_colon s'))
      else String c (translate_colon s')
  end.

End PyStr.

(** ** [Namespace] *)

Module Namespace.
Import PyStr.

(** A namespace is its tuple of components ([_as_tuple]); equality is
    structural ([attr.frozen(eq=True)]). *)
Definition t := list string.

(** [output[-1] += suffix] *)
Fixpoint append_to_last (output : list string) (suffix : string) : list string :=
  match output with
  | [] => []
  | [x] => [x +:+ suffix]
  | x :: rest => x :: append_to_last rest suffix
  end.

(** One iteration of the loop of [_parse]: the four branches in source
    order, on the state [(output, join)]. *)
Definition parse_step (st : list string * bool) (frag : string)
  : list string * bool :=
  let '(output, join) := st in
  if join && ends_with_escape frag then
    (append_to_last output (String colon (drop_last frag)), true)
  else if join then
    (append_to_last output (String colon frag), false)
  else if ends_with_escape frag then
    (output ++ [drop_last frag], true)
  else
    (output ++ [frag], false).

(** [_parse(arg)] *)
Definition _parse (arg : string) : t :=
  let fragments := split colon arg in
  fst (foldl parse_step ([], false) fragments).

(** The argument of [Namespace(...)], [+], [ns] and [abs_ns]:
    [Union[str, Iterable[str]]], told apart by [isinstance(arg, str)]. *)
Inductive arg :=
| Str (s : string)
| Components (c : list string).

(** [Namespace(arg)] *)
Definition make (a : arg) : t :=
  match a with
  | Str s =>
      let s := lstrip colon s in
      match s with
      | EmptyString => []
      | _ => _parse s
      end
  | Components c => c
  end.

(** [len(ns)] *)
Definition len (ns : t) : nat := length ns.

(** [ns + other]: a [str] is one more component, not parsed. *)
Definition add (ns : t) (other : arg) : t :=
  match other with
  | Str s => make (Components (ns ++ [s]))
  | Components c => make (Components (ns ++ c))
  end.

(** [ns[:n]] and [ns[n:]] *)
Definition slice_to (ns : t) (n : nat) : t := make (Components (take n ns)).
Definition slice_from (ns : t) (n : nat) : t := make (Components (drop n ns)).

(** [str(ns)], for display only. *)
Definition __str__ (ns : t) : string := join ":" ns.

(** [repr(ns)] *)
Definition __repr__ (ns : t) : string :=
  join ":" (map translate_colon ns).

(** [ns.startswith(prefix)] *)
Definition startswith (ns : t) (prefix : list string) : bool :=
  let ns_prefix := make (Components prefix) in
  bool_decide (slice_to ns (len ns_prefix) = ns_prefix).

End Namespace.


(** ** Insertion-ordered dictionaries

    A Python [dict] (and [defaultdict]) iterates in insertion order; where
    that order can be observed the dictionary is a list of items with
    pairwise different keys. *)

Module PyDict.

Section Ops.
Context {K V : Type} `{EqDecision K}.

(** [d.get(k)]; [None] when [k] is not a key. *)
Fixpoint get (d : list (K * V)) (k : K) : option V :=
  match d with
  | [] => None
  | (k', v) :: rest => if decide (k' = k) then Some v else get rest k
  end.

(** The value bound to an existing key is replaced by [f] of it; the
    position of the key does not change. *)
Fixpoint alter (f : V → V) (d : list (K * V)) (k : K) : list (K * V) :=
  match d with
  | [] => []
  | (k', v) :: rest =>
      if decide (k' = k) then (k', f v) :: rest
      else (k', v) :: alter f rest k
  end.

(** [d[k] = v]: a new key goes to the end. *)
Definition set (d : list (K * V)) (k : K) (v : V) : list (K * V) :=
  match get d k with
  | Some _ => alter (λ _, v) d k
  | None => d ++ [(k, v)]
  end.

(** [d[k]] on a [defaultdict] whose factory returns [v]: a missing key
    is bound first. *)
Definition setdefault (d : list (K * V)) (k : K) (v : V) : list (K * V) :=
  match get d k with
  | Some _ => d
  | None => d ++ [(k, v)]
  end.

(** [list(d)] *)
Definition keys (d : list (K * V)) : list K := d.*1.

(** [len(d)] *)
Definition len (d : list (K * V)) : nat := length d.

End Ops.

End PyDict.

(** ** [Metadata]

    Every [Metadata] object holds a reference [_stores] to a
    [defaultdict] from namespaces to per-namespace dictionaries, and several
    objects may hold the same reference.  The heap below has one cell per
    [defaultdict] object; a reference is the position of the cell.

    The attribute [_store] is always the dictionary [_stores[_namespace]]:
    [__init__] and [_copy_core] set it so, it is never rebound, and no entry
    of a [defaultdict] is ever removed or replaced.  The model therefore
    reaches that dictionary through [_stores] and [_namespace]. *)

(** The heap of [defaultdict] objects, each a dictionary from namespaces to
    per-namespace dictionaries in insertion order. *)
Abbreviation Heap PyObj := (list (list (Namespace.t * gmap string PyObj))).

Module Metadata.

Record t := Build { _stores : nat; _namespace : Namespace.t }.

(** What Python's object model contributes to [Metadata.get]: the
    [isinstance] tests, [cls()], [Any.Unpack] and the call [cls(value)].
    [Unpack] returns the filled message together with its success flag;
    each call may raise. *)
Class Typing (PyObj Cls Exn : Type) := {
  isinstance : PyObj → Cls → bool;
  isinstance_Any : PyObj → bool;
  new : Cls → Exn + PyObj;
  Unpack : PyObj → PyObj → Exn + (PyObj * bool);
  construct : Cls → PyObj → Exn + PyObj
}.

(** How a call ends: [return r], where [None] is Python's [None], or an
    exception. *)
Inductive outcome (PyObj Exn : Type) :=
| Return (r : option PyObj)
| Raise (e : Exn).
Arguments Return {PyObj Exn} r.
Arguments Raise {PyObj Exn} e.

Section WithObjects.
(** Python objects that are stored as values and returned by [get]. *)
Context {PyObj : Type}.

(** The argument of [Metadata(...)] and of [update]: nothing, a
    dictionary, an iterable of pairs, or another [Metadata] (a
    [Mapping], read through [keys()] and [__getitem__], that is through
    its [_store]). *)
Inductive items :=
| NoItems
| Dict (d : gmap string PyObj)
| Pairs (kvs : list (string * PyObj))
| Mapping (mm : t).

(** The dictionary [_stores[ns]] of the [defaultdict] at [l], read
    without creating it. *)
Definition store_at (H : Heap PyObj)
    (l : nat) (ns : Namespace.t) : gmap string PyObj :=
  default ∅ (H !! l ≫= λ d, PyDict.get d ns).

(** [self._store] *)
Definition _store (H : Heap PyObj)
    (self : t) : gmap string PyObj :=
  store_at H (_stores self) (_namespace self).

(** [bool(store)]: a dictionary is true when it has a key. *)
Definition truthy (s : gmap string PyObj) : bool := bool_decide (size s ≠ 0).

(** [defaultdict.__getitem__] on the object at [l]. *)
Definition stores_touch (l : nat) (ns : Namespace.t)
    (H : Heap PyObj)
  : Heap PyObj :=
  alter (λ d, PyDict.setdefault d ns ∅) l H.

(** In-place change of the dictionary [_stores[ns]] of the object at
    [l]. *)
Definition store_modify (f : gmap string PyObj → gmap string PyObj)
    (l : nat) (ns : Namespace.t)
    (H : Heap PyObj)
  : Heap PyObj :=
  alter (λ d, PyDict.alter f d ns) l H.

(** [d.update(arg, **kwargs)] *)
Definition dict_update (H : Heap PyObj)
    (d : gmap string PyObj) (a : items) (kwargs : list (string * PyObj))
  : gmap string PyObj :=
  let set_pairs := foldl (λ (d : gmap string PyObj) kv, <[kv.1 := kv.2]> d) in
  let d := match a with
           | NoItems => d
           | Dict o => o ∪ d
           | Pairs kvs => set_pairs d kvs
           | Mapping mm => _store H mm ∪ d
           end in
  set_pairs d kwargs.

(** [Metadata(arg, **kwargs)]: a new [defaultdict], the root namespace
    bound in it, and the items put there. *)
Definition __init__ (a : items) (kwargs : list (string * PyObj))
    (H : Heap PyObj)
  : t * Heap PyObj :=
  let self := {| _stores := length H;
                 _namespace := Namespace.make (Namespace.Str "") |} in
  let H := H ++ [[]] in
  let H := stores_touch (_stores self) (_namespace self) H in
  (self,
   store_modify (λ s, dict_update H s a kwargs)
     (_stores self) (_namespace self) H).

(** [self._copy_core(ns)] *)
Definition _copy_core (self : t) (ns : Namespace.t)
    (H : Heap PyObj)
  : t * Heap PyObj :=
  let '(md, H) := __init__ NoItems [] H in
  let md := {| _stores := _stores md; _namespace := ns |} in
  let md := {| _stores := _stores self; _namespace := _namespace md |} in
  (md, stores_touch (_stores md) (_namespace md) H).

(** [self.abs_ns(namespace)]; a [Namespace] argument is
    [Components]. *)
Definition abs_ns (self : t) (namespace : Namespace.arg)
    (H : Heap PyObj)
  : t * Heap PyObj :=
  let ns := match namespace with
            | Namespace.Components c => c
            | Namespace.Str _ => Namespace.make namespace
            end in
  _copy_core self ns H.

(** [self.ns(components)] *)
Definition ns (self : t) (components : Namespace.arg)
    (H : Heap PyObj)
  : t * Heap PyObj :=
  let new_ns := Namespace.add (_namespace self) components in
  _copy_core self new_ns H.

(** [copy.copy(self)] *)
Definition __copy__ (self : t)
    (H : Heap PyObj)
  : t * Heap PyObj :=
  _copy_core self (_namespace self) H.

(** [self[key]]; [None] is [KeyError]. *)
Definition __getitem__ (self : t) (key : string)
    (H : Heap PyObj) : option PyObj :=
  _store H self !! key.

(** [self[key] = value] *)
Definition __setitem__ (self : t) (key : string) (value : PyObj)
    (H : Heap PyObj)
  : Heap PyObj :=
  store_modify (λ s, <[key := value]> s) (_stores self) (_namespace self) H.

(** [del self[key]]; [None] is [KeyError]. *)
Definition __delitem__ (self : t) (key : string)
    (H : Heap PyObj)
  : option (Heap PyObj) :=
  match _store H self !! key with
  | Some _ =>
      Some (store_modify (λ s, delete key s) (_stores self) (_namespace self) H)
  | None => None
  end.

(** [len(self)] *)
Definition __len__ (self : t)
    (H : Heap PyObj) : nat :=
  size (_store H self).

(** [self.update(arg, **kwargs)] *)
Definition update (self : t) (a : items) (kwargs : list (string * PyObj))
    (H : Heap PyObj)
  : Heap PyObj :=
  store_modify (λ s, dict_update H s a kwargs) (_stores self) (_namespace self) H.

(** [self.get(key, default, cls=cls)] *)
Definition get {Cls Exn : Type} `{!Typing PyObj Cls Exn}
    (self : t) (key : string) (default : option PyObj) (cls : Cls)
    (H : Heap PyObj)
  : outcome PyObj Exn :=
  match _store H self !! key with
  | None => Return default
  | Some value =>
      if isinstance value cls then Return (Some value)
      else if isinstance_Any value then
        match new cls with
        | inl e => Raise e
        | inr message =>
            match Unpack value message with
            | inl e => Raise e
            | inr (message, success) =>
                Return (if success then Some message else None)
            end
        end
      else
        match construct cls value with
        | inl e => Raise e
        | inr converted => Return (Some converted)
        end
  end.

(** [self.namespaces()] *)
Definition namespaces (self : t)
    (H : Heap PyObj) : list Namespace.t :=
  omap (λ '(ns, store), if truthy store then Some ns else None)
       (default [] (H !! _stores self)).

(** [self.subnamespaces()] *)
Definition subnamespaces (self : t)
    (H : Heap PyObj) : list Namespace.t :=
  omap (λ '(ns, store),
          if truthy store && Namespace.startswith ns (_namespace self)
          then Some (Namespace.make (Namespace.Components
                       (Namespace.slice_from ns (Namespace.len (_namespace self)))))
          else None)
       (default [] (H !! _stores self)).

(** The body of the loop of [attach], for one relative namespace:
    [self._stores[self._namespace + ns]] is evaluated first (and bound
    if missing), then [other.ns(ns)], then [update] copies the items of
    that view. *)
Definition attach_step (self other : t)
    (H : Heap PyObj) (rel : Namespace.t)
  : Heap PyObj :=
  let target := Namespace.add (_namespace self) (Namespace.Components rel) in
  let H := stores_touch (_stores self) target H in
  let '(src, H) := ns other (Namespace.Components rel) H in
  store_modify (λ s, dict_update H s (Mapping src) []) (_stores self) target H.

(** [self.attach(other)]; the tuple [other.subnamespaces()] is built
    before the loop starts. *)
Definition attach (self other : t)
    (H : Heap PyObj)
  : Heap PyObj :=
  foldl (attach_step self other) H (subnamespaces other H).

End WithObjects.

Arguments items : clear implicits.

End Metadata.

(** ** [StudyConfig]: trial-parameter resolution *)

Module StudyConfig.

(** Modelled from the spec: the parameter-config tree of the module
    [parameter_config], whose source is not part of the sources read here.
    Each node has a name, a declared external type (or none), the set of
    parent values under which it is active, and its child nodes. *)
Inductive ParameterConfig (Val ExternalType : Type) :=
  Build_ParameterConfig {
    name : string;
    external_type : option ExternalType;
    matching_parent_values : list Val;
    child_parameter_configs : list (ParameterConfig Val ExternalType)
  }.
Arguments Build_ParameterConfig {Val ExternalType}.
Arguments name {Val ExternalType}.
Arguments external_type {Val ExternalType}.
Arguments matching_parent_values {Val ExternalType}.
Arguments child_parameter_configs {Val ExternalType}.

(** What the modules [trial] and [base_study_config] contribute: the
    parameters of a trial, the raw [value] of a trial parameter, its
    [cast] to an external type, Python's [==] on values, and
    [SearchSpaceSelector.parse_multi_dimensional_parameter_name]. *)
Class Collaborators (Val ExternalType ParameterValue Trial : Type) := {
  parameters : Trial → gmap string ParameterValue;
  value : ParameterValue → Val;
  cast : ParameterValue → ExternalType → Val;
  value_eqb : Val → Val → bool;
  parse_multi_dimensional_parameter_name : string → option (string * Z)
}.

(** A value of the returned dictionary: one external value, or the list
    of the values of a multi-dimensional parameter. *)
Inductive ParameterValueSequence (Val : Type) :=
| Scalar (v : Val)
| Sequence (l : list Val).
Arguments Scalar {Val} v.
Arguments Sequence {Val} l.

(** [ValueError('Invalid trial for this search space: failed to convert
    all trial parameters: {}'.format(pytrial))] *)
Inductive error (Trial : Type) :=
| ValueError (pytrial : Trial).
Arguments ValueError {Trial} pytrial.

Section Resolver.
Context {Val ExternalType ParameterValue Trial : Type}.
Context `{!Collaborators Val ExternalType ParameterValue Trial}.

(** The local variables of [_trial_to_external_values]. *)
Record state := State {
  parameter_values : gmap string Val;
  external_values : list (string * Val);
  parameter_configs : list (option string * ParameterConfig Val ExternalType);
  remaining_parameters : gmap string ParameterValue
}.

(** Number of nodes of a config tree, and of the trees in the queue. *)
Fixpoint config_size (pc : ParameterConfig Val ExternalType) : nat :=
  match pc with
  | Build_ParameterConfig _ _ _ children =>
      S ((fix go (l : list (ParameterConfig Val ExternalType)) : nat :=
            match l with
            | [] => 0
            | c :: l' => config_size c + go l'
            end) children)
  end.

Definition queue_size
    (q : list (option string * ParameterConfig Val ExternalType)) : nat :=
  sum_list_with (λ item, config_size item.2) q.

(** [parent_value not in pc.matching_parent_values] *)
Definition not_in (parent_value : Val) (values : list Val) : bool :=
  negb (existsb (λ v, value_eqb v parent_value) values).

(** [while parameter_configs and remaining_parameters] *)
Definition loop_condition (st : state) : bool :=
  match parameter_configs st with
  | [] => false
  | _ :: _ => bool_decide (size (remaining_parameters st) ≠ 0)
  end.

(** The body of the [while] loop.  [skip] is the state after the
    [continue] statements: only the queue has changed. *)
Definition loop_body (st : state) : state :=
  match parameter_configs st with
  | [] => st
  | (parent_name, pc) :: rest =>
      let queue :=
        rest ++ map (λ child, (Some (name pc), child)) (child_parameter_configs pc) in
      let skip := State (parameter_values st) (external_values st) queue
                        (remaining_parameters st) in
      match remaining_parameters st !! name pc with
      | None => skip
      | Some pv =>
          let inactive :=
            match parent_name with
            | None => false
            | Some parent =>
                match parameter_values st !! parent with
                | None => true
                | Some parent_value =>
                    not_in parent_value (matching_parent_values pc)
                end
            end in
          if inactive then skip
          else
            let external_value :=
              match external_type pc with
              | None => value pv
              | Some et => cast pv et
              end in
            State (<[name pc := value pv]> (parameter_values st))
                  (PyDict.set (external_values st) (name pc) external_value)
                  queue
                  (delete (name pc) (remaining_parameters st))
      end
  end.

(** The [while] loop, run until its condition is false. *)
Equations while_loop (st : state) : state
  by wf (queue_size (parameter_configs st)) lt :=
  while_loop st with inspect (loop_condition st) := {
    | exist _ true Hcond => while_loop (loop_body st)
    | exist _ false _ => st
  }.
Next Obligation.
  revert Hcond. unfold loop_condition, loop_body.
  destruct (parameter_configs st) as [|[parent pc] rest]; [done|]. intros _.
  assert (queue_size (rest ++ map (λ child, (Some (name pc), child))
                                  (child_parameter_configs pc))
          < queue_size ((parent, pc) :: rest)) as Hlt.
  { unfold queue_size. rewrite sum_list_with_app. cbn [sum_list_with snd].
    destruct pc as [n e m children].
    cbn [config_size child_parameter_configs name].
    match goal with |- _ + ?a < S ?b + _ => assert (a = b) as ->; [|lia] end.
    induction children as [|c l IH]; [done|]. cbn. by rewrite IH. }
  destruct (remaining_parameters st !! name pc); [|exact Hlt].
  match goal with |- context [if ?b then _ else _] => destruct b end; exact Hlt.
Qed.

(** The local variables before the loop: no values yet, every root config
    queued without a parent, and a copy of the trial's parameters. *)
Definition initial_state
    (search_space : list (ParameterConfig Val ExternalType)) (pytrial : Trial)
  : state :=
  State ∅ [] (map (λ p, (None, p)) search_space) (parameters pytrial).

(** [self._trial_to_external_values(pytrial)], for the search space
    whose [parameters] are [search_space]. *)
Definition _trial_to_external_values
    (search_space : list (ParameterConfig Val ExternalType)) (pytrial : Trial)
  : list (string * Val) :=
  external_values (while_loop (initial_state search_space pytrial)).

(** [l.sort(key=lambda x: x[0])]: ascending by index; the sort is
    stable, so items with equal indices keep their order. *)
Fixpoint insert_by_index (x : Z * Val) (l : list (Z * Val)) : list (Z * Val) :=
  match l with
  | [] => [x]
  | y :: l' =>
      if bool_decide (x.1 < y.1)%Z then x :: y :: l'
      else y :: insert_by_index x l'
  end.

Definition sort_by_index (l : list (Z * Val)) : list (Z * Val) :=
  foldl (λ sorted x, insert_by_index x sorted) [] l.

(** The first loop of the recombination: one resolved item. *)
Definition combine_item
    (acc : list (string * ParameterValueSequence Val)
           * list (string * list (Z * Val)))
    (item : string * Val)
  : list (string * ParameterValueSequence Val) * list (string * list (Z * Val)) :=
  let '(trial_final_values, multi_dim_params) := acc in
  let '(name, external_value) := item in
  match parse_multi_dimensional_parameter_name name with
  | None => (PyDict.set trial_final_values name (Scalar external_value),
             multi_dim_params)
  | Some (base_name, index) =>
      (trial_final_values,
       PyDict.set multi_dim_params base_name
         (default [] (PyDict.get multi_dim_params base_name)
          ++ [(index, external_value)]))
  end.

(** The second loop: one base name. *)
Definition combine_base
    (trial_final_values : list (string * ParameterValueSequence Val))
    (item : string * list (Z * Val))
  : list (string * ParameterValueSequence Val) :=
  PyDict.set trial_final_values item.1 (Sequence (sort_by_index item.2).*2).

(** "Combine multi-dimensional parameter values to a list of values":
    the part of [_pytrial_parameters] after the check. *)
Definition combine_multi_dimensional (trial_external_values : list (string * Val))
  : list (string * ParameterValueSequence Val) :=
  let '(trial_final_values, multi_dim_params) :=
    foldl combine_item ([], []) trial_external_values in
  foldl combine_base trial_final_values multi_dim_params.

(** [self._pytrial_parameters(pytrial)] *)
Definition _pytrial_parameters
    (search_space : list (ParameterConfig Val ExternalType)) (pytrial : Trial)
  : error Trial + list (string * ParameterValueSequence Val) :=
  let trial_external_values := _trial_to_external_values search_space pytrial in
  if bool_decide (PyDict.len trial_external_values ≠ size (parameters pytrial))
  then inl (ValueError pytrial)
  else inr (combine_multi_dimensional trial_external_values).

End Resolver.

(** *** [StudyConfig.to_proto] *)

(** Modelled from the spec: the two automated-stopping protos of
    [study_pb2], whose source is not part of the sources read here; the
    spec describes them as the variants of a tagged union.  A value of this
    type is what [automated_stopping_config.to_proto()] returns. *)
Inductive AutomatedStoppingProto (DecayCurve Median : Type) :=
| DecayCurveAutomatedStoppingSpec (d : DecayCurve)
| MedianAutomatedStoppingSpec (m : Median).
Arguments DecayCurveAutomatedStoppingSpec {DecayCurve Median} d.
Arguments MedianAutomatedStoppingSpec {DecayCurve Median} m.

(** The message classes named in [isinstance(auto_stop_proto, ...)]. *)
Inductive AutomatedStoppingClass :=
| cls_DecayCurveAutomatedStoppingSpec
| cls_MedianAutomatedStoppingSpec.

(** The oneof [automated_stopping_spec] of [StudySpec]. *)
Inductive automated_stopping_oneof (DecayCurve Median : Type) :=
| decay_curve_stopping_spec (d : DecayCurve)
| median_automated_stopping_spec (m : Median).
Arguments decay_curve_stopping_spec {DecayCurve Median} d.
Arguments median_automated_stopping_spec {DecayCurve Median} m.

(** [TypeError] of [CopyFrom] on a message of another class. *)
Inductive TypeError := CopyFrom_TypeError.

Section ToProto.
Context {AlgorithmValue NoiseValue MetricSpec ParameterSpec KeyValue : Type}.
Context {DecayCurve Median AutomatedStoppingConfig MetricInformation : Type}.
Context {Val ExternalType PyObj : Type}.

(** Modelled from the spec: the fields of [study_pb2.StudySpec] that
    [to_proto] writes. *)
Record StudySpec := Build_StudySpec {
  algorithm_field : AlgorithmValue;
  observation_noise_field : NoiseValue;
  metrics : list MetricSpec;
  parameters_field : list ParameterSpec;
  automated_stopping_spec : option (automated_stopping_oneof DecayCurve Median);
  metadata_field : list KeyValue
}.

(** The attributes of a [StudyConfig]; the enum attributes are kept by
    their [.value]. *)
Record StudyConfig := Build_StudyConfig {
  search_space : list (ParameterConfig Val ExternalType);
  algorithm : AlgorithmValue;
  metric_information : list MetricInformation;
  observation_noise : NoiseValue;
  automated_stopping_config : option AutomatedStoppingConfig;
  metadata : Metadata.t;
  _study_config : StudySpec
}.

(** The converters [to_proto] calls; their sources are not part of the
    sources read here.  [assign] is [metadata_util.assign], taken to change
    the repeated field [metadata] of its container only. *)
Context (MetricInformation_to_proto : MetricInformation → MetricSpec).
Context (ParameterConfigConverter_to_proto : ParameterConfig Val ExternalType → ParameterSpec).
Context (AutomatedStoppingConfig_to_proto :
           AutomatedStoppingConfig → AutomatedStoppingProto DecayCurve Median).
Context (assign : list KeyValue → string → string → PyObj → list KeyValue).

(** A Python dictionary is iterated in the order in which its keys were
    inserted.  The heap keeps the items of a dictionary and not that order:
    [key_order l ns] is the order of the keys of the dictionary that the
    [defaultdict] [l] binds to the namespace [ns], when [to_proto] is
    called. *)
Context (key_order : nat → Namespace.t → list string).

(** [isinstance(auto_stop_proto, cls)] *)
Definition isinstance_proto (auto_stop_proto : AutomatedStoppingProto DecayCurve Median)
    (cls : AutomatedStoppingClass) : bool :=
  match auto_stop_proto, cls with
  | DecayCurveAutomatedStoppingSpec _, cls_DecayCurveAutomatedStoppingSpec => true
  | MedianAutomatedStoppingSpec _, cls_MedianAutomatedStoppingSpec => true
  | _, _ => false
  end.

(** [proto.decay_curve_stopping_spec.CopyFrom(auto_stop_proto)] *)
Definition CopyFrom_decay_curve (proto : StudySpec)
    (auto_stop_proto : AutomatedStoppingProto DecayCurve Median)
  : TypeError + StudySpec :=
  match auto_stop_proto with
  | DecayCurveAutomatedStoppingSpec d =>
      inr (Build_StudySpec (algorithm_field proto) (observation_noise_field proto)
             (metrics proto) (parameters_field proto)
             (Some (decay_curve_stopping_spec d)) (metadata_field proto))
  | MedianAutomatedStoppingSpec _ => inl CopyFrom_TypeError
  end.

(** [proto.median_automated_stopping_spec.CopyFrom(auto_stop_proto)] *)
Definition CopyFrom_median (proto : StudySpec)
    (auto_stop_proto : AutomatedStoppingProto DecayCurve Median)
  : TypeError + StudySpec :=
  match auto_stop_proto with
  | MedianAutomatedStoppingSpec m =>
      inr (Build_StudySpec (algorithm_field proto) (observation_noise_field proto)
             (metrics proto) (parameters_field proto)
             (Some (median_automated_stopping_spec m)) (metadata_field proto))
  | DecayCurveAutomatedStoppingSpec _ => inl CopyFrom_TypeError
  end.

(** The statement [if self.automated_stopping_config is not None: ...] of
    [to_proto], with both [isinstance] tests as the source writes them. *)
Definition to_proto_automated_stopping (self : StudyConfig) (proto : StudySpec)
  : TypeError + StudySpec :=
  match automated_stopping_config self with
  | Some config =>
      let auto_stop_proto := AutomatedStoppingConfig_to_proto config in
      if isinstance_proto auto_stop_proto cls_DecayCurveAutomatedStoppingSpec then
        CopyFrom_decay_curve proto auto_stop_proto
      else if isinstance_proto auto_stop_proto cls_DecayCurveAutomatedStoppingSpec then
        CopyFrom_median proto auto_stop_proto
      else inr proto
  | None => inr proto
  end.

(** [view.items()]: the items of the dictionary of the current namespace
    of [view], in the order of its keys. *)
Definition metadata_items (view : Metadata.t) (H : Heap PyObj)
  : list (string * PyObj) :=
  omap (λ key, (λ value, (key, value)) <$> Metadata._store H view !! key)
       (key_order (Metadata._stores view) (Metadata._namespace view)).

(** The loop over [self.metadata.namespaces()] of [to_proto]. *)
Definition to_proto_metadata (self : StudyConfig) (proto : StudySpec) (H : Heap PyObj)
  : StudySpec * Heap PyObj :=
  foldl (λ '(proto, H) ns,
           let repr_ns := Namespace.__repr__ ns in
           let '(abs_ns, H) := Metadata.abs_ns (metadata self) (Namespace.Components ns) H in
           (foldl (λ proto '(key, value),
                     Build_StudySpec (algorithm_field proto) (observation_noise_field proto)
                       (metrics proto) (parameters_field proto)
                       (automated_stopping_spec proto)
                       (assign (metadata_field proto) key repr_ns value))
                  proto (metadata_items abs_ns H),
            H))
        (proto, H) (Metadata.namespaces (metadata self) H).

(** [self.to_proto()] *)
Definition to_proto (self : StudyConfig) (H : Heap PyObj)
  : TypeError + StudySpec * Heap PyObj :=
  let proto := _study_config self in
  let proto := Build_StudySpec (algorithm self) (observation_noise self)
                 (map MetricInformation_to_proto (metric_information self))
                 (map ParameterConfigConverter_to_proto (search_space self))
                 (automated_stopping_spec proto) (metadata_field proto) in
  match to_proto_automated_stopping self proto with
  | inl e => inl e
  | inr proto => inr (to_proto_metadata self proto H)
  end.

End ToProto.

End StudyConfig.

(** ** [Metadata.get_proto] *)

Module MetadataProto.

Section WithObjects.
Context {PyObj Cls Exn : Type} {typing : Metadata.Typing PyObj Cls Exn}.

(** [self.get_proto(key, cls=cls)].  [self._store.get(key, None)] is
    [None] for a missing key; the stored values are [MetadataValue]s, none
    of which is [None]. *)
Definition get_proto (self : Metadata.t) (key : string) (cls : Cls) (H : Heap PyObj)
  : Metadata.outcome PyObj Exn :=
  match Metadata._store H self !! key with
  | None => Metadata.Return None
  | Some value =>
      if Metadata.isinstance value cls then Metadata.Return (Some value)
      else if Metadata.isinstance_Any value then
        match Metadata.new cls with
        | inl e => Metadata.Raise e
        | inr message =>
            match Metadata.Unpack value message with
            | inl e => Metadata.Raise e
            | inr (message, success) =>
                Metadata.Return (if success then Some message else None)
            end
        end
      else Metadata.Return None
  end.

End WithObjects.

End MetadataProto.

(** ** [StudyConfig]: the metrics of a trial *)

Module StudyConfigMetrics.

(** What the module [trial] contributes to [_pytrial_metrics]: whether a
    trial is completed, whether it is infeasible, and the dictionary
    [final_measurement.metrics] with each metric replaced by its
    [.value], in iteration order.  The dictionary is read only for a
    completed, feasible trial, which is taken to have a final
    measurement. *)
Class TrialMeasurements (Trial MetricValue : Type) := {
  is_completed : Trial → bool;
  infeasible : Trial → bool;
  final_measurement_metrics : Trial → list (string * MetricValue)
}.

Section Metrics.
Context {MetricInformation Trial MetricValue : Type}.
Context {measurements : TrialMeasurements Trial MetricValue}.
(** [m.name] for a [MetricInformation]. *)
Context (metric_name : MetricInformation → string).

(** [self.is_single_objective], for [self.metric_information]. *)
Definition is_single_objective (metric_information : list MetricInformation) : bool :=
  bool_decide (length metric_information = 1).

(** [self.single_objective_metric_name] *)
Definition single_objective_metric_name (metric_information : list MetricInformation)
  : option string :=
  if bool_decide (length metric_information = 1)
  then metric_name <$> metric_information !! 0
  else None.

(** The body of the loop of [_pytrial_metrics] for one metric name. *)
Definition metrics_step (metric_information : list MetricInformation)
    (pytrial : Trial) (include_all_metrics : bool)
    (metrics : list (string * MetricValue)) (name : string)
  : list (string * MetricValue) :=
  let configured_metrics := map metric_name metric_information in
  if include_all_metrics
     || (negb include_all_metrics && bool_decide (name ∈ configured_metrics))
  then
    if bool_decide (name = "")
       && bool_decide (single_objective_metric_name metric_information ≠ Some name)
    then metrics
    else
      match PyDict.get (final_measurement_metrics pytrial) name with
      | Some v => PyDict.set metrics name v
      | None => metrics
      end
  else metrics.

(** [self._pytrial_metrics(pytrial, include_all_metrics=...)] *)
Definition _pytrial_metrics (metric_information : list MetricInformation)
    (pytrial : Trial) (include_all_metrics : bool) : list (string * MetricValue) :=
  if is_completed pytrial && negb (infeasible pytrial) then
    foldl (metrics_step metric_information pytrial include_all_metrics) []
          (PyDict.keys (final_measurement_metrics pytrial))
  else [].

End Metrics.

End StudyConfigMetrics.

(** ** [StudyConfig.from_proto]: the metadata *)

Module StudyConfigFromProto.

(** The fields of a [key_value_pb2.KeyValue] that [from_proto] reads;
    [proto] is [None] when [kv.HasField('proto')] is false. *)
Record KeyValue (PyObj : Type) := Build_KeyValue {
  ns : string;
  key : string;
  value : PyObj;
  proto : option PyObj
}.
Arguments Build_KeyValue {PyObj}.
Arguments ns {PyObj}.
Arguments key {PyObj}.
Arguments value {PyObj}.
Arguments proto {PyObj}.

Section WithObjects.
Context {PyObj : Type}.

(** [kv.proto if kv.HasField('proto') else kv.value] *)
Definition kv_value (kv : KeyValue PyObj) : PyObj :=
  match proto kv with
  | Some message => message
  | None => value kv
  end.

(** The statements of [from_proto] that build [metadata] from
    [proto.metadata]. *)
Definition from_proto_metadata (proto_metadata : list (KeyValue PyObj))
    (H : Heap PyObj)
  : Metadata.t * Heap PyObj :=
  let '(metadata, H) := Metadata.__init__ Metadata.NoItems [] H in
  (metadata,
   foldl (λ H kv,
            let '(view, H) := Metadata.abs_ns metadata (Namespace.Str (ns kv)) H in
            Metadata.__setitem__ view (key kv) (kv_value kv) H)
         H proto_metadata).

End WithObjects.

End StudyConfigFromProto.

(** ** [ServicePolicySupporter] *)

Module ServicePolicySupporter.

(** Modelled from the source: the attributes of a [vz.Trial] that
    [GetTrials] reads or writes, and everything else of the trial. *)
Record Trial (Status Measurement Rest : Type) := Build_Trial {
  id : Z;
  status : Status;
  measurements : list Measurement;
  rest : Rest
}.
Arguments Build_Trial {Status Measurement Rest}.
Arguments id {Status Measurement Rest}.
Arguments status {Status Measurement Rest}.
Arguments measurements {Status Measurement Rest}.
Arguments rest {Status Measurement Rest}.

(** What the Vizier service contributes: the trials
    [TrialConverter.from_protos(ListTrials(parent=study_guid).trials)] of a
    study, as fresh copies, and the truth value [bool(status)] of a status. *)
Class Service (Status Measurement Rest : Type) := {
  ListTrials : string → list (Trial Status Measurement Rest);
  status_truthy : Status → bool
}.

Record t := Build { _study_guid : string }.

(** The [ValueError] of [GetTrials]. *)
Inductive error := ValueError_both_selections.

Section GetTrials.
Context {Status Measurement Rest : Type} `{EqDecision Status}.
Context {service : Service Status Measurement Rest}.

(** [bool(status_matches)] for an [Optional] status. *)
Definition truthy (status_matches : option Status) : bool :=
  match status_matches with
  | None => false
  | Some s => status_truthy s
  end.

(** The local function [_trial_filter]. *)
Definition _trial_filter (trial_ids : option (list Z))
    (min_trial_id max_trial_id : option Z) (status_matches : option Status)
    (trial : Trial Status Measurement Rest) : bool :=
  if match trial_ids with
     | Some ids => bool_decide (id trial ∉ ids)
     | None => false
     end
  then false
  else
    if match min_trial_id with
       | Some m => bool_decide (id trial < m)%Z
       | None => false
       end
    then false
    else
      if match max_trial_id with
         | Some m => bool_decide (id trial > m)%Z
         | None => false
         end
      then false
      else
        if match status_matches with
           | Some s => status_truthy s && bool_decide (status trial ≠ s)
           | None => false
           end
        then false
        else true.

(** [self.GetTrials(study_guid=..., trial_ids=..., min_trial_id=...,
    max_trial_id=..., status_matches=...,
    include_intermediate_measurements=...)] *)
Definition GetTrials (self : t) (study_guid : option string)
    (trial_ids : option (list Z)) (min_trial_id max_trial_id : option Z)
    (status_matches : option Status) (include_intermediate_measurements : bool)
  : error + list (Trial Status Measurement Rest) :=
  let study_guid := default (_study_guid self) study_guid in
  let all_pytrials := ListTrials study_guid in
  if bool_decide (is_Some trial_ids)
     && (bool_decide (is_Some min_trial_id)
         || bool_decide (is_Some max_trial_id)
         || truthy status_matches)
  then inl ValueError_both_selections
  else
    let filtered_pytrials :=
      filter (λ t, _trial_filter trial_ids min_trial_id max_trial_id status_matches t
                   = true) all_pytrials in
    if negb include_intermediate_measurements
    then inr (map (λ t, Build_Trial (id t) (status t) [] (rest t)) filtered_pytrials)
    else inr filtered_pytrials.

End GetTrials.

End ServicePolicySupporter.

(** ** Notions used in the statements *)

(** [pre] is put in front of the first fragment. *)
Definition prepend (pre : string) (fragments : list string) : list string :=
  match fragments with
  | [] => []
  | h :: t => (pre +:+ h) :: t
  end.


(** The dictionary bound to [ns] in the [defaultdict] at [l], if there is
    one; [Metadata.store_at] is this dictionary, or the empty one. *)
Definition entry {PyObj : Type} (H : Heap PyObj) (l : nat) (ns : Namespace.t)
  : option (gmap string PyObj) :=
  H !! l ≫= λ d, PyDict.get d ns.

(** [m] is a view of the heap [H]: its [defaultdict] exists and binds its
    current namespace, as [__init__] and [_copy_core] leave it. *)
Definition is_view {PyObj : Type} (H : Heap PyObj) (m : Metadata.t) : Prop :=
  is_Some (entry H (Metadata._stores m) (Metadata._namespace m)).

(** The three ways of deriving a view from a view. *)
Inductive derivation :=
| by_ns (components : Namespace.arg)
| by_abs_ns (namespace : Namespace.arg)
| by_copy.

Definition derive {PyObj : Type} (how : derivation) (m : Metadata.t) (H : Heap PyObj)
  : Metadata.t * Heap PyObj :=
  match how with
  | by_ns components => Metadata.ns m components H
  | by_abs_ns namespace => Metadata.abs_ns m namespace H
  | by_copy => Metadata.__copy__ m H
  end.

(** [m.abs_ns(a).get(key)] and [m.ns(p).get(key)] for a [Namespace]
    argument, with [None] for a missing key. *)
Definition value_at_abs {PyObj : Type} (H : Heap PyObj) (m : Metadata.t)
    (a : Namespace.t) (key : string) : option PyObj :=
  let r := Metadata.abs_ns m (Namespace.Components a) H in
  Metadata.__getitem__ r.1 key r.2.

Definition value_at_rel {PyObj : Type} (H : Heap PyObj) (m : Metadata.t)
    (p : Namespace.t) (key : string) : option PyObj :=
  let r := Metadata.ns m (Namespace.Components p) H in
  Metadata.__getitem__ r.1 key r.2.

(** The heap after [m.ns("w").attach(other.ns("x"))]. *)
Definition attach_w_x {PyObj : Type} (H : Heap PyObj) (m other : Metadata.t)
  : Heap PyObj :=
  let '(mw, H) := Metadata.ns m (Namespace.Str "w") H in
  let '(ox, H) := Metadata.ns other (Namespace.Str "x") H in
  Metadata.attach mw ox H.

(** The effect of [m.ns("w").attach(other.ns("x"))] as the specification
    words it, for two views [m] and [other] of a heap [H]: what [other]
    holds at a path [p] below ["x"] is read from [m.abs_ns("w" + p)]; a key
    that [other] does not hold there keeps the value [m] had; outside the
    subtree ["w"] nothing changes. *)
Definition attach_as_specified {PyObj : Type} (H : Heap PyObj)
    (m other : Metadata.t) : Prop :=
  let H' := attach_w_x H m other in
  (∀ p key v, value_at_rel H other ("x" :: p) key = Some v →
              value_at_abs H' m ("w" :: p) key = Some v)
  ∧ (∀ p key, value_at_rel H other ("x" :: p) key = None →
              value_at_abs H' m ("w" :: p) key = value_at_abs H m ("w" :: p) key)
  ∧ (∀ a key, ¬ ["w"] `prefix_of` a →
              value_at_abs H' m a key = value_at_abs H m a key).

(** ** Notions used in the statements about the resolver *)

(** The order in which [sort(key=lambda x: x[0])] leaves the items. *)
Definition index_le {Val : Type} : relation (Z * Val) := λ x y, (x.1 ≤ y.1)%Z.

Section ResolverNotions.
Import StudyConfig.
Context {Val ExternalType ParameterValue Trial : Type}.
Context {collaborators : Collaborators Val ExternalType ParameterValue Trial}.

(** The configs of a search space with the name of their parent: the
    roots have none, a child has the name of the config it is a child of.
    These are the pairs the traversal can put in its queue. *)
Inductive occurs (search_space : list (ParameterConfig Val ExternalType))
  : option string → ParameterConfig Val ExternalType → Prop :=
| occurs_root pc :
    pc ∈ search_space → occurs search_space None pc
| occurs_child parent pc child :
    occurs search_space parent pc →
    child ∈ child_parameter_configs pc →
    occurs search_space (Some (name pc)) child.

(** The external value recorded for a config and a trial parameter. *)
Definition external_value_of (pc : ParameterConfig Val ExternalType)
    (pv : ParameterValue) : Val :=
  match external_type pc with
  | None => value pv
  | Some et => cast pv et
  end.

(** A config is active under a trial when it is a root, or the trial gives
    its parent a value that is one of its matching parent values. *)
Definition active (pytrial : Trial) (parent : option string)
    (pc : ParameterConfig Val ExternalType) : Prop :=
  match parent with
  | None => True
  | Some p => ∃ pv, parameters pytrial !! p = Some pv
                    ∧ not_in (value pv) (matching_parent_values pc) = false
  end.

(** The items [(index, value)] that the resolved names of one base name
    contribute, in the iteration order of the resolved mapping. *)
Definition indexed_items (base : string) (resolved : list (string * Val))
  : list (Z * Val) :=
  omap (λ '(n, v),
          match parse_multi_dimensional_parameter_name n with
          | Some (b, index) => if decide (b = base) then Some (index, v) else None
          | None => None
          end) resolved.

(** A raw trial entry [n] is accounted for in the returned dictionary: a
    name without an index is a key of it, a name with an index has its
    external value in the list bound to its base name. *)
Definition accounted (resolved : list (string * Val))
    (final : list (string * ParameterValueSequence Val)) (n : string) : Prop :=
  match parse_multi_dimensional_parameter_name n with
  | None => is_Some (PyDict.get final n)
  | Some (base, _) =>
      ∃ l v, PyDict.get final base = Some (Sequence l)
             ∧ PyDict.get resolved n = Some v ∧ v ∈ l
  end.

(** What holds of the local variables of [_trial_to_external_values]
    whenever the loop condition is evaluated. *)
Record invariant (search_space : list (ParameterConfig Val ExternalType))
    (pytrial : Trial) (st : @state Val ExternalType ParameterValue) : Prop := {
  inv_remaining : ∀ n pv,
    remaining_parameters st !! n = Some pv → parameters pytrial !! n = Some pv;
  inv_cover : ∀ n,
    is_Some (parameters pytrial !! n) →
    n ∈ PyDict.keys (external_values st) ∨ is_Some (remaining_parameters st !! n);
  inv_resolved : ∀ n,
    n ∈ PyDict.keys (external_values st) →
    remaining_parameters st !! n = None ∧ is_Some (parameter_values st !! n);
  inv_nodup : NoDup (PyDict.keys (external_values st));
  inv_raw : ∀ n v,
    parameter_values st !! n = Some v →
    n ∈ PyDict.keys (external_values st)
    ∧ ∃ pv, parameters pytrial !! n = Some pv ∧ v = value pv;
  inv_queue : ∀ parent pc,
    (parent, pc) ∈ parameter_configs st → occurs search_space parent pc;
  inv_why : ∀ n,
    n ∈ PyDict.keys (external_values st) →
    ∃ parent pc pv,
      occurs search_space parent pc ∧ name pc = n
      ∧ parameters pytrial !! n = Some pv
      ∧ active pytrial parent pc
      ∧ (∀ p, parent = Some p → p ∈ PyDict.keys (external_values st))
      ∧ PyDict.get (external_values st) n = Some (external_value_of pc pv)
}.

(** The test under which one iteration of the loop records the child
    config at the head of the queue: its name is still among the remaining
    trial parameters, its parent has a recorded raw value, and that value is
    one of its matching parent values. *)
Definition child_is_recorded (st : @state Val ExternalType ParameterValue)
    (parent : string) (pc : ParameterConfig Val ExternalType) : bool :=
  bool_decide (is_Some (remaining_parameters st !! name pc))
  && match parameter_values st !! parent with
     | Some parent_value => negb (not_in parent_value (matching_parent_values pc))
     | None => false
     end.

(** The last sentence of the claim on conditional parameters, as the
    specification words it: a child config whose name is in the raw trial
    and whose parent has, in the trial, a value that does not match, stays
    unresolved and makes the resolution fail. *)
Definition mismatch_fails_as_specified
    (search_space : list (ParameterConfig Val ExternalType)) (pytrial : Trial) : Prop :=
  ∀ parent pc pv,
    occurs search_space (Some parent) pc →
    is_Some (parameters pytrial !! name pc) →
    parameters pytrial !! parent = Some pv →
    not_in (value pv) (matching_parent_values pc) = true →
    (name pc ∉ PyDict.keys (_trial_to_external_values search_space pytrial))
    ∧ _pytrial_parameters search_space pytrial = inl (ValueError pytrial).

(** The recombination of multi-dimensional parameters as the specification
    words it, for a resolved mapping: names without an index appear
    unchanged; each base name is bound to the values of exactly the indices
    present, in ascending order of index; the names with an index are
    replaced by that entry, so they are no keys of the result; the result
    does not depend on the iteration order of the resolved mapping. *)
Definition recombination_as_specified (resolved : list (string * Val)) : Prop :=
  (∀ n v, (n, v) ∈ resolved → parse_multi_dimensional_parameter_name n = None →
          PyDict.get (combine_multi_dimensional resolved) n = Some (Scalar v))
  ∧ (∀ base, indexed_items base resolved ≠ [] →
       ∃ l, PyDict.get (combine_multi_dimensional resolved) base = Some (Sequence (l.*2))
            ∧ l ≡ₚ indexed_items base resolved
            ∧ Sorted Z.le l.*1)
  ∧ (∀ n v, (n, v) ∈ resolved →
            is_Some (parse_multi_dimensional_parameter_name n) →
            PyDict.get (combine_multi_dimensional resolved) n = None)
  ∧ (∀ resolved', resolved' ≡ₚ resolved →
       ∀ n, PyDict.get (combine_multi_dimensional resolved') n
            = PyDict.get (combine_multi_dimensional resolved) n).

End ResolverNotions.

(** ** A small universe of Python objects, for the examples *)

Module Examples.

Inductive obj :=
| OStr (s : string)
| OInt (z : Z)
| OAny (type_name : string) (content : string)
| OMessage (type_name : string) (content : string).

Inductive cls :=
| CStr
| CInt
| CAny
| CMessage (type_name : string).

Inductive exn :=
| ValueError_invalid_literal
| TypeError_no_conversion.

Definition digit (c : ascii) : option Z :=
  let n := Z.of_N (N_of_ascii c) in
  if bool_decide (48 ≤ n ≤ 57)%Z then Some (n - 48)%Z else None.

(** [int(s)] for a string of decimal digits. *)
Fixpoint int_digits (acc : Z) (s : string) : option Z :=
  match s with
  | EmptyString => Some acc
  | String c s' =>
      match digit c with
      | Some d => int_digits (10 * acc + d) s'
      | None => None
      end
  end.

#[global] Instance typing : Metadata.Typing obj cls exn := {|
  Metadata.isinstance value c :=
    match value, c with
    | OStr _, CStr => true
    | OInt _, CInt => true
    | OAny _ _, CAny => true
    | OMessage t _, CMessage t' => bool_decide (t = t')
    | _, _ => false
    end;
  Metadata.isinstance_Any value :=
    match value with OAny _ _ => true | _ => false end;
  Metadata.new c :=
    match c with
    | CStr => inr (OStr "")
    | CInt => inr (OInt 0)
    | CAny => inr (OAny "" "")
    | CMessage t => inr (OMessage t "")
    end;
  Metadata.Unpack value message :=
    match value, message with
    | OAny packed content, OMessage t _ =>
        if bool_decide (packed = t) then inr (OMessage t content, true)
        else inr (message, false)
    | _, _ => inl TypeError_no_conversion
    end;
  Metadata.construct c value :=
    match c, value with
    | CStr, OStr s => inr (OStr s)
    | CInt, OInt z => inr (OInt z)
    | CInt, OStr (String ch s) =>
        match int_digits 0 (String ch s) with
        | Some z => inr (OInt z)
        | None => inl ValueError_invalid_literal
        end
    | CInt, OStr EmptyString => inl ValueError_invalid_literal
    | _, _ => inl TypeError_no_conversion
    end
|}.

(** [Metadata({'int': '60', 'name': 'abc', 'any': <Any packing a Duration>})] *)
Definition some_metadata : Metadata.t * Heap obj :=
  Metadata.__init__
    (Metadata.Pairs [("int", OStr "60"); ("name", OStr "abc");
                     ("any", OAny "Duration" "60s")])
    [] [].

(** One store in which ["w:x:x"] was written before ["w:x"], as left by
    [m = Metadata(); m.abs_ns('w:x:x')['k'] = '1'; m.abs_ns('w:x')['k'] = '0';
    other = m.ns('w')]; [m] is its root view and [other] its view at
    ["w"]. *)
Definition aliased_heap : Heap string :=
  [[([], ∅);
    (["w"; "x"; "x"], {["k" := "1"]});
    (["w"; "x"], {["k" := "0"]});
    (["w"], ∅)]].
Definition aliased_m : Metadata.t := Metadata.Build 0 [].
Definition aliased_other : Metadata.t := Metadata.Build 0 ["w"].

(** Two stores, as left by [m = Metadata().ns('q'); other = Metadata();
    other.abs_ns('x:y:z')['foo'] = 'bar']: [nested_m] is the view of the
    first store at ["q"], [root_m] its root view, and [root_other] the root
    view of the second store. *)
Definition two_stores : Heap string :=
  [[([], ∅); (["q"], ∅)];
   [([], ∅); (["x"; "y"; "z"], {["foo" := "bar"]})]].
Definition nested_m : Metadata.t := Metadata.Build 0 ["q"].
Definition root_m : Metadata.t := Metadata.Build 0 [].
Definition root_other : Metadata.t := Metadata.Build 1 [].

(** Modelled from the spec: [parse_multi_dimensional_parameter_name] of
    [SearchSpaceSelector], whose source is not part of the sources read
    here.  A name [base[index]], with [index] a non-empty string of decimal
    digits, encodes the base name [base] and the integer [index]; any other
    name has no index. *)
Fixpoint split_index (reversed : list ascii) (digits : string)
  : option (list ascii * string) :=
  match reversed with
  | [] => None
  | c :: rest =>
      if Ascii.eqb c "["%char then
        match digits with
        | EmptyString => None
        | _ => Some (rest, digits)
        end
      else
        match digit c with
        | Some _ => split_index rest (String c digits)
        | None => None
        end
  end.

Definition parse_name (name : string) : option (string * Z) :=
  match reverse (list_ascii_of_string name) with
  | c :: rest =>
      if Ascii.eqb c "]"%char then
        match split_index rest EmptyString with
        | Some (base, digits) =>
            match int_digits 0 digits with
            | Some index => Some (string_of_list_ascii (reverse base), index)
            | None => None
            end
        | None => None
        end
      else None
  | [] => None
  end.

(** Trials whose parameters are strings; a raw value is its own external
    value. *)
#[global] Instance collaborators
  : StudyConfig.Collaborators string unit string (gmap string string) := {|
  StudyConfig.parameters trial := trial;
  StudyConfig.value pv := pv;
  StudyConfig.cast pv _ := pv;
  StudyConfig.value_eqb := String.eqb;
  StudyConfig.parse_multi_dimensional_parameter_name := parse_name
|}.

Definition leaf (name : string) (matching : list string)
  : StudyConfig.ParameterConfig string unit :=
  StudyConfig.Build_ParameterConfig name None matching [].

(** A flat search space with the parameters [a] and [b]. *)
Definition flat_space : list (StudyConfig.ParameterConfig string unit) :=
  [leaf "a" []; leaf "b" []].

(** The parameter [a] with one child [c], active when [a == "low"]. *)
Definition one_child_space : list (StudyConfig.ParameterConfig string unit) :=
  [StudyConfig.Build_ParameterConfig "a" None [] [leaf "c" ["low"]]].

(** The parameter [a] with a child [c] for [a == "low"] and another child
    [c] for [a == "high"]. *)
Definition two_children_space : list (StudyConfig.ParameterConfig string unit) :=
  [StudyConfig.Build_ParameterConfig "a" None []
     [leaf "c" ["low"]; leaf "c" ["high"]]].

Definition trial_a_b : gmap string string := {["a" := "0.5"; "b" := "3"]}.
Definition trial_a_high_c : gmap string string := {["a" := "high"; "c" := "1"]}.

(** A [StudyConfig] whose automated-stopping config converts to a median
    proto, and whose stored proto has no automated-stopping field set. *)
Definition median_study
  : @StudyConfig.StudyConfig nat nat string string string unit unit bool string
      string unit :=
  StudyConfig.Build_StudyConfig flat_space 0 [] 0 (Some true) (Metadata.Build 0 [])
    (StudyConfig.Build_StudySpec 0 0 [] [] None []).

Definition stopping_to_proto (use_median : bool)
  : StudyConfig.AutomatedStoppingProto unit unit :=
  if use_median then StudyConfig.MedianAutomatedStoppingSpec ()
  else StudyConfig.DecayCurveAutomatedStoppingSpec ().

(** The order of the keys of the dictionaries of [two_stores]. *)
Definition two_stores_key_order (l : nat) (ns : Namespace.t) : list string :=
  if bool_decide (l = 1 ∧ ns = ["x"; "y"; "z"]) then ["foo"] else [].


End Examples.

(** ** Further notions used in the statements *)

(** The character [ch] occurs in [s]. *)
Fixpoint contains (ch : ascii) (s : string) : bool :=
  match s with
  | EmptyString => false
  | String c s' => Ascii.eqb c ch || contains ch s'
  end.

(** Every [defaultdict] of the heap binds a namespace at most once, as a
    Python dictionary does. *)
Definition stores_wf {PyObj : Type} (H : Heap PyObj) : Prop :=
  ∀ l cell, H !! l = Some cell → NoDup (PyDict.keys cell).

(** What [update] and [Metadata(...)] read from their first argument. *)
Definition items_lookup {PyObj : Type} (H : Heap PyObj) (items : Metadata.items PyObj)
    (key : string) : option PyObj :=
  match items with
  | Metadata.NoItems => None
  | Metadata.Dict d => d !! key
  | Metadata.Pairs kvs => (list_to_map (reverse kvs) : gmap string PyObj) !! key
  | Metadata.Mapping mm => Metadata._store H mm !! key
  end.

(** The trials [GetTrials] selects: the identifier is among [trial_ids] when
    these are given, it is within the bounds that are given, and the status
    is [status_matches] when that is given and truthy. *)
Definition selected {Status Measurement Rest : Type}
    {service : ServicePolicySupporter.Service Status Measurement Rest}
    (trial_ids : option (list Z)) (min_trial_id max_trial_id : option Z)
    (status_matches : option Status)
    (trial : ServicePolicySupporter.Trial Status Measurement Rest) : Prop :=
  (∀ ids, trial_ids = Some ids → ServicePolicySupporter.id trial ∈ ids)
  ∧ (∀ m, min_trial_id = Some m → (m ≤ ServicePolicySupporter.id trial)%Z)
  ∧ (∀ m, max_trial_id = Some m → (ServicePolicySupporter.id trial ≤ m)%Z)
  ∧ (∀ s, status_matches = Some s → ServicePolicySupporter.status_truthy s = true →
       ServicePolicySupporter.status trial = s).

(** A trial with its list of intermediate measurements emptied. *)
Definition without_measurements {Status Measurement Rest : Type}
    (trial : ServicePolicySupporter.Trial Status Measurement Rest)
  : ServicePolicySupporter.Trial Status Measurement Rest :=
  ServicePolicySupporter.Build_Trial
    (ServicePolicySupporter.id trial) (ServicePolicySupporter.status trial) []
    (ServicePolicySupporter.rest trial).

(** The metric names [_pytrial_metrics] reports: all of them or the
    configured ones, and the empty name only in a study whose single metric
    has the empty name. *)
Definition reported {MetricInformation : Type}
    (metric_name : MetricInformation → string)
    (metric_information : list MetricInformation) (include_all_metrics : bool)
    (name : string) : Prop :=
  (include_all_metrics = true
   ∨ ∃ m, m ∈ metric_information ∧ metric_name m = name)
  ∧ (name = "" → ∃ m, metric_information = [m] ∧ metric_name m = "").


(** The entry [kv] of [proto.metadata] is for the key [k] of the namespace
    [a]: its [ns] decodes to [a] and its [key] is [k]. *)
Definition entry_for {PyObj : Type} (kv : StudyConfigFromProto.KeyValue PyObj)
    (a : Namespace.t) (k : string) : Prop :=
  Namespace.make (Namespace.Str (StudyConfigFromProto.ns kv)) = a
  ∧ StudyConfigFromProto.key kv = k.

(** A service with one study of three trials, and trials given by their
    completion, feasibility and final metrics. *)
Module ServiceExamples.

Inductive status := ACTIVE | COMPLETED.

#[global] Instance status_eq_dec : EqDecision status.
Proof. solve_decision. Defined.

Definition trial (i : Z) (s : status) (ms : list Z)
  : ServicePolicySupporter.Trial status Z unit :=
  ServicePolicySupporter.Build_Trial i s ms tt.

Definition trials : list (ServicePolicySupporter.Trial status Z unit) :=
  [trial 1 COMPLETED [5]; trial 2 ACTIVE [6; 7]; trial 3 COMPLETED []]%Z.

#[global] Instance service : ServicePolicySupporter.Service status Z unit := {|
  ServicePolicySupporter.ListTrials study_guid :=
    if bool_decide (study_guid = "study") then trials else [];
  ServicePolicySupporter.status_truthy _ := true
|}.

Definition supporter : ServicePolicySupporter.t :=
  ServicePolicySupporter.Build "study".

#[global] Instance measurements
  : StudyConfigMetrics.TrialMeasurements (bool * bool * list (string * Z)) Z := {|
  StudyConfigMetrics.is_completed t := t.1.1;
  StudyConfigMetrics.infeasible t := t.1.2;
  StudyConfigMetrics.final_measurement_metrics t := t.2
|}.

Definition completed_trial : bool * bool * list (string * Z) :=
  (true, false, [(""%string, 0); ("loss"%string, 3); ("extra"%string, 4)])%Z.

End ServiceExamples.

(** * Properties *)

(** ** Insertion-ordered dictionaries *)

Section PyDictFacts.
Context {K V : Type} `{EqDecision K}.
Implicit Types (d : list (K * V)) (k : K) (v : V).

Lemma pydict_get_app d1 d2 k :
  PyDict.get (d1 ++ d2) k
  = match PyDict.get d1 k with Some v => Some v | None => PyDict.get d2 k end.
Proof.
  induction d1 as [|[k' v'] d1 IH]; [done|]. cbn.
  by destruct (decide (k' = k)).
Qed.

Lemma pydict_get_alter (f : V → V) d k k' :
  PyDict.get (PyDict.alter f d k) k'
  = if decide (k = k') then f <$> PyDict.get d k else PyDict.get d k'.
Proof.
  induction d as [|[k0 v0] d IH]; cbn.
  - by destruct (decide (k = k')).
  - destruct (decide (k0 = k)) as [Heq|Hne]; cbn; [|rewrite IH];
      repeat case_decide; simplify_eq/=; done.
Qed.

Lemma pydict_get_set d k v k' :
  PyDict.get (PyDict.set d k v) k'
  = if decide (k = k') then Some v else PyDict.get d k'.
Proof.
  unfold PyDict.set. destruct (PyDict.get d k) eqn:Hget.
  - rewrite pydict_get_alter, Hget. by destruct (decide (k = k')).
  - rewrite pydict_get_app. cbn. destruct (decide (k = k')) as [<-|].
    + by rewrite Hget.
    + by destruct (PyDict.get d k').
Qed.

Lemma pydict_get_setdefault d k v k' :
  PyDict.get (PyDict.setdefault d k v) k'
  = if decide (k = k') then Some (default v (PyDict.get d k)) else PyDict.get d k'.
Proof.
  unfold PyDict.setdefault. destruct (PyDict.get d k) eqn:Hget.
  - destruct (decide (k = k')) as [<-|]; [by rewrite Hget|done].
  - rewrite pydict_get_app. cbn. destruct (decide (k = k')) as [<-|].
    + by rewrite Hget.
    + by destruct (PyDict.get d k').
Qed.

Lemma pydict_get_Some_elem d k v : PyDict.get d k = Some v → (k, v) ∈ d.
Proof.
  induction d as [|[k' v'] d IH]; [done|]. cbn.
  destruct (decide (k' = k)) as [->|]; intros Hget.
  - injection Hget as ->. apply list_elem_of_here.
  - apply list_elem_of_further. auto.
Qed.

Lemma pydict_get_None d k : PyDict.get d k = None ↔ k ∉ PyDict.keys d.
Proof.
  unfold PyDict.keys. induction d as [|[k' v'] d IH]; cbn.
  - split; [intros _; apply not_elem_of_nil|done].
  - rewrite not_elem_of_cons. destruct (decide (k' = k)) as [->|Hne].
    + split; [done|]. intros [? _]. done.
    + rewrite IH. split; [intros ?; split; [congruence|done]|by intros [_ ?]].
Qed.

Lemma pydict_elem_get d k v :
  NoDup (PyDict.keys d) → (k, v) ∈ d → PyDict.get d k = Some v.
Proof.
  unfold PyDict.keys. induction d as [|[k' v'] d IH]; cbn.
  - intros _ Hin. by apply elem_of_nil in Hin.
  - rewrite NoDup_cons. intros [Hnotin Hnd] Hin.
    apply elem_of_cons in Hin as [Heq|Hin].
    + injection Heq as -> ->. by rewrite decide_True.
    + destruct (decide (k' = k)) as [->|]; [|by apply IH].
      exfalso. apply Hnotin. apply list_elem_of_fmap. by exists (k, v).
Qed.

Lemma pydict_keys_alter (f : V → V) d k :
  PyDict.keys (PyDict.alter f d k) = PyDict.keys d.
Proof.
  unfold PyDict.keys. induction d as [|[k' v'] d IH]; [done|]. cbn.
  destruct (decide (k' = k)); cbn; [done|]. by rewrite IH.
Qed.

Lemma pydict_keys_set d k v :
  PyDict.keys (PyDict.set d k v)
  = match PyDict.get d k with
    | Some _ => PyDict.keys d
    | None => PyDict.keys d ++ [k]
    end.
Proof.
  unfold PyDict.set. destruct (PyDict.get d k).
  - apply pydict_keys_alter.
  - unfold PyDict.keys. by rewrite fmap_app.
Qed.

Lemma pydict_NoDup_set d k v :
  NoDup (PyDict.keys d) → NoDup (PyDict.keys (PyDict.set d k v)).
Proof.
  intros Hnd. rewrite pydict_keys_set. destruct (PyDict.get d k) eqn:Hget; [done|].
  apply NoDup_app. split; [done|]. split; [|apply NoDup_singleton].
  intros x Hx ->%list_elem_of_singleton. by apply pydict_get_None in Hget.
Qed.

End PyDictFacts.

(** ** The heap of [Metadata] *)

Section HeapFacts.
Context {PyObj : Type}.
Implicit Types (H : Heap PyObj) (l : nat) (ns : Namespace.t) (m : Metadata.t).

Lemma store_at_entry H l ns : Metadata.store_at H l ns = default ∅ (entry H l ns).
Proof. done. Qed.

Lemma entry_lt H l ns : is_Some (entry H l ns) → l < length H.
Proof.
  unfold entry. intros [s Hs]. destruct (H !! l) eqn:Hl; [|done].
  by eapply lookup_lt_Some.
Qed.

Lemma entry_app H (X : Heap PyObj) l ns :
  l < length H → entry (H ++ X) l ns = entry H l ns.
Proof. intros Hl. unfold entry. by rewrite lookup_app_l. Qed.

Lemma entry_touch_same H l ns :
  l < length H →
  entry (Metadata.stores_touch l ns H) l ns = Some (default ∅ (entry H l ns)).
Proof.
  intros Hl. unfold entry, Metadata.stores_touch.
  rewrite list_lookup_alter_eq.
  destruct (lookup_lt_is_Some_2 H l Hl) as [d ->]. cbn.
  rewrite pydict_get_setdefault. by rewrite decide_True.
Qed.

Lemma entry_touch_other H l ns l' ns' :
  l ≠ l' ∨ ns ≠ ns' →
  entry (Metadata.stores_touch l ns H) l' ns' = entry H l' ns'.
Proof.
  intros Hne. unfold entry, Metadata.stores_touch.
  destruct (decide (l = l')) as [<-|Hl]; [|by rewrite list_lookup_alter_ne].
  rewrite list_lookup_alter_eq. destruct (H !! l) as [d|]; [|done]. cbn.
  rewrite pydict_get_setdefault. rewrite decide_False; [done|]. by destruct Hne.
Qed.

Lemma store_at_touch H l ns l' ns' :
  Metadata.store_at (Metadata.stores_touch l ns H) l' ns' = Metadata.store_at H l' ns'.
Proof.
  rewrite !store_at_entry.
  destruct (decide (l = l' ∧ ns = ns')) as [[<- <-]|Hne].
  - unfold entry, Metadata.stores_touch. rewrite list_lookup_alter_eq.
    destruct (H !! l) as [d|]; [|done]. cbn.
    rewrite pydict_get_setdefault, decide_True by done.
    by destruct (PyDict.get d ns).
  - rewrite entry_touch_other; [done|].
    destruct (decide (l = l')); [right|left]; naive_solver.
Qed.

Lemma entry_modify_same (f : gmap string PyObj → gmap string PyObj) H l ns :
  entry (Metadata.store_modify f l ns H) l ns = f <$> entry H l ns.
Proof.
  unfold entry, Metadata.store_modify. rewrite list_lookup_alter_eq.
  destruct (H !! l) as [d|]; [|done]. cbn.
  rewrite pydict_get_alter. by rewrite decide_True.
Qed.

Lemma entry_modify_other (f : gmap string PyObj → gmap string PyObj) H l ns l' ns' :
  l ≠ l' ∨ ns ≠ ns' →
  entry (Metadata.store_modify f l ns H) l' ns' = entry H l' ns'.
Proof.
  intros Hne. unfold entry, Metadata.store_modify.
  destruct (decide (l = l')) as [<-|Hl]; [|by rewrite list_lookup_alter_ne].
  rewrite list_lookup_alter_eq. destruct (H !! l) as [d|]; [|done]. cbn.
  rewrite pydict_get_alter. rewrite decide_False; [done|]. by destruct Hne.
Qed.

Lemma length_touch H l ns : length (Metadata.stores_touch l ns H) = length H.
Proof. apply length_alter. Qed.

Lemma length_modify (f : gmap string PyObj → gmap string PyObj) H l ns :
  length (Metadata.store_modify f l ns H) = length H.
Proof. apply length_alter. Qed.

(** [Metadata()] with no items: a new cell that binds the root namespace
    to an empty dictionary; the cells that existed are not touched. *)
Lemma init_empty H :
  ∃ H', Metadata.__init__ Metadata.NoItems [] H
        = (Metadata.Build (length H) [], H')
        ∧ length H' = S (length H)
        ∧ ∀ l ns, l < length H → entry H' l ns = entry H l ns.
Proof.
  unfold Metadata.__init__. cbn [Metadata._stores Metadata._namespace].
  change (Namespace.make (Namespace.Str "")) with ([] : Namespace.t).
  eexists. split; [reflexivity|]. split.
  - rewrite length_modify, length_touch, length_app. cbn. lia.
  - intros l ns Hl.
    rewrite entry_modify_other by (left; lia).
    rewrite entry_touch_other by (left; lia).
    by apply entry_app.
Qed.

(** [_copy_core]: the new object refers to the [defaultdict] of [self];
    the namespace [ns] is bound there if it was not; nothing else
    changes in the cells that existed. *)
Lemma copy_core_spec m ns H :
  Metadata._stores m < length H →
  ∃ H', Metadata._copy_core m ns H = (Metadata.Build (Metadata._stores m) ns, H')
        ∧ length H' = S (length H)
        ∧ entry H' (Metadata._stores m) ns
          = Some (default ∅ (entry H (Metadata._stores m) ns))
        ∧ ∀ l ns', l < length H → l ≠ Metadata._stores m ∨ ns' ≠ ns →
                   entry H' l ns' = entry H l ns'.
Proof.
  intros Hm. unfold Metadata._copy_core.
  destruct (init_empty H) as (H0 & -> & Hlen & Hsame).
  cbn [Metadata._stores Metadata._namespace].
  eexists. split; [reflexivity|]. split; [by rewrite length_touch|]. split.
  - rewrite entry_touch_same by lia. by rewrite Hsame.
  - intros l ns' Hl Hne. rewrite entry_touch_other; [by apply Hsame|].
    destruct Hne; [left|right]; congruence.
Qed.

Lemma copy_core_store_at m ns H l ns' :
  Metadata._stores m < length H → l < length H →
  Metadata.store_at (Metadata._copy_core m ns H).2 l ns' = Metadata.store_at H l ns'.
Proof.
  intros Hm Hl. destruct (copy_core_spec m ns H Hm) as (H' & -> & _ & Hsame & Hother).
  cbn. rewrite !store_at_entry.
  destruct (decide (l = Metadata._stores m ∧ ns' = ns)) as [[-> ->]|Hne].
  - rewrite Hsame. by destruct (entry H (Metadata._stores m) ns).
  - rewrite Hother; [done|done|].
    destruct (decide (l = Metadata._stores m)); [right|left]; naive_solver.
Qed.

Lemma derive_spec (how : derivation) m H :
  Metadata._stores m < length H →
  ∃ ns, (derive how m H).1 = Metadata.Build (Metadata._stores m) ns
        ∧ (derive how m H).2 = (Metadata._copy_core m ns H).2
        ∧ (how = by_copy → ns = Metadata._namespace m).
Proof.
  intros Hm.
  destruct how as [components|namespace|];
    unfold derive, Metadata.ns, Metadata.abs_ns, Metadata.__copy__;
    match goal with |- context [Metadata._copy_core m ?n H] =>
      exists n; destruct (copy_core_spec m n H Hm) as (H' & -> & _) end;
    done.
Qed.

End HeapFacts.

(** ** Views of one backing store *)

Section Sharing.
Context {PyObj : Type}.
Implicit Types (H : Heap PyObj) (m : Metadata.t).

Lemma is_view_lt H m : is_view H m → Metadata._stores m < length H.
Proof. apply entry_lt. Qed.

Lemma is_view_copy_core H m ns m' :
  is_view H m → Metadata._stores m' < length H →
  is_view (Metadata._copy_core m' ns H).2 m.
Proof.
  intros Hv Hm'. destruct (copy_core_spec m' ns H Hm') as (H' & -> & _ & Hsame & Hother).
  cbn. unfold is_view.
  destruct (decide (Metadata._stores m = Metadata._stores m'
                    ∧ Metadata._namespace m = ns)) as [[-> ->]|Hne].
  - by rewrite Hsame.
  - rewrite Hother; [done|by apply is_view_lt|].
    destruct (decide (Metadata._stores m = Metadata._stores m')); [right|left]; naive_solver.
Qed.

(** A value written through one view is read through any view of the
    same [defaultdict], once that view is moved to the writer's
    namespace with [abs_ns]. *)
Lemma write_then_read H (writer reader : Metadata.t) (key : string) (value : PyObj) :
  is_view H writer →
  Metadata._stores reader = Metadata._stores writer →
  Metadata.__getitem__
    (Metadata.abs_ns reader (Namespace.Components (Metadata._namespace writer))
       (Metadata.__setitem__ writer key value H)).1
    key
    (Metadata.abs_ns reader (Namespace.Components (Metadata._namespace writer))
       (Metadata.__setitem__ writer key value H)).2
  = Some value.
Proof.
  intros Hv Hst. pose proof (is_view_lt _ _ Hv) as Hlt.
  destruct Hv as [s Hs].
  unfold Metadata.abs_ns, Metadata.__setitem__.
  set (H1 := Metadata.store_modify _ _ _ H).
  assert (entry H1 (Metadata._stores writer) (Metadata._namespace writer)
          = Some (<[key:=value]> s)) as Hentry.
  { unfold H1. by rewrite entry_modify_same, Hs. }
  assert (Metadata._stores reader < length H1) as Hlt1.
  { unfold H1. rewrite length_modify. by rewrite Hst. }
  destruct (copy_core_spec reader (Metadata._namespace writer) H1 Hlt1)
    as (H2 & -> & _ & Hsame & _).
  cbn [fst snd]. unfold Metadata.__getitem__, Metadata._store.
  cbn [Metadata._stores Metadata._namespace].
  rewrite store_at_entry, Hsame, Hst, Hentry. cbn. apply lookup_insert_eq.
Qed.

(** C6.  A view derived from a view [m] by [ns], [abs_ns] or a shallow
    copy refers to the same backing store as [m]: a key set through either
    of the two is read with that value through the other one at the
    writer's absolute namespace.  A shallow copy keeps the current
    namespace, and deriving a view copies no value: every dictionary of
    the heap has the items it had. *)
Theorem views_share_backing_store H m (how : derivation) (key : string) (value : PyObj) :
  is_view H m →
  let m' := (derive how m H).1 in
  let H' := (derive how m H).2 in
  Metadata._stores m' = Metadata._stores m
  ∧ is_view H' m ∧ is_view H' m'
  ∧ (let H1 := Metadata.__setitem__ m' key value H' in
     let r := Metadata.abs_ns m (Namespace.Components (Metadata._namespace m')) H1 in
     Metadata.__getitem__ r.1 key r.2 = Some value)
  ∧ (let H1 := Metadata.__setitem__ m key value H' in
     let r := Metadata.abs_ns m' (Namespace.Components (Metadata._namespace m)) H1 in
     Metadata.__getitem__ r.1 key r.2 = Some value)
  ∧ (how = by_copy → Metadata._namespace m' = Metadata._namespace m)
  ∧ (∀ l ns, l < length H → Metadata.store_at H' l ns = Metadata.store_at H l ns).
Proof.
  intros Hv. pose proof (is_view_lt _ _ Hv) as Hlt.
  destruct (derive_spec how m H Hlt) as (ns0 & Hm' & HH' & Hcopy).
  cbv zeta. rewrite Hm', HH'.
  assert (is_view (Metadata._copy_core m ns0 H).2 m) as Hv1
    by by apply is_view_copy_core.
  assert (is_view (Metadata._copy_core m ns0 H).2 (Metadata.Build (Metadata._stores m) ns0))
    as Hv2.
  { destruct (copy_core_spec m ns0 H Hlt) as (H' & -> & _ & Hsame & _).
    unfold is_view. cbn. by rewrite Hsame. }
  split; [done|]. split; [done|]. split; [done|].
  split; [by apply write_then_read|].
  split; [by apply write_then_read|].
  split; [intros Hc; by rewrite (Hcopy Hc)|].
  intros l ns Hl. by apply copy_core_store_at.
Qed.

End Sharing.

Lemma views_share_backing_store_witness :
  is_view Examples.two_stores Examples.root_m
  ∧ Metadata.__getitem__
      (Metadata.abs_ns Examples.root_m (Namespace.Components ["a"])
         (Metadata.__setitem__
            (derive (by_ns (Namespace.Str "a")) Examples.root_m Examples.two_stores).1
            "key" "value"
            (derive (by_ns (Namespace.Str "a")) Examples.root_m Examples.two_stores).2)).1
      "key"
      (Metadata.abs_ns Examples.root_m (Namespace.Components ["a"])
         (Metadata.__setitem__
            (derive (by_ns (Namespace.Str "a")) Examples.root_m Examples.two_stores).1
            "key" "value"
            (derive (by_ns (Namespace.Str "a")) Examples.root_m Examples.two_stores).2)).2
    = Some "value".
Proof.
  assert (is_view Examples.two_stores Examples.root_m) as Hv by (by eexists).
  split; [exact Hv|].
  exact (proj1 (proj2 (proj2 (proj2
    (views_share_backing_store Examples.two_stores Examples.root_m
       (by_ns (Namespace.Str "a")) "key" "value" Hv))))).
Defined.

(** ** [Metadata(mm)] *)

Section Construction.
Context {PyObj : Type}.
Implicit Types (H : Heap PyObj) (m : Metadata.t).

Lemma init_spec (a : Metadata.items PyObj) (kwargs : list (string * PyObj)) H :
  ∃ H', Metadata.__init__ a kwargs H = (Metadata.Build (length H) [], H')
        ∧ length H' = S (length H)
        ∧ (∀ ns, entry H' (length H) ns
                 = if decide (ns = [])
                   then Some (Metadata.dict_update
                                (Metadata.stores_touch (length H) [] (H ++ [[]]))
                                ∅ a kwargs)
                   else None)
        ∧ ∀ l ns, l < length H → entry H' l ns = entry H l ns.
Proof.
  unfold Metadata.__init__. cbn [Metadata._stores Metadata._namespace].
  change (Namespace.make (Namespace.Str "")) with ([] : Namespace.t).
  eexists. split; [reflexivity|]. split; [|split].
  - rewrite length_modify, length_touch, length_app. cbn. lia.
  - intros ns. unfold entry, Metadata.store_modify. rewrite list_lookup_alter_eq.
    unfold Metadata.stores_touch at 2. rewrite list_lookup_alter_eq.
    rewrite list_lookup_middle by done. cbn.
    destruct (decide (ns = [])) as [->|Hne]; cbn;
      repeat (case_decide; cbn); try done; congruence.
  - intros l ns Hl.
    rewrite entry_modify_other by (left; lia).
    rewrite entry_touch_other by (left; lia).
    by apply entry_app.
Qed.

(** C10.  [Metadata(mm)] builds a view of a new backing store, at the
    root namespace, whose dictionary there has exactly the items of the
    current namespace of [mm]; the new store binds no other namespace, so
    what [mm]'s store holds elsewhere is not carried over.  Nothing is
    shared: the construction leaves every store that existed as it was,
    and so does a later write through the new object, which the new object
    itself does read back. *)
Theorem init_from_view_copies_current_namespace
    H (mm : Metadata.t) (key : string) (value : PyObj) :
  is_view H mm →
  let new := (Metadata.__init__ (Metadata.Mapping mm) [] H).1 in
  let H' := (Metadata.__init__ (Metadata.Mapping mm) [] H).2 in
  Metadata._stores new = length H
  ∧ Metadata._stores new ≠ Metadata._stores mm
  ∧ Metadata._namespace new = []
  ∧ Metadata._store H' new = Metadata._store H mm
  ∧ (∀ ns, ns ≠ [] → entry H' (Metadata._stores new) ns = None)
  ∧ (∀ l ns, l < length H → entry H' l ns = entry H l ns)
  ∧ (∀ l ns, l < length H →
       entry (Metadata.__setitem__ new key value H') l ns = entry H l ns)
  ∧ Metadata.__getitem__ new key (Metadata.__setitem__ new key value H') = Some value.
Proof.
  intros Hv. pose proof (is_view_lt _ _ Hv) as Hlt.
  destruct (init_spec (Metadata.Mapping mm) [] H) as (H' & -> & Hlen & Hcell & Hold).
  cbv zeta. cbn [fst snd Metadata._stores Metadata._namespace].
  assert (Metadata.dict_update (Metadata.stores_touch (length H) [] (H ++ [[]]))
            ∅ (Metadata.Mapping mm) [] = Metadata._store H mm) as Hupd.
  { unfold Metadata.dict_update. cbn [foldl].
    rewrite (right_id_L ∅ (∪)). unfold Metadata._store.
    rewrite store_at_touch, !store_at_entry. by rewrite entry_app. }
  rewrite Hupd in Hcell.
  split; [done|]. split; [lia|]. split; [done|]. split; [|split; [|split; [|split]]].
  - unfold Metadata._store at 1. cbn [Metadata._stores Metadata._namespace].
    rewrite store_at_entry, Hcell. by rewrite decide_True.
  - intros ns Hns. rewrite Hcell. by rewrite decide_False.
  - done.
  - intros l ns Hl. unfold Metadata.__setitem__.
    cbn [Metadata._stores Metadata._namespace].
    rewrite entry_modify_other by (left; lia). by apply Hold.
  - unfold Metadata.__getitem__, Metadata._store, Metadata.__setitem__.
    cbn [Metadata._stores Metadata._namespace].
    rewrite store_at_entry, entry_modify_same, Hcell.
    rewrite decide_True by done. cbn. apply lookup_insert_eq.
Qed.

End Construction.

Lemma init_from_view_copies_current_namespace_witness :
  is_view Examples.two_stores Examples.root_other
  ∧ Metadata._store
      (Metadata.__init__ (Metadata.Mapping Examples.root_other) [] Examples.two_stores).2
      (Metadata.__init__ (Metadata.Mapping Examples.root_other) [] Examples.two_stores).1
    = Metadata._store Examples.two_stores Examples.root_other.
Proof.
  assert (is_view Examples.two_stores Examples.root_other) as Hv by (by eexists).
  split; [exact Hv|].
  exact (proj1 (proj2 (proj2 (proj2
    (init_from_view_copies_current_namespace Examples.two_stores Examples.root_other
       "key" "value" Hv))))).
Defined.

(** ** [Metadata.get] *)

Section Get.
Context {PyObj Cls Exn : Type} {typing : Metadata.Typing PyObj Cls Exn}.
Implicit Types (H : Heap PyObj) (m : Metadata.t).


End Get.


(** ** [Metadata.attach] *)

Section Attach.
Context {PyObj : Type}.
Implicit Types (H : Heap PyObj) (m self other : Metadata.t) (l : nat)
  (a p rel : Namespace.t).

Lemma store_at_modify (f : gmap string PyObj → gmap string PyObj) H l a l' a' :
  is_Some (entry H l a) →
  Metadata.store_at (Metadata.store_modify f l a H) l' a'
  = if decide (l = l' ∧ a = a') then f (Metadata.store_at H l a)
    else Metadata.store_at H l' a'.
Proof.
  intros [s Hs]. rewrite !store_at_entry.
  destruct (decide (l = l' ∧ a = a')) as [[<- <-]|Hne].
  - by rewrite entry_modify_same, Hs.
  - rewrite entry_modify_other; [done|].
    destruct (decide (l = l')); [right|left]; naive_solver.
Qed.

Lemma length_copy_core m a H : length (Metadata._copy_core m a H).2 = S (length H).
Proof.
  unfold Metadata._copy_core.
  destruct (init_empty H) as (H0 & -> & Hlen & _).
  cbn [snd]. by rewrite length_touch.
Qed.

Lemma copy_core_fst m a H :
  (Metadata._copy_core m a H).1 = Metadata.Build (Metadata._stores m) a.
Proof.
  unfold Metadata._copy_core. by destruct (init_empty H) as (H0 & -> & _).
Qed.

(** What a view reads after [abs_ns] and after [ns]. *)
Lemma value_at_abs_store_at H m a (key : string) :
  Metadata._stores m < length H →
  value_at_abs H m a key = Metadata.store_at H (Metadata._stores m) a !! key.
Proof.
  intros Hm. unfold value_at_abs, Metadata.abs_ns, Metadata.__getitem__, Metadata._store.
  cbv zeta. rewrite copy_core_fst. cbn [Metadata._stores Metadata._namespace].
  by rewrite copy_core_store_at.
Qed.

Lemma value_at_rel_store_at H m p (key : string) :
  Metadata._stores m < length H →
  value_at_rel H m p key
  = Metadata.store_at H (Metadata._stores m) (Metadata._namespace m ++ p) !! key.
Proof.
  intros Hm. unfold value_at_rel, Metadata.ns, Metadata.__getitem__, Metadata._store.
  cbv zeta. rewrite copy_core_fst. cbn [Metadata._stores Metadata._namespace].
  by rewrite copy_core_store_at.
Qed.

(** One iteration of the loop of [attach].  The statement does not
    depend on whether the two views share their backing store. *)
Lemma attach_step_spec self other H rel :
  Metadata._stores self < length H → Metadata._stores other < length H →
  length (Metadata.attach_step self other H rel) = S (length H)
  ∧ ∀ l a, l < length H →
      Metadata.store_at (Metadata.attach_step self other H rel) l a
      = if decide (l = Metadata._stores self ∧ a = Metadata._namespace self ++ rel)
        then Metadata.store_at H (Metadata._stores other) (Metadata._namespace other ++ rel)
             ∪ Metadata.store_at H l a
        else Metadata.store_at H l a.
Proof.
  intros Hs Ho. unfold Metadata.attach_step, Metadata.ns.
  change (Namespace.add (Metadata._namespace self) (Namespace.Components rel))
    with (Metadata._namespace self ++ rel).
  change (Namespace.add (Metadata._namespace other) (Namespace.Components rel))
    with (Metadata._namespace other ++ rel).
  set (target := Metadata._namespace self ++ rel).
  set (source := Metadata._namespace other ++ rel).
  set (H1 := Metadata.stores_touch (Metadata._stores self) target H).
  assert (length H1 = length H) as Hlen1 by apply length_touch.
  assert (Metadata._stores other < length H1) as Ho1 by lia.
  destruct (copy_core_spec other source H1 Ho1) as (H2 & Hcc & Hlen2 & Hsame & Hother).
  rewrite Hcc.
  assert (∀ l a, l < length H → Metadata.store_at H2 l a = Metadata.store_at H l a)
    as Hcontent.
  { intros l a Hl.
    replace H2 with (Metadata._copy_core other source H1).2 by by rewrite Hcc.
    rewrite copy_core_store_at by lia. apply store_at_touch. }
  assert (is_Some (entry H2 (Metadata._stores self) target)) as Hbound.
  { destruct (decide (Metadata._stores self = Metadata._stores other ∧ target = source))
      as [[-> ->]|Hne].
    - by rewrite Hsame.
    - rewrite Hother.
      + unfold H1. by rewrite entry_touch_same.
      + lia.
      + destruct (decide (Metadata._stores self = Metadata._stores other));
          [right|left]; naive_solver. }
  split; [by rewrite length_modify; lia|].
  intros l a Hl. rewrite store_at_modify by done.
  unfold Metadata.dict_update, Metadata._store.
  cbn [foldl Metadata._stores Metadata._namespace].
  rewrite !Hcontent by done.
  repeat case_decide; destruct_and?; simplify_eq/=; try done; naive_solver.
Qed.

(** The loop of [attach] over a list of relative namespaces, when no
    dictionary the loop reads is one it writes: the two views have different
    backing stores, or no namespace is at or below the current namespaces
    of both. *)
Lemma attach_fold_spec_disjoint self other (rels : list Namespace.t) H :
  Metadata._stores self < length H → Metadata._stores other < length H →
  (Metadata._stores self ≠ Metadata._stores other
   ∨ ∀ p q, Metadata._namespace self ++ p ≠ Metadata._namespace other ++ q) →
  let H' := foldl (Metadata.attach_step self other) H rels in
  length H ≤ length H'
  ∧ (∀ p, p ∈ rels →
       Metadata.store_at H' (Metadata._stores self) (Metadata._namespace self ++ p)
       = Metadata.store_at H (Metadata._stores other) (Metadata._namespace other ++ p)
         ∪ Metadata.store_at H (Metadata._stores self) (Metadata._namespace self ++ p))
  ∧ (∀ l a, l < length H →
       l ≠ Metadata._stores self ∨ (∀ p, p ∈ rels → a ≠ Metadata._namespace self ++ p) →
       Metadata.store_at H' l a = Metadata.store_at H l a).
Proof.
  intros Hs Ho Hne. cbv zeta. revert H Hs Ho.
  induction rels as [|rel rels IH]; intros H Hs Ho.
  - cbn. split; [done|]. split; [|done]. intros p Hp. by apply elem_of_nil in Hp.
  - cbn [foldl].
    destruct (attach_step_spec self other H rel Hs Ho) as (Hlen & Hstep).
    set (H1 := Metadata.attach_step self other H rel) in *.
    destruct (IH H1) as (IHlen & IHin & IHout); [lia|lia|].
    split; [lia|]. split.
    + intros p Hp.
      destruct (decide (p ∈ rels)) as [Hin|Hnotin].
      * rewrite IHin by done. rewrite !Hstep by done.
        repeat case_decide; destruct_and?; try done;
          try (exfalso; destruct Hne as [Hne|Hne];
               [congruence|eapply Hne; eauto]).
        match goal with
        | Heq : _ ++ _ = _ ++ _ |- _ => apply (inj (app _)) in Heq as ->
        end.
        by rewrite (assoc_L (∪)), (idemp_L (∪)).
      * apply elem_of_cons in Hp as [->|Hp]; [|done].
        rewrite IHout; [|lia|by right; intros q Hq ->%(inj (app _))].
        rewrite Hstep by done. case_decide as Hd; [done|]. by destruct Hd.
    + intros l a Hl Hcond. rewrite IHout; [|lia|].
      * rewrite Hstep by done. case_decide as Hd; [|done].
        destruct Hd as [-> ->]. destruct Hcond as [?|Hcond]; [done|].
        by destruct (Hcond rel); [apply list_elem_of_here|].
      * destruct Hcond as [?|Hcond]; [by left|right].
        intros q Hq. apply Hcond. by apply list_elem_of_further.
Qed.

(** The loop of [attach] over a list of relative namespaces, when the two
    views have different backing stores. *)
Lemma attach_fold_spec self other (rels : list Namespace.t) H :
  Metadata._stores self < length H → Metadata._stores other < length H →
  Metadata._stores self ≠ Metadata._stores other →
  let H' := foldl (Metadata.attach_step self other) H rels in
  length H ≤ length H'
  ∧ (∀ p, p ∈ rels →
       Metadata.store_at H' (Metadata._stores self) (Metadata._namespace self ++ p)
       = Metadata.store_at H (Metadata._stores other) (Metadata._namespace other ++ p)
         ∪ Metadata.store_at H (Metadata._stores self) (Metadata._namespace self ++ p))
  ∧ (∀ l a, l < length H →
       l ≠ Metadata._stores self ∨ (∀ p, p ∈ rels → a ≠ Metadata._namespace self ++ p) →
       Metadata.store_at H' l a = Metadata.store_at H l a).
Proof.
  intros Hs Ho Hne. apply attach_fold_spec_disjoint; [done|done|by left].
Qed.

(** A namespace whose dictionary has a key is listed by
    [subnamespaces], relative to the current namespace. *)
Lemma subnamespaces_complete other H p :
  Metadata.store_at H (Metadata._stores other) (Metadata._namespace other ++ p) ≠ ∅ →
  p ∈ Metadata.subnamespaces other H.
Proof.
  rewrite store_at_entry. unfold entry, Metadata.subnamespaces.
  destruct (H !! Metadata._stores other) as [cell|]; [|done]. cbn.
  destruct (PyDict.get cell (Metadata._namespace other ++ p)) as [store|] eqn:Hget;
    [|done].
  cbn. intros Hne. apply pydict_get_Some_elem in Hget.
  apply list_elem_of_omap. eexists. split; [exact Hget|]. cbn.
  assert (Metadata.truthy store = true) as ->.
  { apply bool_decide_eq_true. by apply map_size_non_empty_iff. }
  assert (Namespace.startswith (Metadata._namespace other ++ p) (Metadata._namespace other)
          = true) as ->.
  { apply bool_decide_eq_true. unfold Namespace.slice_to, Namespace.len. cbn.
    by rewrite take_app_length. }
  cbn. unfold Namespace.slice_from, Namespace.len. cbn. by rewrite drop_app_length.
Qed.

(** [self.attach(other)] for views of different backing stores: below the
    current namespace of [self] every dictionary is merged with the one
    [other] has at the same relative path, [other]'s values winning; every
    other dictionary keeps its items. *)
Lemma attach_spec self other H :
  Metadata._stores self < length H → Metadata._stores other < length H →
  Metadata._stores self ≠ Metadata._stores other →
  length H ≤ length (Metadata.attach self other H)
  ∧ (∀ p,
       Metadata.store_at (Metadata.attach self other H)
         (Metadata._stores self) (Metadata._namespace self ++ p)
       = Metadata.store_at H (Metadata._stores other) (Metadata._namespace other ++ p)
         ∪ Metadata.store_at H (Metadata._stores self) (Metadata._namespace self ++ p))
  ∧ (∀ l a, l < length H →
       l ≠ Metadata._stores self ∨ ¬ Metadata._namespace self `prefix_of` a →
       Metadata.store_at (Metadata.attach self other H) l a = Metadata.store_at H l a).
Proof.
  intros Hs Ho Hne. unfold Metadata.attach.
  destruct (attach_fold_spec self other (Metadata.subnamespaces other H) H Hs Ho Hne)
    as (Hlen & Hin & Hout).
  split; [done|]. split.
  - intros p. destruct (decide (p ∈ Metadata.subnamespaces other H)) as [Hp|Hp].
    + by apply Hin.
    + rewrite Hout; [|done|by right; intros q Hq ->%(inj (app _))].
      destruct (decide (size (Metadata.store_at H (Metadata._stores other)
                                (Metadata._namespace other ++ p)) = 0)) as [Hsz|Hsz].
      * apply map_size_empty_iff in Hsz as ->. by rewrite (left_id_L ∅ (∪)).
      * apply map_size_non_empty_iff in Hsz. by apply subnamespaces_complete in Hsz.
  - intros l a Hl Hcond. apply Hout; [done|].
    destruct Hcond as [?|Hcond]; [by left|right].
    intros p _ ->. apply Hcond. by apply prefix_app_r.
Qed.

(** [self.attach(other)] when the subtree it reads and the subtree it
    writes have no dictionary in common: the same merge. *)
Lemma attach_spec_disjoint self other H :
  Metadata._stores self < length H → Metadata._stores other < length H →
  (Metadata._stores self ≠ Metadata._stores other
   ∨ ∀ p q, Metadata._namespace self ++ p ≠ Metadata._namespace other ++ q) →
  length H ≤ length (Metadata.attach self other H)
  ∧ (∀ p,
       Metadata.store_at (Metadata.attach self other H)
         (Metadata._stores self) (Metadata._namespace self ++ p)
       = Metadata.store_at H (Metadata._stores other) (Metadata._namespace other ++ p)
         ∪ Metadata.store_at H (Metadata._stores self) (Metadata._namespace self ++ p))
  ∧ (∀ l a, l < length H →
       l ≠ Metadata._stores self ∨ ¬ Metadata._namespace self `prefix_of` a →
       Metadata.store_at (Metadata.attach self other H) l a = Metadata.store_at H l a).
Proof.
  intros Hs Ho Hne. unfold Metadata.attach.
  destruct (attach_fold_spec_disjoint self other (Metadata.subnamespaces other H) H
              Hs Ho Hne) as (Hlen & Hin & Hout).
  split; [done|]. split.
  - intros p. destruct (decide (p ∈ Metadata.subnamespaces other H)) as [Hp|Hp].
    + by apply Hin.
    + rewrite Hout; [|done|by right; intros q Hq ->%(inj (app _))].
      destruct (decide (size (Metadata.store_at H (Metadata._stores other)
                                (Metadata._namespace other ++ p)) = 0)) as [Hsz|Hsz].
      * apply map_size_empty_iff in Hsz as ->. by rewrite (left_id_L ∅ (∪)).
      * apply map_size_non_empty_iff in Hsz. by apply subnamespaces_complete in Hsz.
  - intros l a Hl Hcond. apply Hout; [done|].
    destruct Hcond as [?|Hcond]; [by left|right].
    intros p _ ->. apply Hcond. by apply prefix_app_r.
Qed.

End Attach.

Section AttachClaim.
Context {PyObj : Type}.
Implicit Types (H : Heap PyObj) (m other : Metadata.t).

(** C2, as amended.  Let [m] and [other] be views of different backing
    stores, or views whose namespaces [m.ns("w")] and [other.ns("x")] are
    such that neither is at or below the other (two views at the root
    namespace always are, [other] being [m] included).  After
    [m.ns("w").attach(other.ns("x"))], for every relative path [p]: a key
    that [other.ns("x").ns(p)] holds is read with the same value from
    [m.ns("w").ns(p)]; a key that it does not hold reads from
    [m.ns("w").ns(p)] as it did before.  The namespaces that are not below
    [m.ns("w")] keep their items, in [m]'s store and in [other]'s, and so
    does every namespace of a store of [other] that is not [m]'s.  For a
    view [m] at the root namespace, [m.ns("w").ns(p)] is
    [m.abs_ns("w" + p)], and the effect is the one the specification
    words. *)
Theorem attach_overwrites_per_key H m other :
  is_view H m → is_view H other →
  (Metadata._stores m ≠ Metadata._stores other
   ∨ (¬ (Metadata._namespace m ++ ["w"]) `prefix_of` (Metadata._namespace other ++ ["x"])
      ∧ ¬ (Metadata._namespace other ++ ["x"])
            `prefix_of` (Metadata._namespace m ++ ["w"]))) →
  let H' := attach_w_x H m other in
  (∀ p key v, value_at_rel H other ("x" :: p) key = Some v →
              value_at_rel H' m ("w" :: p) key = Some v)
  ∧ (∀ p key, value_at_rel H other ("x" :: p) key = None →
              value_at_rel H' m ("w" :: p) key = value_at_rel H m ("w" :: p) key)
  ∧ (∀ a key, ¬ (Metadata._namespace m ++ ["w"]) `prefix_of` a →
              value_at_abs H' m a key = value_at_abs H m a key)
  ∧ (∀ a key,
       Metadata._stores m ≠ Metadata._stores other
       ∨ ¬ (Metadata._namespace m ++ ["w"]) `prefix_of` a →
       value_at_abs H' other a key = value_at_abs H other a key)
  ∧ (Metadata._namespace m = [] →
     ∀ p key, value_at_abs H' m ("w" :: p) key = value_at_rel H' m ("w" :: p) key)
  ∧ (Metadata._namespace m = [] → attach_as_specified H m other).
Proof.
  intros Hvm Hvo Hne.
  pose proof (is_view_lt _ _ Hvm) as Hs. pose proof (is_view_lt _ _ Hvo) as Ho.
  unfold attach_as_specified, attach_w_x, Metadata.ns.
  change (Namespace.add (Metadata._namespace m) (Namespace.Str "w"))
    with (Metadata._namespace m ++ ["w"]).
  change (Namespace.add (Metadata._namespace other) (Namespace.Str "x"))
    with (Metadata._namespace other ++ ["x"]).
  set (W := Metadata._namespace m ++ ["w"]) in *.
  set (X := Metadata._namespace other ++ ["x"]) in *.
  rewrite (surjective_pairing (Metadata._copy_core m W H)), copy_core_fst.
  set (H1 := (Metadata._copy_core m W H).2).
  rewrite (surjective_pairing (Metadata._copy_core other X H1)), copy_core_fst.
  set (H2 := (Metadata._copy_core other X H1).2).
  assert (length H1 = S (length H)) as Hlen1 by apply length_copy_core.
  assert (length H2 = S (length H1)) as Hlen2 by apply length_copy_core.
  assert (∀ l a, l < length H → Metadata.store_at H2 l a = Metadata.store_at H l a)
    as Hcontent.
  { intros l a Hl. unfold H2. rewrite copy_core_store_at by lia.
    unfold H1. by rewrite copy_core_store_at. }
  set (mw := Metadata.Build (Metadata._stores m) W).
  set (ox := Metadata.Build (Metadata._stores other) X).
  assert (Metadata._stores mw ≠ Metadata._stores ox
          ∨ ∀ p q, Metadata._namespace mw ++ p ≠ Metadata._namespace ox ++ q)
    as Hdisjoint.
  { destruct Hne as [Hne|[HWX HXW]]; [by left|right].
    intros p q Heq. cbn [Metadata._namespace mw ox] in Heq.
    destruct (prefix_weak_total W X (W ++ p)) as [?|?];
      [by apply prefix_app_r|rewrite Heq; by apply prefix_app_r|done|done]. }
  destruct (attach_spec_disjoint mw ox H2) as (Hlen & Hin & Hout);
    [change (Metadata._stores m < length H2); lia
    |change (Metadata._stores other < length H2); lia
    |done|].
  cbv zeta. set (H' := Metadata.attach mw ox H2) in *.
  clearbody H' H2 H1. subst mw ox.
  cbn [Metadata._stores Metadata._namespace] in Hin, Hout.
  assert (∀ p, W ++ p = Metadata._namespace m ++ "w" :: p) as HW
    by (intros p; unfold W; by rewrite <- (assoc_L (++))).
  assert (∀ p, X ++ p = Metadata._namespace other ++ "x" :: p) as HX
    by (intros p; unfold X; by rewrite <- (assoc_L (++))).
  assert (∀ p key v, value_at_rel H other ("x" :: p) key = Some v →
                     value_at_rel H' m ("w" :: p) key = Some v) as Hcopy.
  { intros p key v. rewrite !value_at_rel_store_at by lia.
    rewrite <- HW, <- HX, Hin, !Hcontent by lia.
    intros Hv. by apply lookup_union_Some_l. }
  assert (∀ p key, value_at_rel H other ("x" :: p) key = None →
                   value_at_rel H' m ("w" :: p) key = value_at_rel H m ("w" :: p) key)
    as Hkeep.
  { intros p key. rewrite !value_at_rel_store_at by lia.
    rewrite <- HW, <- HX, Hin, !Hcontent by lia.
    intros Hv. by rewrite lookup_union_r. }
  assert (∀ a key, ¬ W `prefix_of` a →
                   value_at_abs H' m a key = value_at_abs H m a key) as Hframe.
  { intros a key Hpre. rewrite !value_at_abs_store_at by lia.
    rewrite Hout, Hcontent; [done|lia|lia|by right]. }
  assert (∀ H0 p key, Metadata._namespace m = [] → Metadata._stores m < length H0 →
                      value_at_abs H0 m ("w" :: p) key = value_at_rel H0 m ("w" :: p) key)
    as Hroot.
  { intros H0 p key Hr Hl. rewrite value_at_abs_store_at, value_at_rel_store_at by done.
    by rewrite Hr. }
  split; [exact Hcopy|]. split; [exact Hkeep|]. split; [exact Hframe|].
  split; [|split].
  - intros a key Hcond. rewrite !value_at_abs_store_at by lia.
    rewrite Hout, Hcontent; [done|lia|lia|].
    destruct Hcond as [Hst|Hpre]; [left; congruence|by right].
  - intros Hr p key. apply Hroot; [done|lia].
  - intros Hr. split; [|split].
    + intros p key v Hv. rewrite Hroot by (done || lia). by apply Hcopy.
    + intros p key Hv. rewrite !Hroot by (done || lia). by apply Hkeep.
    + intros a key Hpre. apply Hframe. unfold W. by rewrite Hr.
Qed.

End AttachClaim.

Lemma attach_overwrites_per_key_witness :
  is_view Examples.two_stores Examples.root_other
  ∧ (¬ (Metadata._namespace Examples.root_other ++ ["w"])
         `prefix_of` (Metadata._namespace Examples.root_other ++ ["x"])
     ∧ ¬ (Metadata._namespace Examples.root_other ++ ["x"])
           `prefix_of` (Metadata._namespace Examples.root_other ++ ["w"]))
  ∧ value_at_rel Examples.two_stores Examples.root_other ["x"; "y"; "z"] "foo"
    = Some "bar"
  ∧ value_at_abs (attach_w_x Examples.two_stores Examples.root_other Examples.root_other)
      Examples.root_other ["w"; "y"; "z"] "foo"
    = Some "bar"
  ∧ attach_as_specified Examples.two_stores Examples.root_other Examples.root_other.
Proof.
  assert (is_view Examples.two_stores Examples.root_other) as Ho by (by eexists).
  assert (¬ (Metadata._namespace Examples.root_other ++ ["w"])
              `prefix_of` (Metadata._namespace Examples.root_other ++ ["x"])
          ∧ ¬ (Metadata._namespace Examples.root_other ++ ["x"])
                `prefix_of` (Metadata._namespace Examples.root_other ++ ["w"]))
    as Hapart.
  { split; intros [k Hk]; discriminate Hk. }
  split; [exact Ho|]. split; [exact Hapart|].
  pose proof (attach_overwrites_per_key Examples.two_stores Examples.root_other
                Examples.root_other Ho Ho (or_intror Hapart)) as Hspec.
  assert (value_at_rel Examples.two_stores Examples.root_other ["x"; "y"; "z"] "foo"
          = Some "bar") as Hfoo by reflexivity.
  split; [exact Hfoo|]. split.
  - exact (proj1 (proj2 (proj2 (proj2 (proj2 (proj2 Hspec)))) eq_refl)
             ["y"; "z"] "foo" "bar" Hfoo).
  - exact (proj2 (proj2 (proj2 (proj2 (proj2 Hspec)))) eq_refl).
Defined.

(** C2 as the specification states it fails for two views of one backing
    store (here [other] is [m.ns("w")], and the store lists ["w:x:x"] before
    ["w:x"]: the loop first copies ["w:x:x"] onto ["w:x"], and then copies
    that result onto ["w"]), and it fails for a view [m] that is not at the
    root namespace (the items arrive below [m]'s current namespace, and
    [abs_ns("w" + p)] does not read them). *)
Lemma attach_as_specified_fails :
  ¬ attach_as_specified Examples.aliased_heap Examples.aliased_m Examples.aliased_other
  ∧ ¬ attach_as_specified Examples.two_stores Examples.nested_m Examples.root_other.
Proof.
  split.
  - intros (Hcopy & _). specialize (Hcopy [] "k" "0" eq_refl).
    vm_compute in Hcopy. discriminate Hcopy.
  - intros (Hcopy & _). specialize (Hcopy ["y"; "z"] "foo" "bar" eq_refl).
    vm_compute in Hcopy. discriminate Hcopy.
Qed.

(** ** The namespace codec *)

(** C8.  The string [a\:b] decodes to the one component [a:b]; the string
    [a:b] decodes to the two components [a] and [b]; the strings [:a] and
    [a] decode to the same namespace. *)
Theorem decode_examples :
  Namespace.make (Namespace.Str "a\:b") = ["a:b"]
  ∧ Namespace.len (Namespace.make (Namespace.Str "a\:b")) = 1
  ∧ Namespace.make (Namespace.Str "a:b") = ["a"; "b"]
  ∧ Namespace.len (Namespace.make (Namespace.Str "a:b")) = 2
  ∧ Namespace.make (Namespace.Str ":a") = Namespace.make (Namespace.Str "a").
Proof. repeat split; reflexivity. Qed.

(** C1.  [Namespace(repr(n)) == n] does not hold for every [n]: [repr]
    escapes the colons of a component but not a backslash at its end, so
    the decoder takes the separator after such a component for an escaped
    colon (or drops the backslash of the last component); and a leading
    empty component is lost with the leading colons.  The results of
    [Namespace(repr(n))] on four such namespaces: *)
Theorem repr_roundtrip_fails :
  Namespace.make (Namespace.Str (Namespace.__repr__ ["a\"; "b"])) = ["a:b"]
  ∧ Namespace.make (Namespace.Str (Namespace.__repr__ ["a\"])) = ["a"]
  ∧ Namespace.make (Namespace.Str (Namespace.__repr__ [""; "a"])) = ["a"]
  ∧ Namespace.make (Namespace.Str (Namespace.__repr__ [""])) = [].
Proof. repeat split; reflexivity. Qed.

(** *** When the round trip does hold *)

Section RoundTrip.
Import PyStr Namespace.

Lemma string_app_cons (a : ascii) (s1 s2 : string) :
  String a s1 +:+ s2 = String a (s1 +:+ s2).
Proof. done. Qed.

Lemma string_app_nil_l (s : string) : "" +:+ s = s.
Proof. done. Qed.

Lemma string_app_assoc (s1 s2 s3 : string) : (s1 +:+ s2) +:+ s3 = s1 +:+ (s2 +:+ s3).
Proof.
  induction s1 as [|a s1 IH]; [done|]. rewrite !string_app_cons. by f_equal.
Qed.

Lemma string_app_nil_r (s : string) : s +:+ "" = s.
Proof. induction s as [|a s IH]; [done|]. rewrite string_app_cons. by f_equal. Qed.

Lemma last_char_app (s1 : string) (a : ascii) (s2 : string) :
  last_char (s1 +:+ String a s2) = last_char (String a s2).
Proof.
  induction s1 as [|b s1 IH]; [done|].
  rewrite string_app_cons. cbn [last_char]. rewrite IH.
  destruct s1; by rewrite ?string_app_nil_l, ?string_app_cons.
Qed.

Lemma drop_last_snoc (s : string) (a : ascii) : drop_last (s +:+ String a "") = s.
Proof.
  induction s as [|b s IH]; [done|].
  rewrite string_app_cons. cbn [drop_last]. rewrite IH.
  destruct s; by rewrite ?string_app_nil_l, ?string_app_cons.
Qed.

Lemma append_to_last_snoc (output : list string) (x suffix : string) :
  append_to_last (output ++ [x]) suffix = output ++ [x +:+ suffix].
Proof.
  induction output as [|y output IH]; [done|].
  cbn. rewrite IH. by destruct output.
Qed.

Lemma split_nonempty (sep : ascii) (s : string) : split sep s ≠ [].
Proof.
  induction s as [|a s IH]; cbn; [done|].
  destruct (Ascii.eqb a sep); [done|]. by destruct (split sep s).
Qed.

(** Cutting at a separator cuts the string before it and the string after
    it independently. *)
Lemma split_app_sep (sep : ascii) (s1 s2 : string) :
  split sep (s1 +:+ String sep s2) = split sep s1 ++ split sep s2.
Proof.
  induction s1 as [|a s1 IH].
  - rewrite string_app_nil_l. cbn. by rewrite Ascii.eqb_refl.
  - rewrite string_app_cons. cbn [split].
    destruct (Ascii.eqb a sep); [by rewrite IH|].
    rewrite IH. pose proof (split_nonempty sep s1). by destruct (split sep s1).
Qed.

Lemma prepend_char (pre : string) (a : ascii) (fragments : list string) :
  prepend pre (prepend (String a "") fragments)
  = prepend (pre +:+ String a "") fragments.
Proof. destruct fragments; cbn; [done|]. by rewrite string_app_assoc. Qed.

(** The loop of [_parse] over the fragments of one encoded component
    that does not end in a backslash: the component is rebuilt, whether the
    loop starts after a separator or after an escaped colon. *)
Lemma parse_encoded_component (c pre : string) (output : list string) (x : string) :
  ends_with_escape (pre +:+ c) = false →
  foldl parse_step (output, false) (prepend pre (split colon (translate_colon c)))
  = (output ++ [pre +:+ c], false)
  ∧ foldl parse_step (output ++ [x], true)
      (prepend pre (split colon (translate_colon c)))
    = (output ++ [x +:+ String colon (pre +:+ c)], false).
Proof.
  revert pre output x. induction c as [|a c IH]; intros pre output x Hend.
  - rewrite string_app_nil_r in *. cbn. rewrite string_app_nil_r, Hend. cbn.
    by rewrite append_to_last_snoc.
  - cbn [translate_colon]. destruct (Ascii.eqb a colon) eqn:Ha.
    + apply Ascii.eqb_eq in Ha as ->.
      assert (split colon (String backslash (String colon (translate_colon c)))
              = String backslash "" :: split colon (translate_colon c)) as ->
        by done.
      cbn [prepend foldl].
      assert (ends_with_escape (pre +:+ String backslash "") = true) as Hesc.
      { unfold ends_with_escape. by rewrite last_char_app. }
      assert (ends_with_escape ("" +:+ c) = false) as Hend'.
      { cbn. revert Hend. unfold ends_with_escape. rewrite last_char_app.
        destruct c; [done|]. done. }
      unfold parse_step at 2 4. rewrite Hesc. cbn [andb].
      rewrite drop_last_snoc, append_to_last_snoc.
      destruct (IH "" output pre Hend') as [_ IHjoin].
      destruct (IH "" output (x +:+ String colon pre) Hend') as [_ IHjoin'].
      change (prepend "" (split colon (translate_colon c)))
        with (match split colon (translate_colon c) with
              | [] => []
              | h :: t => h :: t
              end) in IHjoin, IHjoin'.
      pose proof (split_nonempty colon (translate_colon c)) as Hne.
      destruct (split colon (translate_colon c)) as [|h t] eqn:Hsplit; [done|].
      rewrite IHjoin, IHjoin'. cbn [String.append].
      split; [done|]. do 3 f_equal.
      rewrite string_app_assoc. done.
    + assert (split colon (String a (translate_colon c))
              = prepend (String a "") (split colon (translate_colon c))) as ->.
      { cbn [split]. rewrite Ha.
        pose proof (split_nonempty colon (translate_colon c)).
        by destruct (split colon (translate_colon c)). }
      rewrite prepend_char.
      assert (pre +:+ String a c = (pre +:+ String a "") +:+ c) as ->
        by by rewrite string_app_assoc.
      apply IH. by rewrite string_app_assoc.
Qed.

Lemma prepend_empty (fragments : list string) : prepend "" fragments = fragments.
Proof. by destruct fragments. Qed.

Lemma join_cons (sep p : string) (q : string) (ps : list string) :
  join sep (p :: q :: ps) = p +:+ sep +:+ join sep (q :: ps).
Proof. done. Qed.

(** The loop of [_parse] over the encoding of a non-empty namespace. *)
Lemma parse_encoded_namespace (n : list string) (output : list string) :
  n ≠ [] →
  (∀ c, c ∈ n → ends_with_escape c = false) →
  foldl parse_step (output, false) (split colon (__repr__ n)) = (output ++ n, false).
Proof.
  unfold __repr__. revert output.
  induction n as [|c n IH]; intros output Hne Hend; [done|].
  assert (ends_with_escape ("" +:+ c) = false) as Hc
    by (apply Hend, list_elem_of_here).
  destruct n as [|c' n].
  - cbn [map join].
    destruct (parse_encoded_component c "" output "" Hc) as [Hparse _].
    by rewrite prepend_empty in Hparse.
  - cbn [map]. rewrite join_cons.
    change (":" +:+ join ":" (translate_colon c' :: map translate_colon n))
      with (String colon (join ":" (map translate_colon (c' :: n)))).
    rewrite split_app_sep, foldl_app.
    destruct (parse_encoded_component c "" output "" Hc) as [Hparse _].
    rewrite prepend_empty in Hparse. rewrite Hparse. cbn [String.append].
    rewrite IH; [by rewrite <- (assoc_L (++))|done|].
    intros c0 Hc0. by apply Hend, list_elem_of_further.
Qed.

Lemma lstrip_encoded (c : string) (rest : list string) :
  c ≠ "" →
  ∃ a s, __repr__ (c :: rest) = String a s ∧ lstrip colon (String a s) = String a s.
Proof.
  intros Hc. destruct c as [|a c]; [done|].
  unfold __repr__. cbn [map translate_colon].
  destruct (Ascii.eqb a colon) eqn:Ha;
    (destruct rest as [|c' rest];
     [cbn [map join]|cbn [map]; rewrite join_cons, string_app_cons]);
    eexists _, _; (split; [reflexivity|]); cbn [lstrip]; by rewrite ?Ha.
Qed.

(** [Namespace(repr(n)) == n] for a namespace none of whose components
    ends in a backslash and whose first component is not the empty
    string. *)
Lemma repr_roundtrip_when_unambiguous (n : list string) :
  (∀ c, c ∈ n → ends_with_escape c = false) →
  head n ≠ Some "" →
  make (Str (__repr__ n)) = n.
Proof.
  intros Hend Hhead. destruct n as [|c rest]; [done|].
  assert (c ≠ "") as Hc by (intros ->; by apply Hhead).
  destruct (lstrip_encoded c rest Hc) as (a & s & Hrepr & Hstrip).
  unfold make. rewrite Hrepr, Hstrip. cbv zeta. rewrite <- Hrepr.
  unfold _parse. cbv zeta. by rewrite parse_encoded_namespace.
Qed.

End RoundTrip.

(** ** [StudyConfig.to_proto] *)

Section ToProtoFacts.
Import StudyConfig.
Context {AlgorithmValue NoiseValue MetricSpec ParameterSpec KeyValue : Type}.
Context {DecayCurve Median AutomatedStoppingConfig MetricInformation : Type}.
Context {Val ExternalType PyObj : Type}.
Context (MetricInformation_to_proto : MetricInformation → MetricSpec).
Context (ParameterConfigConverter_to_proto : ParameterConfig Val ExternalType → ParameterSpec).
Context (AutomatedStoppingConfig_to_proto :
           AutomatedStoppingConfig → AutomatedStoppingProto DecayCurve Median).
Context (assign : list KeyValue → string → string → PyObj → list KeyValue).
Context (key_order : nat → Namespace.t → list string).

Abbreviation Spec :=
  (@StudySpec AlgorithmValue NoiseValue MetricSpec ParameterSpec KeyValue DecayCurve Median).
Abbreviation Config :=
  (@StudyConfig AlgorithmValue NoiseValue MetricSpec ParameterSpec KeyValue
     DecayCurve Median AutomatedStoppingConfig MetricInformation Val ExternalType).

Lemma to_proto_metadata_keeps_stopping (self : Config) (proto : Spec) (H : Heap PyObj) :
  automated_stopping_spec (to_proto_metadata assign key_order self proto H).1
  = automated_stopping_spec proto.
Proof.
  unfold to_proto_metadata.
  generalize (Metadata.namespaces (metadata self) H) as nss.
  intros nss. revert proto H.
  induction nss as [|ns nss IH]; intros proto H; [done|].
  cbn [foldl].
  destruct (Metadata.abs_ns (metadata self) (Namespace.Components ns) H) as [view H1].
  rewrite IH.
  generalize (metadata_items key_order view H1) as kvs.
  intros kvs. revert proto.
  induction kvs as [|[key value] kvs IHk]; intros proto; [done|].
  cbn [foldl]. by rewrite IHk.
Qed.

(** C9.  In [to_proto] both [isinstance] tests of the automated-stopping
    dispatch name [DecayCurveAutomatedStoppingSpec], so the branch that
    copies into [median_automated_stopping_spec] is never taken.  For a
    [StudyConfig] whose [automated_stopping_config] is not [None],
    [to_proto] returns a proto (the dispatch raises nothing) whose
    automated-stopping field is [decay_curve_stopping_spec] with the
    converted message when that message is a decay-curve one, and is the
    field of the stored [_study_config], untouched, when the converted
    message is a median one. *)
Theorem to_proto_never_assigns_median
    (self : Config) (H : Heap PyObj) (config : AutomatedStoppingConfig) :
  automated_stopping_config self = Some config →
  (∀ proto : Spec,
     to_proto_automated_stopping AutomatedStoppingConfig_to_proto self proto
     = match AutomatedStoppingConfig_to_proto config with
       | DecayCurveAutomatedStoppingSpec d =>
           CopyFrom_decay_curve proto (DecayCurveAutomatedStoppingSpec d)
       | MedianAutomatedStoppingSpec _ => inr proto
       end)
  ∧ ∃ proto H',
      to_proto MetricInformation_to_proto ParameterConfigConverter_to_proto
        AutomatedStoppingConfig_to_proto assign key_order self H
      = inr (proto, H')
      ∧ automated_stopping_spec proto
        = match AutomatedStoppingConfig_to_proto config with
          | DecayCurveAutomatedStoppingSpec d => Some (decay_curve_stopping_spec d)
          | MedianAutomatedStoppingSpec _ => automated_stopping_spec (_study_config self)
          end.
Proof.
  intros Hconfig.
  assert (∀ proto : Spec,
     to_proto_automated_stopping AutomatedStoppingConfig_to_proto self proto
     = match AutomatedStoppingConfig_to_proto config with
       | DecayCurveAutomatedStoppingSpec d =>
           CopyFrom_decay_curve proto (DecayCurveAutomatedStoppingSpec d)
       | MedianAutomatedStoppingSpec _ => inr proto
       end) as Hdispatch.
  { intros proto. unfold to_proto_automated_stopping. rewrite Hconfig.
    by destruct (AutomatedStoppingConfig_to_proto config). }
  split; [exact Hdispatch|].
  unfold to_proto. rewrite Hdispatch.
  destruct (AutomatedStoppingConfig_to_proto config) as [d|med]; cbn [CopyFrom_decay_curve].
  - eexists _, _. split; [apply f_equal, surjective_pairing|].
    by rewrite to_proto_metadata_keeps_stopping.
  - eexists _, _. split; [apply f_equal, surjective_pairing|].
    by rewrite to_proto_metadata_keeps_stopping.
Qed.

End ToProtoFacts.

(** ** The traversal of the conditional tree *)

Section ResolverFacts.
Import StudyConfig.
Context {Val ExternalType ParameterValue Trial : Type}.
Context {collaborators : Collaborators Val ExternalType ParameterValue Trial}.
Context (search_space : list (ParameterConfig Val ExternalType)) (pytrial : Trial).

Abbreviation resolver_state := (@state Val ExternalType ParameterValue).
Abbreviation holds := (invariant search_space pytrial).

(** The loop runs its body while the condition holds, and stops in a
    state in which it does not. *)
Lemma while_loop_unroll (st : resolver_state) :
  while_loop st = if loop_condition st then while_loop (loop_body st) else st.
Proof.
  rewrite while_loop_unfold_eq at 1. unfold while_loop_unfold.
  destruct (inspect (loop_condition st)) as [[] Hc]; cbn; by rewrite Hc.
Qed.

Lemma while_loop_invariant (P : resolver_state → Prop) :
  (∀ st, P st → loop_condition st = true → P (loop_body st)) →
  ∀ st, P st → P (while_loop st) ∧ loop_condition (while_loop st) = false.
Proof.
  intros Hstep st.
  apply (while_loop_elim (λ st r, P st → P r ∧ loop_condition r = false)).
  - clear st. intros st Hcond IH _ HP. apply IH, Hstep; done.
  - clear st. intros st Hcond _ HP. done.
Qed.

Lemma invariant_initial : holds (initial_state search_space pytrial).
Proof.
  split; cbn.
  - done.
  - intros n Hn. by right.
  - intros n Hn. by apply elem_of_nil in Hn.
  - apply NoDup_nil_2.
  - intros n v Hn. by rewrite lookup_empty in Hn.
  - intros parent pc Hin. apply list_elem_of_fmap in Hin as (p & [= -> ->] & Hp).
    by constructor.
  - intros n Hn. by apply elem_of_nil in Hn.
Qed.

Lemma invariant_queue (st : resolver_state) parent pc rest :
  holds st → parameter_configs st = (parent, pc) :: rest →
  ∀ parent' pc',
    (parent', pc') ∈ rest ++ map (λ child, (Some (name pc), child))
                                 (child_parameter_configs pc) →
    occurs search_space parent' pc'.
Proof.
  intros Hinv Hq parent' pc' Hin. apply elem_of_app in Hin as [Hin|Hin].
  - apply (inv_queue _ _ _ Hinv). rewrite Hq. by apply list_elem_of_further.
  - apply list_elem_of_fmap in Hin as (child & [= -> ->] & Hchild).
    eapply occurs_child; [|done].
    apply (inv_queue _ _ _ Hinv). rewrite Hq. apply list_elem_of_here.
Qed.

Lemma loop_body_invariant (st : resolver_state) :
  holds st → loop_condition st = true → holds (loop_body st).
Proof.
  intros Hinv _. unfold loop_body.
  destruct (parameter_configs st) as [|[parent pc] rest] eqn:Hq; [done|].
  pose proof (invariant_queue st parent pc rest Hinv Hq) as Hqueue.
  assert (holds (State (parameter_values st) (external_values st)
                       (rest ++ map (λ child, (Some (name pc), child))
                                    (child_parameter_configs pc))
                       (remaining_parameters st))) as Hskip.
  { destruct Hinv. by split. }
  destruct (remaining_parameters st !! name pc) as [pv|] eqn:Hrem; [|done].
  assert (occurs search_space parent pc) as Hocc.
  { apply (inv_queue _ _ _ Hinv). rewrite Hq. apply list_elem_of_here. }
  assert (name pc ∉ PyDict.keys (external_values st)) as Hfresh.
  { intros Hin. apply (inv_resolved _ _ _ Hinv) in Hin as [Hnone _]. congruence. }
  assert (PyDict.get (external_values st) (name pc) = None) as Hget
    by by apply pydict_get_None.
  assert (∀ ev, PyDict.keys (PyDict.set (external_values st) (name pc) ev)
                = PyDict.keys (external_values st) ++ [name pc]) as Hkeys.
  { intros ev. by rewrite pydict_keys_set, Hget. }
  match goal with |- invariant _ _ (if ?b then _ else _) => destruct b eqn:Hinactive end;
    [done|].
  assert (active pytrial parent pc
          ∧ ∀ p, parent = Some p → p ∈ PyDict.keys (external_values st))
    as [Hactive Hparent].
  { destruct parent as [p|]; [|done]. cbn.
    destruct (parameter_values st !! p) as [parent_value|] eqn:Hpv; [|done].
    destruct (inv_raw _ _ _ Hinv _ _ Hpv) as (Hin & ppv & Hppv & ->).
    split; [by exists ppv|]. by intros ? [= <-]. }
  split; cbn [parameter_values external_values parameter_configs remaining_parameters].
  - intros n pv'. rewrite lookup_delete_Some. intros [_ ?]. by apply (inv_remaining _ _ _ Hinv).
  - intros n Hn. rewrite Hkeys, elem_of_app, list_elem_of_singleton.
    destruct (decide (n = name pc)) as [->|Hne]; [by left; right|].
    destruct (inv_cover _ _ _ Hinv n Hn) as [?|?]; [by left; left|right].
    by rewrite lookup_delete_ne.
  - intros n. rewrite Hkeys, elem_of_app, list_elem_of_singleton.
    intros [Hin| ->].
    + destruct (inv_resolved _ _ _ Hinv n Hin) as [Hnone Hsome]. split.
      * rewrite lookup_delete_None. by right.
      * rewrite lookup_insert_is_Some. right. split; [|done]. by intros <-.
    + split; [apply lookup_delete_eq|]. rewrite lookup_insert_eq. by eexists.
  - rewrite Hkeys. apply NoDup_app. split; [apply (inv_nodup _ _ _ Hinv)|].
    split; [|apply NoDup_singleton]. by intros x Hx ->%list_elem_of_singleton.
  - intros n v. rewrite Hkeys, elem_of_app, list_elem_of_singleton.
    rewrite lookup_insert_Some. intros [[<- <-]|[Hne Hn]].
    + split; [by right|]. exists pv. split; [|done]. by apply (inv_remaining _ _ _ Hinv).
    + destruct (inv_raw _ _ _ Hinv _ _ Hn) as (Hin & Hpv). split; [by left|done].
  - done.
  - intros n. rewrite Hkeys, elem_of_app, list_elem_of_singleton.
    intros [Hin| ->].
    + destruct (inv_why _ _ _ Hinv n Hin) as (parent' & pc' & pv' & Ho & Hname & Hpv & Hact & Hpar & Hev).
      exists parent', pc', pv'. repeat split; try done.
      * intros p Hp. rewrite elem_of_app. left. by apply Hpar.
      * rewrite pydict_get_set. rewrite decide_False; [done|]. by intros <-.
    + exists parent, pc, pv. repeat split; try done.
      * by apply (inv_remaining _ _ _ Hinv).
      * intros p Hp. rewrite elem_of_app. left. by apply Hparent.
      * rewrite pydict_get_set. by rewrite decide_True.
Qed.

(** The state in which the loop stops. *)
Lemma final_state_invariant :
  holds (while_loop (initial_state search_space pytrial))
  ∧ loop_condition (while_loop (initial_state search_space pytrial)) = false.
Proof.
  apply while_loop_invariant; [apply loop_body_invariant|apply invariant_initial].
Qed.

End ResolverFacts.

(** ** Sorting by index *)

Section SortFacts.
Import StudyConfig.
Context {Val : Type}.
Implicit Types (x : Z * Val) (l : list (Z * Val)).

Lemma insert_by_index_perm x l : insert_by_index x l ≡ₚ x :: l.
Proof.
  induction l as [|y l IH]; [done|]. cbn.
  case_bool_decide; [done|]. rewrite IH. apply Permutation_swap.
Qed.

Lemma insert_by_index_sorted x l :
  StronglySorted index_le l → StronglySorted index_le (insert_by_index x l).
Proof.
  induction 1 as [|y l Hl IH Hy]; cbn.
  - repeat constructor.
  - case_bool_decide as Hlt.
    + constructor; [by constructor|]. constructor; [unfold index_le; lia|].
      eapply Forall_impl; [exact Hy|]. unfold index_le. intros z ?. cbn in *. lia.
    + constructor; [done|]. rewrite insert_by_index_perm.
      constructor; [unfold index_le; lia|done].
Qed.

Lemma sort_by_index_spec l :
  sort_by_index l ≡ₚ l ∧ StronglySorted index_le (sort_by_index l).
Proof.
  unfold sort_by_index.
  assert (∀ acc, StronglySorted index_le acc →
                 foldl (λ sorted x, insert_by_index x sorted) acc l ≡ₚ acc ++ l
                 ∧ StronglySorted index_le
                     (foldl (λ sorted x, insert_by_index x sorted) acc l)) as Hgen.
  { induction l as [|x l IH]; intros acc Hacc; cbn.
    - by rewrite (right_id_L [] (++)).
    - destruct (IH (insert_by_index x acc)) as [Hperm Hsorted];
        [by apply insert_by_index_sorted|].
      split; [|done]. rewrite Hperm, insert_by_index_perm.
      apply Permutation_middle. }
  apply (Hgen []). constructor.
Qed.

Lemma sort_by_index_sorted_fst l : Sorted Z.le (sort_by_index l).*1.
Proof.
  destruct (sort_by_index_spec l) as [_ Hs].
  apply StronglySorted_Sorted.
  induction Hs as [|x k Hk IH Hx]; cbn; constructor; [done|].
  apply Forall_fmap. exact Hx.
Qed.

(** With pairwise different indices the sorted list does not depend on
    the order of the input. *)
Lemma sort_by_index_unique l1 l2 :
  (∀ x y, x ∈ l1 → y ∈ l1 → x.1 = y.1 → x = y) →
  l1 ≡ₚ l2 → sort_by_index l1 = sort_by_index l2.
Proof.
  intros Hinj Hperm.
  destruct (sort_by_index_spec l1) as [Hp1 Hs1].
  destruct (sort_by_index_spec l2) as [Hp2 Hs2].
  apply (StronglySorted_unique_strong index_le); [|done|done|].
  - intros x y Hx Hy Hxy Hyx. apply Hinj.
    + by rewrite <- Hp1.
    + by rewrite Hperm, <- Hp2.
    + unfold index_le in *. lia.
  - by rewrite Hp1, Hp2.
Qed.

End SortFacts.

(** ** The recombination of multi-dimensional parameters *)

Section CombineFacts.
Import StudyConfig.
Context {Val ExternalType ParameterValue Trial : Type}.
Context {collaborators : Collaborators Val ExternalType ParameterValue Trial}.
Implicit Types (resolved : list (string * Val)).

Lemma pydict_get_iff {V : Type} (d : list (string * V)) (k : string) (v : V) :
  NoDup (PyDict.keys d) → PyDict.get d k = Some v ↔ (k, v) ∈ d.
Proof.
  intros Hnd. split; [apply pydict_get_Some_elem|by apply pydict_elem_get].
Qed.

Lemma pydict_get_perm {V : Type} (d d' : list (string * V)) (k : string) :
  NoDup (PyDict.keys d) → d' ≡ₚ d → PyDict.get d' k = PyDict.get d k.
Proof.
  intros Hnd Hperm.
  assert (NoDup (PyDict.keys d')) as Hnd' by (unfold PyDict.keys; by rewrite Hperm).
  apply option_eq. intros v. rewrite !pydict_get_iff by done. by rewrite Hperm.
Qed.

(** A loop [for k in items: acc[k] = g(items[k])]. *)
Lemma pydict_get_foldl_set {A B : Type} (g : A → B)
    (items : list (string * A)) (acc : list (string * B)) (k : string) :
  NoDup (PyDict.keys items) →
  PyDict.get (foldl (λ acc it, PyDict.set acc it.1 (g it.2)) acc items) k
  = match PyDict.get items k with
    | Some x => Some (g x)
    | None => PyDict.get acc k
    end.
Proof.
  revert acc. induction items as [|[k0 x0] items IH]; intros acc Hnd; [done|].
  unfold PyDict.keys in Hnd. cbn in Hnd. apply NoDup_cons in Hnd as [Hfresh Hnd].
  cbn [foldl]. rewrite IH by done. cbn. rewrite pydict_get_set.
  destruct (decide (k0 = k)) as [->|Hne]; [|done].
  assert (PyDict.get items k = None) as -> by by apply pydict_get_None.
  done.
Qed.

Lemma indexed_items_snoc (base : string) resolved (n : string) (v : Val) :
  indexed_items base (resolved ++ [(n, v)])
  = indexed_items base resolved
    ++ match parse_multi_dimensional_parameter_name n with
       | Some (b, index) => if decide (b = base) then [(index, v)] else []
       | None => []
       end.
Proof.
  unfold indexed_items. rewrite omap_app. f_equal. cbn.
  destruct (parse_multi_dimensional_parameter_name n) as [[b i]|]; [|done].
  by destruct (decide (b = base)).
Qed.

(** The state after the first loop of the recombination. *)
Lemma combine_first_loop resolved :
  NoDup (PyDict.keys resolved) →
  let acc := foldl combine_item ([], []) resolved in
  (∀ n, PyDict.get acc.1 n
        = match parse_multi_dimensional_parameter_name n with
          | None => Scalar <$> PyDict.get resolved n
          | Some _ => None
          end)
  ∧ (∀ base, PyDict.get acc.2 base
             = match indexed_items base resolved with
               | [] => None
               | l => Some l
               end)
  ∧ NoDup (PyDict.keys acc.2).
Proof.
  cbv zeta. induction resolved as [|[n v] resolved IH] using rev_ind; intros Hnd.
  - cbn. split; [|split; [done|apply NoDup_nil_2]].
    intros n. by destruct (parse_multi_dimensional_parameter_name n).
  - unfold PyDict.keys in Hnd. rewrite fmap_app in Hnd.
    apply NoDup_app in Hnd as (Hnd & Hfresh & _).
    assert (PyDict.get resolved n = None) as Hnone.
    { apply pydict_get_None. intros Hin. apply (Hfresh _ Hin). cbn. apply list_elem_of_here. }
    destruct (IH Hnd) as (IH1 & IH2 & IH3). clear IH.
    rewrite foldl_snoc.
    destruct (foldl combine_item ([], []) resolved) as [final multi].
    cbn [fst snd] in *. unfold combine_item.
    destruct (parse_multi_dimensional_parameter_name n) as [[b i]|] eqn:Hparse;
      cbn [fst snd].
    + split; [|split].
      * intros n'. rewrite IH1, pydict_get_app.
        destruct (parse_multi_dimensional_parameter_name n') eqn:Hparse'; [done|].
        destruct (PyDict.get resolved n'); [done|]. cbn.
        rewrite decide_False; [done|]. intros ->. congruence.
      * intros base. rewrite pydict_get_set, indexed_items_snoc, Hparse.
        destruct (decide (b = base)) as [->|Hne].
        -- rewrite IH2. by destruct (indexed_items base resolved).
        -- by rewrite IH2, (right_id_L [] (++)).
      * by apply pydict_NoDup_set.
    + split; [|split; [|done]].
      * intros n'. rewrite pydict_get_set, pydict_get_app. cbn.
        destruct (decide (n = n')) as [<-|Hne].
        -- by rewrite Hparse, Hnone.
        -- rewrite IH1. destruct (parse_multi_dimensional_parameter_name n'); [done|].
           by destruct (PyDict.get resolved n').
      * intros base. rewrite indexed_items_snoc, Hparse, (right_id_L [] (++)). apply IH2.
Qed.

(** The returned dictionary, key by key: a base name with indexed items is
    bound to their values sorted by index; any other name is bound as the
    resolved mapping binds it, if it has no index. *)
Lemma combine_multi_dimensional_get resolved (n : string) :
  NoDup (PyDict.keys resolved) →
  PyDict.get (combine_multi_dimensional resolved) n
  = match indexed_items n resolved with
    | [] => match parse_multi_dimensional_parameter_name n with
            | None => Scalar <$> PyDict.get resolved n
            | Some _ => None
            end
    | l => Some (Sequence (sort_by_index l).*2)
    end.
Proof.
  intros Hnd. unfold combine_multi_dimensional.
  destruct (combine_first_loop resolved Hnd) as (H1 & H2 & H3).
  destruct (foldl combine_item ([], []) resolved) as [final multi].
  cbn [fst snd] in *. unfold combine_base.
  rewrite (pydict_get_foldl_set (λ l, Sequence (sort_by_index l).*2)) by done.
  rewrite H2, H1. by destruct (indexed_items n resolved).
Qed.

End CombineFacts.

(** ** Parameter resolution *)

Section ResolverClaims.
Import StudyConfig.
Context {Val ExternalType ParameterValue Trial : Type}.
Context {collaborators : Collaborators Val ExternalType ParameterValue Trial}.
Context (search_space : list (ParameterConfig Val ExternalType)) (pytrial : Trial).

Abbreviation resolved := (_trial_to_external_values search_space pytrial).

Lemma resolved_invariant :
  NoDup (PyDict.keys resolved)
  ∧ (∀ n, n ∈ PyDict.keys resolved → is_Some (parameters pytrial !! n))
  ∧ (∀ n, n ∈ PyDict.keys resolved →
       ∃ parent pc pv,
         occurs search_space parent pc ∧ name pc = n
         ∧ parameters pytrial !! n = Some pv
         ∧ active pytrial parent pc
         ∧ (∀ p, parent = Some p → p ∈ PyDict.keys resolved)
         ∧ PyDict.get resolved n = Some (external_value_of pc pv)).
Proof.
  destruct (final_state_invariant search_space pytrial) as [Hinv _].
  split; [apply (inv_nodup _ _ _ Hinv)|]. split.
  - intros n Hn.
    destruct (inv_why _ _ _ Hinv n Hn) as (? & ? & pv & _ & _ & Hpv & _). by exists pv.
  - apply (inv_why _ _ _ Hinv).
Qed.

(** The resolved names are names of the trial, so there are at most as
    many; there are as many exactly when every name of the trial is
    resolved. *)
Lemma resolved_count :
  PyDict.len resolved = size (parameters pytrial)
  ↔ ∀ n, is_Some (parameters pytrial !! n) → n ∈ PyDict.keys resolved.
Proof.
  destruct resolved_invariant as (Hnd & Hsub & _).
  set (K := list_to_set (PyDict.keys resolved) : gset string).
  assert (∀ n, n ∈ K ↔ n ∈ PyDict.keys resolved) as HinK
    by (intros n; apply elem_of_list_to_set).
  assert (size K = PyDict.len resolved) as HK.
  { unfold K. rewrite size_list_to_set by done.
    unfold PyDict.keys, PyDict.len. by rewrite length_fmap. }
  assert (K ⊆ dom (parameters pytrial)) as Hsubset.
  { intros n Hn. apply HinK in Hn. apply elem_of_dom. by apply Hsub. }
  rewrite <- HK, <- (size_dom (D := gset string)). split.
  - intros Hsize n Hn.
    assert (K = dom (parameters pytrial)) as HKeq
      by (apply set_subseteq_size_eq; [done|lia]).
    apply HinK. rewrite HKeq. by apply elem_of_dom.
  - intros Hall. f_equal. apply set_eq. intros n. split; [apply Hsubset|].
    intros Hn. apply HinK. by apply Hall, elem_of_dom.
Qed.

Lemma resolved_count_missing :
  PyDict.len resolved ≠ size (parameters pytrial) →
  ∃ n, is_Some (parameters pytrial !! n) ∧ n ∉ PyDict.keys resolved.
Proof.
  intros Hne.
  set (K := list_to_set (PyDict.keys resolved) : gset string).
  assert (∀ n, n ∈ K ↔ n ∈ PyDict.keys resolved) as HinK
    by (intros n; apply elem_of_list_to_set).
  destruct (set_choose_or_empty (dom (parameters pytrial) ∖ K)) as [[n Hn]|Hempty].
  - exists n. apply elem_of_difference in Hn as [Hn Hnot]. split.
    + by apply elem_of_dom.
    + intros Hin. apply Hnot. by apply HinK.
  - exfalso. apply Hne, resolved_count. intros n Hn.
    apply elem_of_dom in Hn.
    destruct (decide (n ∈ PyDict.keys resolved)) as [|Hnot]; [done|].
    exfalso. apply (not_elem_of_empty (C := gset string) n). rewrite <- Hempty.
    apply elem_of_difference. split; [done|]. by rewrite HinK.
Qed.

Lemma pytrial_parameters_cases :
  (PyDict.len resolved = size (parameters pytrial)
   ∧ _pytrial_parameters search_space pytrial = inr (combine_multi_dimensional resolved))
  ∨ (PyDict.len resolved ≠ size (parameters pytrial)
     ∧ _pytrial_parameters search_space pytrial = inl (ValueError pytrial)).
Proof.
  unfold _pytrial_parameters. case_bool_decide; [by right|left].
  split; [|done]. by destruct (decide (PyDict.len resolved = size (parameters pytrial))).
Qed.

Lemma resolved_accounted (n : string) :
  n ∈ PyDict.keys resolved →
  accounted resolved (combine_multi_dimensional resolved) n.
Proof.
  destruct resolved_invariant as (Hnd & _ & _). intros Hn.
  assert (∃ v, PyDict.get resolved n = Some v) as [v Hv].
  { destruct (PyDict.get resolved n) eqn:Hget; [by eexists|].
    by apply pydict_get_None in Hget. }
  unfold accounted.
  destruct (parse_multi_dimensional_parameter_name n) as [[base i]|] eqn:Hparse.
  - assert ((i, v) ∈ indexed_items base resolved) as Hin.
    { apply list_elem_of_omap. exists (n, v). split; [by apply pydict_get_Some_elem|].
      cbn. rewrite Hparse. by rewrite decide_True. }
    rewrite combine_multi_dimensional_get by done.
    destruct (indexed_items base resolved) as [|x l] eqn:Hitems;
      [by apply elem_of_nil in Hin|].
    eexists _, v. split; [done|]. split; [done|].
    apply list_elem_of_fmap. exists (i, v). split; [done|].
    by rewrite (proj1 (sort_by_index_spec (x :: l))).
  - rewrite combine_multi_dimensional_get by done.
    destruct (indexed_items n resolved); [|done]. by rewrite Hparse, Hv.
Qed.

(** C3.  Parameter resolution returns or raises, and which of the two is
    decided by the counts: it returns exactly when as many external values
    were resolved as the raw trial mapping has entries.  When it returns,
    every entry of the raw trial mapping is resolved and accounted for in
    the result.  When it raises, it raises the [ValueError] that names the
    trial, nothing else is returned, and some entry of the raw trial
    mapping is unresolved.  It raises in particular when the trial has a
    name that no config of the search space has. *)
Theorem resolution_accounts_for_every_entry_or_fails :
  match _pytrial_parameters search_space pytrial with
  | inr final =>
      PyDict.len resolved = size (parameters pytrial)
      ∧ final = combine_multi_dimensional resolved
      ∧ (∀ n, is_Some (parameters pytrial !! n) →
              n ∈ PyDict.keys resolved ∧ accounted resolved final n)
  | inl e =>
      e = ValueError pytrial
      ∧ PyDict.len resolved ≠ size (parameters pytrial)
      ∧ ∃ n, is_Some (parameters pytrial !! n) ∧ n ∉ PyDict.keys resolved
  end
  ∧ (∀ n, is_Some (parameters pytrial !! n) →
          (∀ parent pc, occurs search_space parent pc → name pc ≠ n) →
          _pytrial_parameters search_space pytrial = inl (ValueError pytrial)).
Proof.
  split.
  - destruct pytrial_parameters_cases as [[Hlen ->]|[Hlen ->]].
    + split; [done|]. split; [done|]. intros n Hn.
      assert (n ∈ PyDict.keys resolved) as Hin by by apply resolved_count.
      split; [done|]. by apply resolved_accounted.
    + split; [done|]. split; [done|]. by apply resolved_count_missing.
  - intros n Hn Habsent.
    destruct pytrial_parameters_cases as [[Hlen _]|[_ ->]]; [|done].
    exfalso.
    assert (n ∈ PyDict.keys resolved) as Hin by by apply resolved_count.
    destruct resolved_invariant as (_ & _ & Hwhy).
    destruct (Hwhy n Hin) as (parent & pc & _ & Hocc & Hname & _).
    by apply (Habsent parent pc).
Qed.

End ResolverClaims.

Lemma to_proto_never_assigns_median_witness :
  StudyConfig.automated_stopping_config Examples.median_study = Some true
  ∧ ∃ proto H',
      StudyConfig.to_proto (λ name, name) (λ pc, StudyConfig.name pc)
        Examples.stopping_to_proto (λ kvs key ns (value : string), key :: kvs)
        Examples.two_stores_key_order
        Examples.median_study Examples.two_stores
      = inr (proto, H')
      ∧ StudyConfig.automated_stopping_spec proto = None.
Proof.
  split; [reflexivity|].
  exact (proj2 (to_proto_never_assigns_median (λ name, name) (λ pc, StudyConfig.name pc)
                  Examples.stopping_to_proto (λ kvs key ns (value : string), key :: kvs)
                  Examples.two_stores_key_order
                  Examples.median_study Examples.two_stores true eq_refl)).
Defined.

Lemma flat_space_occurs parent pc :
  occurs Examples.flat_space parent pc →
  parent = None ∧ pc ∈ Examples.flat_space.
Proof.
  induction 1 as [pc Hin|parent pc child Hocc [_ IH] Hin]; [done|].
  exfalso. unfold Examples.flat_space in IH.
  apply elem_of_cons in IH as [->|IH]; [by apply elem_of_nil in Hin|].
  apply list_elem_of_singleton in IH as ->. by apply elem_of_nil in Hin.
Qed.

Lemma resolution_accounts_for_every_entry_or_fails_witness :
  is_Some (StudyConfig.parameters Examples.trial_a_high_c !! "c")
  ∧ (∀ parent pc, occurs Examples.flat_space parent pc → StudyConfig.name pc ≠ "c")
  ∧ StudyConfig._pytrial_parameters Examples.flat_space Examples.trial_a_high_c
    = inl (StudyConfig.ValueError Examples.trial_a_high_c).
Proof.
  assert (is_Some (StudyConfig.parameters Examples.trial_a_high_c !! "c")) as Hc
    by (by eexists).
  assert (∀ parent pc, occurs Examples.flat_space parent pc → StudyConfig.name pc ≠ "c")
    as Habsent.
  { intros parent pc [_ Hin]%flat_space_occurs. unfold Examples.flat_space in Hin.
    apply elem_of_cons in Hin as [->|Hin]; [done|].
    by apply list_elem_of_singleton in Hin as ->. }
  split; [exact Hc|]. split; [exact Habsent|].
  exact (proj2 (resolution_accounts_for_every_entry_or_fails
                  Examples.flat_space Examples.trial_a_high_c) "c" Hc Habsent).
Defined.

(** ** Conditional parameters *)

Section ConditionalClaims.
Import StudyConfig.
Context {Val ExternalType ParameterValue Trial : Type}.
Context {collaborators : Collaborators Val ExternalType ParameterValue Trial}.
Context (search_space : list (ParameterConfig Val ExternalType)) (pytrial : Trial).

(** C5, as amended.  One iteration of the loop on a child config records
    it exactly when its name is among the remaining trial parameters, its
    parent's name has a recorded raw value, and that value is one of its
    matching parent values; otherwise the iteration changes the queue only.
    Accordingly every resolved name is the name of a config of the tree
    that is in the raw trial and is a root or has a resolved parent whose
    trial value matches.  In particular, a name of the raw trial all of
    whose configs in the tree are children with an absent or non-matching
    parent value stays unresolved, and the resolution fails with the
    [ValueError] naming the trial. *)
Theorem conditional_child_resolution :
  (∀ (st : @state Val ExternalType ParameterValue) parent pc rest,
     parameter_configs st = (Some parent, pc) :: rest →
     if child_is_recorded st parent pc then
       ∃ pv, remaining_parameters st !! name pc = Some pv
             ∧ parameter_values (loop_body st)
               = <[name pc := value pv]> (parameter_values st)
             ∧ external_values (loop_body st)
               = PyDict.set (external_values st) (name pc) (external_value_of pc pv)
             ∧ remaining_parameters (loop_body st)
               = delete (name pc) (remaining_parameters st)
     else
       parameter_values (loop_body st) = parameter_values st
       ∧ external_values (loop_body st) = external_values st
       ∧ remaining_parameters (loop_body st) = remaining_parameters st)
  ∧ (∀ n, n ∈ PyDict.keys (_trial_to_external_values search_space pytrial) →
       ∃ parent pc pv,
         occurs search_space parent pc ∧ name pc = n
         ∧ parameters pytrial !! n = Some pv
         ∧ active pytrial parent pc
         ∧ (∀ p, parent = Some p →
                 p ∈ PyDict.keys (_trial_to_external_values search_space pytrial)))
  ∧ (∀ n, is_Some (parameters pytrial !! n) →
          (∀ parent pc, occurs search_space parent pc → name pc = n →
                        ¬ active pytrial parent pc) →
          (n ∉ PyDict.keys (_trial_to_external_values search_space pytrial))
          ∧ _pytrial_parameters search_space pytrial = inl (ValueError pytrial)).
Proof.
  split; [|split].
  - intros st parent pc rest Hq. unfold child_is_recorded, loop_body. rewrite Hq.
    destruct (remaining_parameters st !! name pc) as [pv|] eqn:Hrem.
    + rewrite bool_decide_eq_true_2 by by eexists. cbn [andb].
      destruct (parameter_values st !! parent) as [parent_value|]; [|done].
      destruct (not_in parent_value (matching_parent_values pc)); cbn; [done|].
      by exists pv.
    + rewrite bool_decide_eq_false_2 by by intros [? ?]. done.
  - intros n Hn.
    destruct (resolved_invariant search_space pytrial) as (_ & _ & Hwhy).
    destruct (Hwhy n Hn) as (parent & pc & pv & ? & ? & ? & ? & ? & _).
    by exists parent, pc, pv.
  - intros n Hn Hinactive.
    assert (n ∉ PyDict.keys (_trial_to_external_values search_space pytrial)) as Hnot.
    { intros Hin.
      destruct (resolved_invariant search_space pytrial) as (_ & _ & Hwhy).
      destruct (Hwhy n Hin) as (parent & pc & pv & Hocc & Hname & _ & Hact & _).
      by apply (Hinactive parent pc). }
    split; [done|].
    destruct (pytrial_parameters_cases search_space pytrial) as [[Hlen _]|[_ ->]];
      [|done].
    exfalso. apply Hnot. by apply (resolved_count search_space pytrial).
Qed.

End ConditionalClaims.

Lemma one_child_space_occurs parent pc :
  occurs Examples.one_child_space parent pc →
  (parent = None ∧ pc ∈ Examples.one_child_space)
  ∨ (parent = Some "a" ∧ pc = Examples.leaf "c" ["low"]).
Proof.
  induction 1 as [pc Hin|parent pc child Hocc IH Hin]; [by left|].
  destruct IH as [[_ IH]|[_ ->]].
  - unfold Examples.one_child_space in IH. apply list_elem_of_singleton in IH as ->.
    cbn in Hin. apply list_elem_of_singleton in Hin as ->. by right.
  - by apply elem_of_nil in Hin.
Qed.

Lemma conditional_child_resolution_witness :
  is_Some (StudyConfig.parameters Examples.trial_a_high_c !! "c")
  ∧ (∀ parent pc, occurs Examples.one_child_space parent pc →
                  StudyConfig.name pc = "c" →
                  ¬ active Examples.trial_a_high_c parent pc)
  ∧ StudyConfig._pytrial_parameters Examples.one_child_space Examples.trial_a_high_c
    = inl (StudyConfig.ValueError Examples.trial_a_high_c).
Proof.
  assert (is_Some (StudyConfig.parameters Examples.trial_a_high_c !! "c")) as Hc
    by (by eexists).
  assert (∀ parent pc, occurs Examples.one_child_space parent pc →
                       StudyConfig.name pc = "c" →
                       ¬ active Examples.trial_a_high_c parent pc) as Hinactive.
  { intros parent pc [[_ Hin]|[-> ->]]%one_child_space_occurs Hname.
    - unfold Examples.one_child_space in Hin.
      by apply list_elem_of_singleton in Hin as ->.
    - intros (pv & Hpv & Hmatch). vm_compute in Hpv. injection Hpv as <-.
      vm_compute in Hmatch. discriminate Hmatch. }
  split; [exact Hc|]. split; [exact Hinactive|].
  exact (proj2 (proj2 (proj2 (conditional_child_resolution
                                Examples.one_child_space Examples.trial_a_high_c))
                 "c" Hc Hinactive)).
Defined.

(** C5 as the specification states it fails when the tree has a second
    config of the child's name that is active: with the children
    [c] for [a == "low"] and [c] for [a == "high"] of [a], and the trial
    [{a: "high", c: "1"}], the first child is present in the trial and its
    parent's value does not match, yet the name [c] is resolved through the
    second child and the resolution succeeds. *)
Lemma mismatch_fails_as_specified_fails :
  ¬ mismatch_fails_as_specified Examples.two_children_space Examples.trial_a_high_c.
Proof.
  intros Hclaim.
  destruct (Hclaim "a" (Examples.leaf "c" ["low"]) "high") as [_ Hfails].
  - apply (occurs_child _ None
             (StudyConfig.Build_ParameterConfig "a" None []
                [Examples.leaf "c" ["low"]; Examples.leaf "c" ["high"]])).
    + constructor. apply list_elem_of_here.
    + apply list_elem_of_here.
  - by eexists.
  - reflexivity.
  - reflexivity.
  - vm_compute in Hfails. discriminate Hfails.
Qed.

(** ** Multi-dimensional parameters *)

Section RecombinationClaims.
Import StudyConfig.
Context {Val ExternalType ParameterValue Trial : Type}.
Context {collaborators : Collaborators Val ExternalType ParameterValue Trial}.
Implicit Types (resolved : list (string * Val)).

Lemma indexed_items_elem (base : string) resolved (index : Z) (v : Val) :
  (index, v) ∈ indexed_items base resolved
  ↔ ∃ n, (n, v) ∈ resolved
         ∧ parse_multi_dimensional_parameter_name n = Some (base, index).
Proof.
  unfold indexed_items. rewrite list_elem_of_omap. split.
  - intros ([n v'] & Hin & Hf). exists n.
    destruct (parse_multi_dimensional_parameter_name n) as [[b i]|]; [|done].
    destruct (decide (b = base)) as [->|]; [|done]. by injection Hf as -> ->.
  - intros (n & Hin & Hparse). exists (n, v). split; [done|].
    rewrite Hparse. by rewrite decide_True.
Qed.

(** C4, as amended.  In the result of the recombination of a resolved
    mapping, every base name of a resolved name with an index is bound to
    the external values of exactly the indices present, in ascending order
    of index, without padding.  A resolved name that is not itself the base
    name of a resolved name is bound to its external value when it has no
    index, and is no key of the result when it has one.  The entry of a
    name is the same for every iteration order of the resolved mapping when
    no two resolved names encode the same index of that name.  When no
    resolved name is the base name of one, and different names never encode
    the same base name and index, the recombination is as the specification
    words it. *)
Theorem recombination_of_indexed_names resolved :
  NoDup (PyDict.keys resolved) →
  let output := combine_multi_dimensional resolved in
  (∀ base, indexed_items base resolved ≠ [] →
     ∃ l, PyDict.get output base = Some (Sequence (l.*2))
          ∧ l ≡ₚ indexed_items base resolved
          ∧ Sorted Z.le l.*1)
  ∧ (∀ n v, (n, v) ∈ resolved → indexed_items n resolved = [] →
       PyDict.get output n
       = match parse_multi_dimensional_parameter_name n with
         | None => Some (Scalar v)
         | Some _ => None
         end)
  ∧ (∀ n,
       (∀ n1 n2 index,
          n1 ∈ PyDict.keys resolved → n2 ∈ PyDict.keys resolved →
          parse_multi_dimensional_parameter_name n1 = Some (n, index) →
          parse_multi_dimensional_parameter_name n2 = Some (n, index) →
          n1 = n2) →
       ∀ resolved', resolved' ≡ₚ resolved →
         PyDict.get (combine_multi_dimensional resolved') n = PyDict.get output n)
  ∧ ((∀ n, n ∈ PyDict.keys resolved → indexed_items n resolved = []) →
     (∀ n1 n2 base index,
        n1 ∈ PyDict.keys resolved → n2 ∈ PyDict.keys resolved →
        parse_multi_dimensional_parameter_name n1 = Some (base, index) →
        parse_multi_dimensional_parameter_name n2 = Some (base, index) →
        n1 = n2) →
     recombination_as_specified resolved).
Proof.
  intros Hnd. cbv zeta.
  assert (∀ n v, (n, v) ∈ resolved → n ∈ PyDict.keys resolved) as Hkey.
  { intros n v Hin. apply list_elem_of_fmap. by exists (n, v). }
  assert (∀ base, indexed_items base resolved ≠ [] →
            ∃ l, PyDict.get (combine_multi_dimensional resolved) base
                 = Some (Sequence (l.*2))
                 ∧ l ≡ₚ indexed_items base resolved
                 ∧ Sorted Z.le l.*1) as Hgroup.
  { intros base Hitems. exists (sort_by_index (indexed_items base resolved)).
    split; [|split].
    - rewrite combine_multi_dimensional_get by done.
      by destruct (indexed_items base resolved).
    - apply sort_by_index_spec.
    - apply sort_by_index_sorted_fst. }
  assert (∀ n v, (n, v) ∈ resolved → indexed_items n resolved = [] →
            PyDict.get (combine_multi_dimensional resolved) n
            = match parse_multi_dimensional_parameter_name n with
              | None => Some (Scalar v)
              | Some _ => None
              end) as Hname.
  { intros n v Hin Hitems. rewrite combine_multi_dimensional_get, Hitems by done.
    destruct (parse_multi_dimensional_parameter_name n); [done|].
    by rewrite (pydict_elem_get _ _ _ Hnd Hin). }
  assert (∀ n,
            (∀ n1 n2 index,
               n1 ∈ PyDict.keys resolved → n2 ∈ PyDict.keys resolved →
               parse_multi_dimensional_parameter_name n1 = Some (n, index) →
               parse_multi_dimensional_parameter_name n2 = Some (n, index) →
               n1 = n2) →
            ∀ resolved', resolved' ≡ₚ resolved →
              PyDict.get (combine_multi_dimensional resolved') n
              = PyDict.get (combine_multi_dimensional resolved) n) as Horder.
  { intros n Hinj resolved' Hperm.
    assert (NoDup (PyDict.keys resolved')) as Hnd'
      by (unfold PyDict.keys; by rewrite Hperm).
    rewrite !combine_multi_dimensional_get by done.
    assert (indexed_items n resolved' ≡ₚ indexed_items n resolved) as Hitems
      by (unfold indexed_items; by rewrite Hperm).
    assert (sort_by_index (indexed_items n resolved')
            = sort_by_index (indexed_items n resolved)) as Hsort.
    { symmetry. apply sort_by_index_unique; [|done].
      intros [i v] [j w] Hx Hy Heq. cbn in Heq. subst j.
      apply indexed_items_elem in Hx as (n1 & Hin1 & Hparse1).
      apply indexed_items_elem in Hy as (n2 & Hin2 & Hparse2).
      assert (n1 = n2) as -> by (eapply Hinj; eauto).
      f_equal.
      pose proof (pydict_elem_get _ _ _ Hnd Hin1) as Hv.
      pose proof (pydict_elem_get _ _ _ Hnd Hin2) as Hw. congruence. }
    destruct (indexed_items n resolved) as [|x l] eqn:Hl.
    - apply Permutation_nil_r in Hitems as ->.
      destruct (parse_multi_dimensional_parameter_name n); [done|].
      by rewrite (pydict_get_perm resolved resolved').
    - destruct (indexed_items n resolved') as [|x' l'] eqn:Hl'.
      + symmetry in Hitems. by apply Permutation_nil_r in Hitems.
      + by rewrite Hsort. }
  split; [exact Hgroup|]. split; [exact Hname|]. split; [exact Horder|].
  intros Hfree Hinj. split; [|split; [exact Hgroup|split]].
  - intros n v Hin Hparse. rewrite (Hname n v Hin) by eauto. by rewrite Hparse.
  - intros n v Hin [bi Hparse]. rewrite (Hname n v Hin) by eauto. by rewrite Hparse.
  - intros resolved' Hperm n. apply Horder; [|done].
    intros n1 n2 index. apply Hinj.
Qed.

End RecombinationClaims.

Lemma recombination_of_indexed_names_witness :
  NoDup (PyDict.keys [("x[1]", "2"); ("x[0]", "1"); ("y", "7")])
  ∧ PyDict.get (StudyConfig.combine_multi_dimensional
                  [("x[1]", "2"); ("x[0]", "1"); ("y", "7")]) "y"
    = Some (StudyConfig.Scalar "7")
  ∧ PyDict.get (StudyConfig.combine_multi_dimensional
                  [("x[1]", "2"); ("x[0]", "1"); ("y", "7")]) "x[0]"
    = None
  ∧ PyDict.get (StudyConfig.combine_multi_dimensional
                  [("x[0]", "1"); ("y", "7"); ("x[1]", "2")]) "x"
    = PyDict.get (StudyConfig.combine_multi_dimensional
                    [("x[1]", "2"); ("x[0]", "1"); ("y", "7")]) "x".
Proof.
  assert (NoDup (PyDict.keys [("x[1]", "2"); ("x[0]", "1"); ("y", "7")])) as Hnd.
  { compute_done. }
  pose proof (recombination_of_indexed_names [("x[1]", "2"); ("x[0]", "1"); ("y", "7")] Hnd)
    as (_ & Hname & Horder & _).
  split; [exact Hnd|]. split; [|split].
  - apply (Hname "y" "7"); [|reflexivity].
    do 2 apply list_elem_of_further. apply list_elem_of_here.
  - apply (Hname "x[0]" "1"); [|reflexivity].
    apply list_elem_of_further, list_elem_of_here.
  - apply Horder.
    + intros n1 n2 index H1 H2 P1 P2. cbn in H1, H2.
      rewrite !elem_of_cons, elem_of_nil in H1.
      rewrite !elem_of_cons, elem_of_nil in H2.
      destruct_or!; subst; try done; vm_compute in P1, P2; congruence.
    + etrans; [apply perm_skip, Permutation_swap|apply Permutation_swap].
Defined.

(** C4 as the specification states it fails for a resolved mapping in
    which the name [x] occurs next to [x[0]]: the list of [x[0]] replaces
    the value of [x].  It also fails for the two names [x[0]] and [x[00]] of
    one base and index: the stable sort keeps them in iteration order. *)
Lemma recombination_as_specified_fails :
  ¬ recombination_as_specified [("x", "5"); ("x[0]", "1")]
  ∧ ¬ recombination_as_specified [("x[0]", "1"); ("x[00]", "2")].
Proof.
  split.
  - intros (Hplain & _).
    specialize (Hplain "x" "5" (list_elem_of_here _ _) eq_refl).
    vm_compute in Hplain. discriminate Hplain.
  - intros (_ & _ & _ & Horder).
    specialize (Horder [("x[00]", "2"); ("x[0]", "1")] (Permutation_swap _ _ _) "x").
    vm_compute in Horder. discriminate Horder.
Qed.

(** * Further properties of the code *)

(** ** Namespaces *)

Section NamespaceFacts.
Import PyStr Namespace.

Lemma parse_step_nonempty (st : list string * bool) (frag : string) :
  st.1 ≠ [] → (parse_step st frag).1 ≠ [].
Proof.
  destruct st as [output join]. cbn [fst]. intros Hne. unfold parse_step.
  assert (∀ suffix, append_to_last output suffix ≠ []) as Happend.
  { intros suffix. destruct output as [|x output]; [done|]. cbn. by destruct output. }
  repeat match goal with |- context [if ?b then _ else _] => destruct b end;
    cbn [fst]; try apply Happend; by destruct output.
Qed.

Lemma parse_nonempty (arg : string) : _parse arg ≠ [].
Proof.
  unfold _parse. cbv zeta.
  pose proof (split_nonempty colon arg) as Hsplit.
  destruct (split colon arg) as [|frag frags]; [done|]. cbn [foldl].
  assert ((parse_step ([], false) frag).1 ≠ []) as Hfirst.
  { unfold parse_step. cbn. by destruct (ends_with_escape frag). }
  revert Hfirst. generalize (parse_step ([], false) frag).
  induction frags as [|f frags IH]; intros st Hst; [done|].
  cbn [foldl]. by apply IH, parse_step_nonempty.
Qed.

(** X1.  A namespace decoded from a string has no component exactly when
    the string is empty or made of colons only; any other string decodes to
    at least one component. *)
Theorem decoded_namespace_empty_iff (s : string) :
  make (Str s) = [] ↔ lstrip colon s = "".
Proof.
  unfold make. destruct (lstrip colon s) as [|a s'] eqn:Hstrip; [done|].
  split; [|done]. intros Hparse. by apply parse_nonempty in Hparse.
Qed.

Lemma lstrip_idemp (ch : ascii) (s : string) : lstrip ch (lstrip ch s) = lstrip ch s.
Proof.
  induction s as [|a s IH]; [done|]. cbn [lstrip].
  destruct (Ascii.eqb a ch) eqn:Ha; [done|]. cbn [lstrip]. by rewrite Ha.
Qed.

Lemma lstrip_app_colons (k : nat) (s : string) :
  lstrip colon (Nat.iter k (String colon) s) = lstrip colon s.
Proof.
  induction k as [|k IH]; [done|].
  change (Nat.iter (S k) (String colon) s)
    with (String colon (Nat.iter k (String colon) s)).
  cbn [lstrip]. by rewrite Ascii.eqb_refl.
Qed.

(** X2.  Leading colons do not matter: a string decodes to the same
    namespace with any number of colons put in front of it, and to the same
    namespace as the string stripped of its leading colons. *)
Theorem leading_colons_ignored (k : nat) (s : string) :
  make (Str (Nat.iter k (String colon) s)) = make (Str s)
  ∧ make (Str (lstrip colon s)) = make (Str s).
Proof.
  unfold make. by rewrite lstrip_app_colons, lstrip_idemp.
Qed.

Lemma contains_last_char (ch : ascii) (s : string) :
  contains ch s = false → last_char s ≠ Some ch.
Proof.
  induction s as [|a s IH]; [done|]. cbn [contains].
  intros [Ha Hs]%orb_false_iff. cbn [last_char]. destruct s as [|b s]; [|by apply IH].
  intros [= ->]. by rewrite Ascii.eqb_refl in Ha.
Qed.

Lemma contains_no_escape (s : string) :
  contains backslash s = false → ends_with_escape s = false.
Proof.
  intros Hs%contains_last_char. unfold ends_with_escape.
  destruct (last_char s) as [c|]; [|done].
  apply Ascii.eqb_neq. by intros ->.
Qed.

Lemma split_contains (ch sep : ascii) (s : string) :
  contains ch s = false →
  Forall (λ frag, contains ch frag = false) (split sep s).
Proof.
  induction s as [|a s IH]; intros Hs.
  - by constructor.
  - cbn [contains] in Hs. apply orb_false_iff in Hs as [Ha Hs].
    specialize (IH Hs). cbn [split]. destruct (Ascii.eqb a sep).
    + by constructor.
    + destruct (split sep s) as [|h t]; [repeat constructor; cbn; by rewrite Ha|].
      apply Forall_cons in IH as [Hh Ht]. constructor; [|done].
      cbn. by rewrite Ha, Hh.
Qed.

Lemma lstrip_contains (ch c : ascii) (s : string) :
  contains ch s = false → contains ch (lstrip c s) = false.
Proof.
  induction s as [|a s IH]; [done|]. intros Hs. cbn [lstrip].
  destruct (Ascii.eqb a c); [|done].
  cbn [contains] in Hs. apply orb_false_iff in Hs as [_ Hs]. by apply IH.
Qed.

Lemma parse_plain_fragments (fragments output : list string) :
  Forall (λ frag, ends_with_escape frag = false) fragments →
  foldl parse_step (output, false) fragments = (output ++ fragments, false).
Proof.
  revert output. induction fragments as [|f fragments IH]; intros output Hall.
  - by rewrite (right_id_L [] (++)).
  - apply Forall_cons in Hall as [Hf Hall]. cbn [foldl].
    unfold parse_step at 2. rewrite Hf. cbn [andb].
    rewrite IH by done. by rewrite <- (assoc_L (++)).
Qed.

(** X3.  Without a backslash in the string there is nothing to unescape:
    the decoded namespace is the string, stripped of its leading colons,
    cut at every colon. *)
Theorem decode_without_escapes (s : string) :
  contains backslash s = false →
  lstrip colon s ≠ "" →
  make (Str s) = split colon (lstrip colon s).
Proof.
  intros Hs Hne. unfold make.
  destruct (lstrip colon s) as [|a s'] eqn:Hstrip; [done|].
  unfold _parse. cbv zeta. rewrite parse_plain_fragments; [done|].
  eapply Forall_impl; [apply split_contains|apply contains_no_escape].
  rewrite <- Hstrip. by apply lstrip_contains.
Qed.

Lemma translate_colon_id (c : string) :
  contains colon c = false → translate_colon c = c.
Proof.
  induction c as [|a c IH]; [done|]. cbn [contains translate_colon].
  intros [Ha Hc]%orb_false_iff. rewrite Ha. by rewrite IH.
Qed.

(** X4.  The encoding [repr] is decoded back to the namespace it encodes
    whenever no component ends in a backslash and the first component is
    not the empty string. *)
Theorem repr_roundtrip (n : list string) :
  (∀ c, c ∈ n → ends_with_escape c = false) →
  head n ≠ Some "" →
  make (Str (__repr__ n)) = n.
Proof. apply repr_roundtrip_when_unambiguous. Qed.

(** X5.  The display form [str] is decoded back to the namespace as well
    when, in addition, no component contains a colon: then the colons of
    the string are exactly the separators. *)
Theorem str_roundtrip (n : list string) :
  (∀ c, c ∈ n → contains colon c = false ∧ ends_with_escape c = false) →
  head n ≠ Some "" →
  __str__ n = __repr__ n ∧ make (Str (__str__ n)) = n.
Proof.
  intros Hall Hhead.
  assert (__str__ n = __repr__ n) as Heq.
  { unfold __str__, __repr__. f_equal. symmetry.
    rewrite <- (list_fmap_id n) at 2. apply list_fmap_ext.
    intros i c Hc. apply translate_colon_id, Hall. by eapply list_elem_of_lookup_2. }
  split; [done|]. rewrite Heq. apply repr_roundtrip_when_unambiguous; [|done].
  intros c Hc. by apply Hall.
Qed.

Lemma startswith_prefix_of (ns prefix : list string) :
  startswith ns prefix = true ↔ prefix `prefix_of` ns.
Proof.
  unfold startswith, slice_to, len, make. cbv zeta. rewrite bool_decide_eq_true.
  split.
  - intros Heq. exists (drop (length prefix) ns).
    rewrite <- Heq at 1. by rewrite take_drop.
  - intros [k ->]. by rewrite take_app_length.
Qed.

(** X6.  [startswith] is the prefix relation on component sequences. *)
Theorem startswith_iff_prefix (ns prefix : list string) :
  startswith ns prefix = true ↔ prefix `prefix_of` ns.
Proof. apply startswith_prefix_of. Qed.

(** X7.  [ns + other] appends: a string adds exactly one component (the
    string itself, not parsed), a sequence adds all its components; the sum
    starts with [ns], and what follows [ns] in it is what was added. *)
Theorem add_appends (ns : list string) (s : string) (c : list string) :
  add ns (Str s) = add ns (Components [s])
  ∧ len (add ns (Str s)) = S (len ns)
  ∧ len (add ns (Components c)) = len ns + len c
  ∧ startswith (add ns (Components c)) ns = true
  ∧ slice_from (add ns (Components c)) (len ns) = c
  ∧ slice_to (add ns (Components c)) (len ns) = ns.
Proof.
  unfold add, len, slice_from, slice_to, make.
  split; [done|]. split; [rewrite length_app; cbn; lia|].
  split; [by rewrite length_app|].
  split; [apply startswith_prefix_of; by exists c|].
  split; [by rewrite drop_app_length|by rewrite take_app_length].
Qed.

End NamespaceFacts.

(** ** The namespaces of a metadata store *)

Section StoresFacts.
Context {PyObj : Type}.
Implicit Types (H : Heap PyObj) (m : Metadata.t) (a p : Namespace.t)
  (cell : list (Namespace.t * gmap string PyObj)).

Lemma pydict_NoDup_setdefault {K V : Type} `{EqDecision K}
    (d : list (K * V)) (k : K) (v : V) :
  NoDup (PyDict.keys d) → NoDup (PyDict.keys (PyDict.setdefault d k v)).
Proof.
  intros Hnd. unfold PyDict.setdefault. destruct (PyDict.get d k) eqn:Hget; [done|].
  unfold PyDict.keys. rewrite fmap_app. apply NoDup_app. split; [done|].
  split; [|apply NoDup_singleton].
  intros x Hx ->%list_elem_of_singleton. by apply pydict_get_None in Hget.
Qed.

Lemma stores_wf_alter (f : list (Namespace.t * gmap string PyObj)
                           → list (Namespace.t * gmap string PyObj)) H l :
  (∀ cell, NoDup (PyDict.keys cell) → NoDup (PyDict.keys (f cell))) →
  stores_wf H → stores_wf (alter f l H).
Proof.
  intros Hf Hwf l' cell. destruct (decide (l = l')) as [<-|Hne].
  - rewrite list_lookup_alter_eq. destruct (H !! l) as [cell0|] eqn:Hl; [|done].
    intros [= <-]. by eapply Hf, Hwf.
  - rewrite list_lookup_alter_ne by done. apply Hwf.
Qed.

Lemma stores_wf_touch H l a : stores_wf H → stores_wf (Metadata.stores_touch l a H).
Proof. apply stores_wf_alter. intros cell. apply pydict_NoDup_setdefault. Qed.

Lemma stores_wf_modify (f : gmap string PyObj → gmap string PyObj) H l a :
  stores_wf H → stores_wf (Metadata.store_modify f l a H).
Proof. apply stores_wf_alter. intros cell. by rewrite pydict_keys_alter. Qed.

Lemma stores_wf_alloc H : stores_wf H → stores_wf (H ++ [[]]).
Proof.
  intros Hwf l cell Hl. apply lookup_app_Some in Hl as [Hl|[_ Hl]]; [by eapply Hwf|].
  apply list_lookup_singleton_Some in Hl as [_ <-]. apply NoDup_nil_2.
Qed.

Lemma stores_wf_init (items : Metadata.items PyObj) kwargs H :
  stores_wf H → stores_wf (Metadata.__init__ items kwargs H).2.
Proof.
  intros Hwf. unfold Metadata.__init__. cbn [snd].
  by apply stores_wf_modify, stores_wf_touch, stores_wf_alloc.
Qed.

Lemma stores_wf_copy_core m a H :
  stores_wf H → stores_wf (Metadata._copy_core m a H).2.
Proof.
  intros Hwf. unfold Metadata._copy_core.
  pose proof (stores_wf_init Metadata.NoItems [] H Hwf) as Hinit.
  destruct (Metadata.__init__ Metadata.NoItems [] H) as [md H0]. cbn [snd] in *.
  by apply stores_wf_touch.
Qed.

Lemma stores_wf_attach self other H :
  stores_wf H → stores_wf (Metadata.attach self other H).
Proof.
  unfold Metadata.attach. generalize (Metadata.subnamespaces other H) as rels.
  intros rels. revert H. induction rels as [|rel rels IH]; intros H Hwf; [done|].
  cbn [foldl]. apply IH. unfold Metadata.attach_step, Metadata.ns.
  pose proof (stores_wf_copy_core other
                (Namespace.add (Metadata._namespace other) (Namespace.Components rel))
                (Metadata.stores_touch (Metadata._stores self)
                   (Namespace.add (Metadata._namespace self) (Namespace.Components rel)) H)
                (stores_wf_touch _ _ _ Hwf)) as Hcc.
  destruct (Metadata._copy_core other _ _) as [src H2]. cbn [snd] in Hcc.
  by apply stores_wf_modify.
Qed.

Lemma entry_elem H l a (store : gmap string PyObj) :
  stores_wf H →
  entry H l a = Some store ↔ ∃ cell, H !! l = Some cell ∧ (a, store) ∈ cell.
Proof.
  intros Hwf. unfold entry. split.
  - destruct (H !! l) as [cell|] eqn:Hl; [|done]. cbn.
    intros Hget%pydict_get_Some_elem. by exists cell.
  - intros (cell & Hl & Hin). rewrite Hl. cbn.
    apply pydict_elem_get; [|done]. by eapply Hwf.
Qed.

Lemma truthy_nonempty (store : gmap string PyObj) :
  Metadata.truthy store = true ↔ size store ≠ 0.
Proof. unfold Metadata.truthy. apply bool_decide_eq_true. Qed.

Lemma store_at_size H l a :
  size (Metadata.store_at H l a) ≠ 0
  ↔ ∃ store, entry H l a = Some store ∧ size store ≠ 0.
Proof.
  rewrite store_at_entry. destruct (entry H l a) as [store|]; cbn.
  - split; [by exists store|]. by intros (? & [= <-] & ?).
  - rewrite map_size_empty. split; [done|]. by intros (? & ? & ?).
Qed.

(** The namespaces listed by [namespaces()] are those with a key. *)
Lemma namespaces_elem H m a :
  stores_wf H →
  a ∈ Metadata.namespaces m H ↔ size (Metadata.store_at H (Metadata._stores m) a) ≠ 0.
Proof.
  intros Hwf. rewrite store_at_size. unfold Metadata.namespaces.
  rewrite list_elem_of_omap. split.
  - intros ([a' store] & Hin & Hf). destruct (Metadata.truthy store) eqn:Ht; [|done].
    injection Hf as ->. exists store. split; [|by apply truthy_nonempty].
    destruct (H !! Metadata._stores m) as [cell|] eqn:Hl;
      [|by apply elem_of_nil in Hin].
    apply entry_elem; [done|]. by exists cell.
  - intros (store & Hentry & Hsize). apply entry_elem in Hentry as (cell & Hl & Hin);
      [|done].
    exists (a, store). rewrite Hl. split; [done|].
    by rewrite (proj2 (truthy_nonempty store) Hsize).
Qed.

Lemma subnamespaces_elem H m p :
  stores_wf H →
  p ∈ Metadata.subnamespaces m H
  ↔ size (Metadata.store_at H (Metadata._stores m) (Metadata._namespace m ++ p)) ≠ 0.
Proof.
  intros Hwf. split.
  - unfold Metadata.subnamespaces. rewrite list_elem_of_omap.
    intros ([a store] & Hin & Hf).
    destruct (Metadata.truthy store) eqn:Ht; [|done]. cbn [andb] in Hf.
    destruct (Namespace.startswith a (Metadata._namespace m)) eqn:Hstart; [|done].
    injection Hf as <-.
    apply startswith_prefix_of in Hstart as [k ->].
    unfold Namespace.slice_from, Namespace.len, Namespace.make.
    rewrite drop_app_length. apply store_at_size. exists store.
    split; [|by apply truthy_nonempty].
    destruct (H !! Metadata._stores m) as [cell|] eqn:Hl;
      [|by apply elem_of_nil in Hin].
    apply entry_elem; [done|]. by exists cell.
  - intros Hsize. apply subnamespaces_complete. by apply map_size_non_empty_iff.
Qed.

Lemma NoDup_omap_keys {A B : Type} (f : A * B → option A)
    (cell : list (A * B)) :
  (∀ k v k', f (k, v) = Some k' → k' = k) →
  NoDup cell.*1 → NoDup (omap f cell).
Proof.
  intros Hf. induction cell as [|[k v] cell IH]; [intros _; apply NoDup_nil_2|].
  cbn. intros [Hfresh Hnd]%NoDup_cons.
  destruct (f (k, v)) as [k'|] eqn:Hk; [|by apply IH].
  apply Hf in Hk as ->. apply NoDup_cons. split; [|by apply IH].
  intros Hin. apply Hfresh. apply list_elem_of_omap in Hin as ([k1 v1] & Hin & Hf1).
  apply Hf in Hf1 as <-. apply list_elem_of_fmap. by exists (k, v1).
Qed.

(** X8.  [namespaces()] lists, once each, exactly the namespaces of the
    backing store that have at least one key: [ns] is listed exactly when
    [md.abs_ns(ns)] is not empty. *)
Theorem namespaces_are_the_nonempty_ones H m a :
  stores_wf H → is_view H m →
  (a ∈ Metadata.namespaces m H
   ↔ Metadata.__len__ (Metadata.abs_ns m (Namespace.Components a) H).1
                      (Metadata.abs_ns m (Namespace.Components a) H).2 ≠ 0)
  ∧ NoDup (Metadata.namespaces m H).
Proof.
  intros Hwf Hv. pose proof (is_view_lt _ _ Hv) as Hlt. split.
  - rewrite namespaces_elem by done.
    unfold Metadata.abs_ns, Metadata.__len__, Metadata._store.
    rewrite copy_core_fst. cbn [Metadata._stores Metadata._namespace].
    by rewrite copy_core_store_at.
  - unfold Metadata.namespaces.
    destruct (H !! Metadata._stores m) as [cell|] eqn:Hl; [|apply NoDup_nil_2].
    apply NoDup_omap_keys; [|by eapply Hwf].
    intros k v k'. destruct (Metadata.truthy v); [|done]. by intros [= ->].
Qed.

Lemma NoDup_subnamespaces H m :
  stores_wf H → NoDup (Metadata.subnamespaces m H).
Proof.
  intros Hwf. unfold Metadata.subnamespaces.
  destruct (H !! Metadata._stores m) as [cell|] eqn:Hl; [|apply NoDup_nil_2].
  pose proof (Hwf _ _ Hl) as Hnd. unfold PyDict.keys in Hnd. clear Hl.
  induction cell as [|[a store] cell IH]; [apply NoDup_nil_2|].
  cbn in Hnd. apply NoDup_cons in Hnd as [Hfresh Hnd]. cbn.
  destruct (Metadata.truthy store && Namespace.startswith a (Metadata._namespace m))
    eqn:Hcond; [|by apply IH].
  apply andb_true_iff in Hcond as [_ [k ->]%startswith_prefix_of].
  apply NoDup_cons. split; [|by apply IH].
  unfold Namespace.slice_from, Namespace.len, Namespace.make.
  rewrite drop_app_length. intros Hin.
  apply list_elem_of_omap in Hin as ([a' store'] & Hin & Hf).
  destruct (Metadata.truthy store' && Namespace.startswith a' (Metadata._namespace m))
    eqn:Hcond'; [|done].
  apply andb_true_iff in Hcond' as [_ [k' ->]%startswith_prefix_of].
  unfold Namespace.slice_from, Namespace.len, Namespace.make in Hf.
  rewrite drop_app_length in Hf. injection Hf as ->.
  apply Hfresh. apply list_elem_of_fmap. by eexists (_, store').
Qed.

(** X9.  [subnamespaces()] lists, once each, exactly the relative paths
    below the current namespace (the empty path included) at which the
    backing store has at least one key: [ns] is listed exactly when
    [md.ns(ns)] is not empty. *)
Theorem subnamespaces_are_the_nonempty_ones H m p :
  stores_wf H → is_view H m →
  (p ∈ Metadata.subnamespaces m H
   ↔ Metadata.__len__ (Metadata.ns m (Namespace.Components p) H).1
                      (Metadata.ns m (Namespace.Components p) H).2 ≠ 0)
  ∧ NoDup (Metadata.subnamespaces m H).
Proof.
  intros Hwf Hv. pose proof (is_view_lt _ _ Hv) as Hlt.
  split; [|by apply NoDup_subnamespaces].
  rewrite subnamespaces_elem by done.
  unfold Metadata.ns, Metadata.__len__, Metadata._store.
  rewrite copy_core_fst. cbn [Metadata._stores Metadata._namespace].
  by rewrite copy_core_store_at.
Qed.

End StoresFacts.

(** ** Dictionary access through a view *)

Section DictionaryFacts.
Context {PyObj : Type}.
Implicit Types (H : Heap PyObj) (m : Metadata.t) (a : Namespace.t).

Lemma store_modify_store (f : gmap string PyObj → gmap string PyObj) H m :
  is_view H m →
  Metadata._store (Metadata.store_modify f (Metadata._stores m) (Metadata._namespace m) H) m
  = f (Metadata._store H m).
Proof.
  intros [s Hs]. unfold Metadata._store.
  rewrite !store_at_entry, entry_modify_same, Hs. done.
Qed.

Lemma store_modify_elsewhere (f : gmap string PyObj → gmap string PyObj) H m l a :
  l ≠ Metadata._stores m ∨ a ≠ Metadata._namespace m →
  Metadata.store_at
    (Metadata.store_modify f (Metadata._stores m) (Metadata._namespace m) H) l a
  = Metadata.store_at H l a.
Proof.
  intros Hne. rewrite !store_at_entry, entry_modify_other; [done|].
  destruct Hne; [left|right]; congruence.
Qed.

(** X10.  [md[key] = value] binds [key] in the current namespace of the
    view and nowhere else: the key then reads as [value], every other key
    of the namespace reads as before, every other namespace and every other
    store has the items it had, and the length grows by one exactly when
    the key is new. *)
Theorem setitem_then_getitem H m (key : string) (value : PyObj) :
  is_view H m →
  let H' := Metadata.__setitem__ m key value H in
  Metadata.__getitem__ m key H' = Some value
  ∧ (∀ key', key' ≠ key → Metadata.__getitem__ m key' H' = Metadata.__getitem__ m key' H)
  ∧ (∀ l a, l ≠ Metadata._stores m ∨ a ≠ Metadata._namespace m →
            Metadata.store_at H' l a = Metadata.store_at H l a)
  ∧ Metadata.__len__ m H'
    = match Metadata.__getitem__ m key H with
      | Some _ => Metadata.__len__ m H
      | None => S (Metadata.__len__ m H)
      end.
Proof.
  intros Hv. cbv zeta. unfold Metadata.__setitem__, Metadata.__getitem__, Metadata.__len__.
  rewrite store_modify_store by done. split; [apply lookup_insert_eq|].
  split; [by intros key' Hne; rewrite lookup_insert_ne|].
  split; [intros l a Hne; by apply store_modify_elsewhere|].
  destruct (Metadata._store H m !! key) eqn:Hkey.
  - by rewrite map_size_insert_Some.
  - by rewrite map_size_insert_None.
Qed.

(** X11.  [del md[key]] raises [KeyError], and changes nothing, when [key]
    is not a key of the current namespace.  Otherwise it removes that key
    and nothing else: the key is then missing, every other key, namespace
    and store is as before, and the length shrinks by one. *)
Theorem delitem_removes_the_key H m (key : string) :
  is_view H m →
  match Metadata.__delitem__ m key H with
  | None => Metadata.__getitem__ m key H = None
  | Some H' =>
      is_Some (Metadata.__getitem__ m key H)
      ∧ Metadata.__getitem__ m key H' = None
      ∧ (∀ key', key' ≠ key →
                 Metadata.__getitem__ m key' H' = Metadata.__getitem__ m key' H)
      ∧ (∀ l a, l ≠ Metadata._stores m ∨ a ≠ Metadata._namespace m →
                Metadata.store_at H' l a = Metadata.store_at H l a)
      ∧ S (Metadata.__len__ m H') = Metadata.__len__ m H
  end.
Proof.
  intros Hv. unfold Metadata.__delitem__, Metadata.__getitem__, Metadata.__len__.
  destruct (Metadata._store H m !! key) as [v|] eqn:Hkey; [|done].
  rewrite store_modify_store by done.
  split; [by eexists|]. split; [apply lookup_delete_eq|].
  split; [by intros key' Hne; rewrite lookup_delete_ne|].
  split; [intros l a Hne; by apply store_modify_elsewhere|].
  rewrite map_size_delete_Some by by eexists.
  assert (size (Metadata._store H m) ≠ 0); [|lia].
  apply map_size_non_empty_iff. intros Hempty. by rewrite Hempty in Hkey.
Qed.

Lemma lookup_foldl_insert (d : gmap string PyObj) (kvs : list (string * PyObj))
    (key : string) :
  foldl (λ (d : gmap string PyObj) kv, <[kv.1 := kv.2]> d) d kvs !! key
  = match (list_to_map (reverse kvs) : gmap string PyObj) !! key with
    | Some v => Some v
    | None => d !! key
    end.
Proof.
  revert d. induction kvs as [|[k v] kvs IH] using rev_ind; intros d.
  - cbn. by rewrite lookup_empty.
  - rewrite foldl_snoc, reverse_snoc, list_to_map_cons. cbn [fst snd].
    destruct (decide (k = key)) as [->|Hne].
    + by rewrite !lookup_insert_eq.
    + rewrite !lookup_insert_ne by done. apply IH.
Qed.

Lemma lookup_dict_update H (d : gmap string PyObj) (items : Metadata.items PyObj)
    (kwargs : list (string * PyObj)) (key : string) :
  Metadata.dict_update H d items kwargs !! key
  = match (list_to_map (reverse kwargs) : gmap string PyObj) !! key with
    | Some v => Some v
    | None => match items_lookup H items key with
              | Some v => Some v
              | None => d !! key
              end
    end.
Proof.
  unfold Metadata.dict_update. cbv zeta. rewrite lookup_foldl_insert.
  destruct (list_to_map (reverse kwargs) !! key); [done|].
  destruct items as [|o|kvs|mm]; cbn [items_lookup].
  - done.
  - rewrite lookup_union. destruct (o !! key), (d !! key); done.
  - apply lookup_foldl_insert.
  - rewrite lookup_union. destruct (Metadata._store H mm !! key), (d !! key); done.
Qed.

End DictionaryFacts.

Section UpdateFacts.
Context {PyObj : Type}.
Implicit Types (H : Heap PyObj) (m : Metadata.t) (a : Namespace.t).

(** X12.  [md.update(arg, **kwargs)] overwrites key by key in the current
    namespace: a key reads as its keyword argument if it has one, else as
    the argument binds it (the last pair for an iterable of pairs, the
    current namespace of the argument for a [Metadata]), else as before.
    No other namespace and no other store changes. *)
Theorem update_overwrites_per_key H m (items : Metadata.items PyObj)
    (kwargs : list (string * PyObj)) (key : string) :
  is_view H m →
  let H' := Metadata.update m items kwargs H in
  Metadata.__getitem__ m key H'
  = match (list_to_map (reverse kwargs) : gmap string PyObj) !! key with
    | Some v => Some v
    | None => match items_lookup H items key with
              | Some v => Some v
              | None => Metadata.__getitem__ m key H
              end
    end
  ∧ (∀ l a, l ≠ Metadata._stores m ∨ a ≠ Metadata._namespace m →
            Metadata.store_at H' l a = Metadata.store_at H l a).
Proof.
  intros Hv. cbv zeta. unfold Metadata.update, Metadata.__getitem__.
  rewrite store_modify_store by done. split; [apply lookup_dict_update|].
  intros l a Hne. by apply store_modify_elsewhere.
Qed.

(** X13.  [Metadata(arg, **kwargs)] is a view at the root namespace of a
    new store.  Its root namespace has the items of the argument, with the
    keyword arguments on top; the new store binds no other namespace; no
    store that existed changes. *)
Theorem init_puts_items_at_root (items : Metadata.items PyObj)
    (kwargs : list (string * PyObj)) H (key : string) :
  match items with
  | Metadata.Mapping mm => is_view H mm
  | _ => True
  end →
  let new := (Metadata.__init__ items kwargs H).1 in
  let H' := (Metadata.__init__ items kwargs H).2 in
  Metadata._namespace new = []
  ∧ Metadata._stores new = length H
  ∧ is_view H' new
  ∧ Metadata.__getitem__ new key H'
    = match (list_to_map (reverse kwargs) : gmap string PyObj) !! key with
      | Some v => Some v
      | None => items_lookup H items key
      end
  ∧ (∀ a, a ≠ [] → entry H' (Metadata._stores new) a = None)
  ∧ (∀ l a, l < length H → entry H' l a = entry H l a).
Proof.
  intros Hitems. destruct (init_spec items kwargs H) as (H' & -> & Hlen & Hcell & Hold).
  cbv zeta. cbn [fst snd Metadata._stores Metadata._namespace].
  split; [done|]. split; [done|]. split; [|split; [|split; [|done]]].
  - unfold is_view. cbn [Metadata._stores Metadata._namespace].
    rewrite Hcell. by rewrite decide_True.
  - unfold Metadata.__getitem__, Metadata._store.
    cbn [Metadata._stores Metadata._namespace].
    rewrite store_at_entry, Hcell. rewrite decide_True by done.
    match goal with
    | |- context [default ∅ (Some ?x)] => change (default ∅ (Some x)) with x
    end.
    rewrite lookup_dict_update, lookup_empty.
    destruct (list_to_map (reverse kwargs) !! key); [done|].
    assert (items_lookup (Metadata.stores_touch (length H) [] (H ++ [[]])) items key
            = items_lookup H items key) as ->.
    { destruct items as [| | |mm]; try done. cbn [items_lookup].
      unfold Metadata._store. rewrite store_at_touch, !store_at_entry.
      rewrite entry_app; [done|]. by apply is_view_lt. }
    by destruct (items_lookup H items key).
  - intros a Ha. rewrite Hcell. by rewrite decide_False.
Qed.

End UpdateFacts.

Lemma update_overwrites_per_key_witness :
  is_view Examples.two_stores Examples.root_other
  ∧ Metadata.__getitem__ Examples.root_other "foo"
      (Metadata.update Examples.root_other
         (Metadata.Dict {["foo" := "1"; "gleep" := "2"]}) [("foo", "3")]
         Examples.two_stores)
    = Some "3".
Proof.
  assert (is_view Examples.two_stores Examples.root_other) as Hv by (by eexists).
  split; [exact Hv|].
  exact (proj1 (update_overwrites_per_key Examples.two_stores Examples.root_other
                  (Metadata.Dict {["foo" := "1"; "gleep" := "2"]}) [("foo", "3")]
                  "foo" Hv)).
Defined.

Lemma init_puts_items_at_root_witness :
  Metadata.__getitem__
    (Metadata.__init__ (Metadata.Pairs [("foo", "1"); ("foo", "2")]) []
       Examples.two_stores).1
    "foo"
    (Metadata.__init__ (Metadata.Pairs [("foo", "1"); ("foo", "2")]) []
       Examples.two_stores).2
  = Some "2".
Proof.
  exact (proj1 (proj2 (proj2 (proj2
    (init_puts_items_at_root (Metadata.Pairs [("foo", "1"); ("foo", "2")]) []
       Examples.two_stores "foo" I))))).
Defined.

Lemma setitem_then_getitem_witness :
  is_view Examples.two_stores Examples.nested_m
  ∧ Metadata.__getitem__ Examples.nested_m "key"
      (Metadata.__setitem__ Examples.nested_m "key" "value" Examples.two_stores)
    = Some "value".
Proof.
  assert (is_view Examples.two_stores Examples.nested_m) as Hv by (by eexists).
  split; [exact Hv|].
  exact (proj1 (setitem_then_getitem Examples.two_stores Examples.nested_m
                  "key" "value" Hv)).
Defined.

Lemma delitem_removes_the_key_witness :
  is_view Examples.two_stores (Metadata.Build 1 ["x"; "y"; "z"])
  ∧ match Metadata.__delitem__ (Metadata.Build 1 ["x"; "y"; "z"]) "foo"
            Examples.two_stores with
    | Some H' => Metadata.__getitem__ (Metadata.Build 1 ["x"; "y"; "z"]) "foo" H' = None
    | None => False
    end.
Proof.
  assert (is_view Examples.two_stores (Metadata.Build 1 ["x"; "y"; "z"])) as Hv
    by (by eexists).
  split; [exact Hv|].
  pose proof (delitem_removes_the_key Examples.two_stores
                (Metadata.Build 1 ["x"; "y"; "z"]) "foo" Hv) as Hdel.
  destruct (Metadata.__delitem__ (Metadata.Build 1 ["x"; "y"; "z"]) "foo"
              Examples.two_stores).
  - exact (proj1 (proj2 Hdel)).
  - vm_compute in Hdel. discriminate Hdel.
Defined.

Lemma two_stores_wf : stores_wf Examples.two_stores.
Proof.
  intros l cell Hl. destruct l as [|[|l]]; cbn in Hl; [| |done];
    injection Hl as <-; compute_done.
Qed.

Lemma namespaces_are_the_nonempty_ones_witness :
  stores_wf Examples.two_stores
  ∧ is_view Examples.two_stores Examples.root_other
  ∧ ["x"; "y"; "z"] ∈ Metadata.namespaces Examples.root_other Examples.two_stores.
Proof.
  assert (is_view Examples.two_stores Examples.root_other) as Hv by (by eexists).
  split; [exact two_stores_wf|]. split; [exact Hv|].
  apply (proj1 (namespaces_are_the_nonempty_ones Examples.two_stores Examples.root_other
                  ["x"; "y"; "z"] two_stores_wf Hv)).
  vm_compute. discriminate.
Defined.

Lemma subnamespaces_are_the_nonempty_ones_witness :
  stores_wf Examples.two_stores
  ∧ is_view Examples.two_stores Examples.root_other
  ∧ ["q"] ∉ Metadata.subnamespaces Examples.root_other Examples.two_stores.
Proof.
  assert (is_view Examples.two_stores Examples.root_other) as Hv by (by eexists).
  split; [exact two_stores_wf|]. split; [exact Hv|].
  intros Hin.
  apply (proj1 (subnamespaces_are_the_nonempty_ones Examples.two_stores
                  Examples.root_other ["q"] two_stores_wf Hv)) in Hin.
  vm_compute in Hin. by apply Hin.
Defined.

(** ** How views compose *)

Section ViewFacts.
Context {PyObj : Type}.
Implicit Types (H : Heap PyObj) (m : Metadata.t) (a c d : Namespace.t).

Lemma getitem_copy_core H m a (key : string) :
  Metadata._stores m < length H →
  Metadata.__getitem__ (Metadata._copy_core m a H).1 key (Metadata._copy_core m a H).2
  = Metadata.store_at H (Metadata._stores m) a !! key.
Proof.
  intros Hlt. unfold Metadata.__getitem__, Metadata._store.
  rewrite copy_core_fst. cbn [Metadata._stores Metadata._namespace].
  by rewrite copy_core_store_at.
Qed.

(** X14.  Views compose: [md.ns(c).ns(d)] is the view [md.ns(c + d)], and
    [md.ns(c).abs_ns(d)] is the view [md.abs_ns(d)], whatever [c] is; each
    pair reads the same value for every key.  A string given to [ns] is one
    component: [md.ns(s)] is [md.ns(Namespace((s,)))]. *)
Theorem views_compose H m c d (s key : string) :
  is_view H m →
  let r1 := Metadata.ns m (Namespace.Components c) H in
  let r2 := Metadata.ns r1.1 (Namespace.Components d) r1.2 in
  let r := Metadata.ns m (Namespace.Components (c ++ d)) H in
  let q2 := Metadata.abs_ns r1.1 (Namespace.Components d) r1.2 in
  let q := Metadata.abs_ns m (Namespace.Components d) H in
  r2.1 = r.1
  ∧ Metadata.__getitem__ r2.1 key r2.2 = Metadata.__getitem__ r.1 key r.2
  ∧ q2.1 = q.1
  ∧ Metadata.__getitem__ q2.1 key q2.2 = Metadata.__getitem__ q.1 key q.2
  ∧ Metadata.ns m (Namespace.Str s) H = Metadata.ns m (Namespace.Components [s]) H.
Proof.
  intros Hv. pose proof (is_view_lt _ _ Hv) as Hlt. cbv zeta.
  unfold Metadata.ns, Metadata.abs_ns.
  change (Namespace.add (Metadata._namespace m) (Namespace.Components c))
    with (Metadata._namespace m ++ c).
  change (Namespace.add (Metadata._namespace m) (Namespace.Components (c ++ d)))
    with (Metadata._namespace m ++ (c ++ d)).
  set (H1 := (Metadata._copy_core m (Metadata._namespace m ++ c) H).2).
  assert (length H1 = S (length H)) as Hlen1 by apply length_copy_core.
  rewrite !copy_core_fst. cbn [Metadata._stores Metadata._namespace].
  change (Namespace.add (Metadata._namespace m ++ c) (Namespace.Components d))
    with ((Metadata._namespace m ++ c) ++ d).
  rewrite <- (assoc_L (++)).
  assert (∀ a b, Metadata.store_at
                   (Metadata._copy_core
                      {| Metadata._stores := Metadata._stores m;
                         Metadata._namespace := Metadata._namespace m ++ c |} a H1).2
                   (Metadata._stores m) b
                 = Metadata.store_at H (Metadata._stores m) b) as Hread.
  { intros a b. rewrite copy_core_store_at by (cbn [Metadata._stores]; lia).
    unfold H1. by rewrite copy_core_store_at. }
  unfold Metadata.__getitem__, Metadata._store.
  cbn [Metadata._stores Metadata._namespace].
  rewrite !Hread, !copy_core_store_at by done. done.
Qed.

End ViewFacts.

Lemma views_compose_witness :
  is_view Examples.two_stores Examples.root_other
  ∧ Metadata.__getitem__
      (Metadata.ns
         (Metadata.ns Examples.root_other (Namespace.Components ["x"]) Examples.two_stores).1
         (Namespace.Components ["y"; "z"])
         (Metadata.ns Examples.root_other (Namespace.Components ["x"]) Examples.two_stores).2).1
      "foo"
      (Metadata.ns
         (Metadata.ns Examples.root_other (Namespace.Components ["x"]) Examples.two_stores).1
         (Namespace.Components ["y"; "z"])
         (Metadata.ns Examples.root_other (Namespace.Components ["x"]) Examples.two_stores).2).2
    = Metadata.__getitem__
        (Metadata.ns Examples.root_other (Namespace.Components ["x"; "y"; "z"])
           Examples.two_stores).1
        "foo"
        (Metadata.ns Examples.root_other (Namespace.Components ["x"; "y"; "z"])
           Examples.two_stores).2.
Proof.
  assert (is_view Examples.two_stores Examples.root_other) as Hv by (by eexists).
  split; [exact Hv|].
  exact (proj1 (proj2 (views_compose Examples.two_stores Examples.root_other
                         ["x"] ["y"; "z"] "s" "foo" Hv))).
Defined.

(** ** More on [attach] *)

Section AttachFacts.
Context {PyObj : Type}.
Implicit Types (H : Heap PyObj) (self other : Metadata.t) (a p : Namespace.t).

(** X15.  For views of different backing stores, attaching the same
    metadata a second time changes nothing: every dictionary has the items
    it had after the first [attach]. *)
Theorem attach_twice_is_attach_once self other H l a :
  Metadata._stores self < length H → Metadata._stores other < length H →
  Metadata._stores self ≠ Metadata._stores other →
  l < length H →
  Metadata.store_at (Metadata.attach self other (Metadata.attach self other H)) l a
  = Metadata.store_at (Metadata.attach self other H) l a.
Proof.
  intros Hs Ho Hne Hl.
  destruct (attach_spec self other H Hs Ho Hne) as (Hlen1 & Hin1 & Hout1).
  destruct (attach_spec self other (Metadata.attach self other H)) as (_ & Hin2 & Hout2);
    [lia|lia|done|].
  destruct (decide (l = Metadata._stores self
                    ∧ Metadata._namespace self `prefix_of` a)) as [[-> [p ->]]|Hnot].
  - rewrite Hin2, Hin1. rewrite (Hout1 (Metadata._stores other)); [|done|by left].
    by rewrite (assoc_L (∪)), (idemp_L (∪)).
  - apply Hout2; [lia|]. destruct (decide (l = Metadata._stores self)); [right|by left].
    intros Hpre. by apply Hnot.
Qed.

(** X16.  [attach] keeps the tree: for views of different backing stores,
    the non-empty relative paths below [self] after [self.attach(other)]
    are those that were non-empty below [self] together with those that are
    non-empty below [other]. *)
Theorem attach_preserves_tree self other H p :
  stores_wf H →
  Metadata._stores self < length H → Metadata._stores other < length H →
  Metadata._stores self ≠ Metadata._stores other →
  p ∈ Metadata.subnamespaces self (Metadata.attach self other H)
  ↔ p ∈ Metadata.subnamespaces self H ∨ p ∈ Metadata.subnamespaces other H.
Proof.
  intros Hwf Hs Ho Hne.
  destruct (attach_spec self other H Hs Ho Hne) as (_ & Hin & _).
  rewrite !subnamespaces_elem by (done || by apply stores_wf_attach).
  rewrite Hin, !map_size_non_empty_iff.
  split.
  - intros Hunion.
    destruct (decide (size (Metadata.store_at H (Metadata._stores other)
                              (Metadata._namespace other ++ p)) = 0)) as [Hz|Hnz].
    + left. apply map_size_empty_iff in Hz. by rewrite Hz, (left_id_L ∅ (∪)) in Hunion.
    + right. by apply map_size_non_empty_iff.
  - intros [Hself|Hother].
    + intros Hempty. pose proof (map_positive_l _ _ Hempty) as Hsrc.
      rewrite Hsrc, (left_id_L ∅ (∪)) in Hempty. by apply Hself.
    + by apply map_positive_l_alt.
Qed.

End AttachFacts.

Lemma attach_twice_is_attach_once_witness :
  Metadata._stores Examples.root_m < length Examples.two_stores
  ∧ Metadata._stores Examples.root_other < length Examples.two_stores
  ∧ Metadata._stores Examples.root_m ≠ Metadata._stores Examples.root_other
  ∧ Metadata.store_at
      (Metadata.attach Examples.root_m Examples.root_other
         (Metadata.attach Examples.root_m Examples.root_other Examples.two_stores))
      0 ["x"; "y"; "z"]
    = Metadata.store_at
        (Metadata.attach Examples.root_m Examples.root_other Examples.two_stores)
        0 ["x"; "y"; "z"].
Proof.
  assert (Metadata._stores Examples.root_m < length Examples.two_stores) as Hs
    by (cbn; lia).
  assert (Metadata._stores Examples.root_other < length Examples.two_stores) as Ho
    by (cbn; lia).
  assert (Metadata._stores Examples.root_m ≠ Metadata._stores Examples.root_other)
    as Hne by (cbn; lia).
  split; [exact Hs|]. split; [exact Ho|]. split; [exact Hne|].
  exact (attach_twice_is_attach_once Examples.root_m Examples.root_other
           Examples.two_stores 0 ["x"; "y"; "z"] Hs Ho Hne Hs).
Defined.

Lemma attach_preserves_tree_witness :
  stores_wf Examples.two_stores
  ∧ ["x"; "y"; "z"] ∈ Metadata.subnamespaces Examples.root_m
                        (Metadata.attach Examples.root_m Examples.root_other
                           Examples.two_stores).
Proof.
  split; [exact two_stores_wf|].
  apply (proj2 (attach_preserves_tree Examples.root_m Examples.root_other
                  Examples.two_stores ["x"; "y"; "z"] two_stores_wf
                  ltac:(cbn; lia) ltac:(cbn; lia) ltac:(cbn; lia))).
  right. compute_done.
Defined.

(** ** [get_proto] *)

Section GetProto.
Context {PyObj Cls Exn : Type} {typing : Metadata.Typing PyObj Cls Exn}.
Implicit Types (H : Heap PyObj) (m : Metadata.t).

(** X17.  [get_proto] returns [None] for a missing key.  For a value that
    is an instance of [cls], or an [Any], it does what [get] does with the
    default [None]: the value itself, or the unpacked message, or [None]
    when unpacking fails.  For any other value it returns [None], where
    [get] would call [cls(value)]: [get_proto] never converts, and so never
    raises a conversion error. *)
Theorem get_proto_contract H m (key : string) (cls : Cls) :
  (Metadata.__getitem__ m key H = None →
     MetadataProto.get_proto m key cls H = Metadata.Return None)
  ∧ (∀ value, Metadata.__getitem__ m key H = Some value →
       (Metadata.isinstance value cls = true ∨ Metadata.isinstance_Any value = true →
          MetadataProto.get_proto m key cls H = Metadata.get m key None cls H)
       ∧ (Metadata.isinstance value cls = true →
            MetadataProto.get_proto m key cls H = Metadata.Return (Some value))
       ∧ (Metadata.isinstance value cls = false →
          Metadata.isinstance_Any value = false →
            MetadataProto.get_proto m key cls H = Metadata.Return None
            ∧ Metadata.get m key None cls H
              = match Metadata.construct cls value with
                | inl e => Metadata.Raise e
                | inr converted => Metadata.Return (Some converted)
                end)).
Proof.
  unfold Metadata.__getitem__, MetadataProto.get_proto, Metadata.get. split.
  - by intros ->.
  - intros value ->. split; [|split].
    + intros [Hinst|Hany]; [by rewrite Hinst|].
      destruct (Metadata.isinstance value cls); [done|]. by rewrite Hany.
    + by intros ->.
    + by intros -> ->.
Qed.

End GetProto.

Lemma get_proto_contract_witness :
  Metadata.__getitem__ Examples.some_metadata.1 "name" Examples.some_metadata.2
  = Some (Examples.OStr "abc")
  ∧ MetadataProto.get_proto Examples.some_metadata.1 "name" Examples.CInt
      Examples.some_metadata.2
    = Metadata.Return None
  ∧ MetadataProto.get_proto Examples.some_metadata.1 "any" (Examples.CMessage "Duration")
      Examples.some_metadata.2
    = Metadata.get Examples.some_metadata.1 "any" None (Examples.CMessage "Duration")
        Examples.some_metadata.2.
Proof.
  split; [reflexivity|]. split.
  - exact (proj1 (proj2 (proj2
      (proj2 (get_proto_contract Examples.some_metadata.2 Examples.some_metadata.1
                "name" Examples.CInt)
         (Examples.OStr "abc") eq_refl)) eq_refl eq_refl)).
  - exact (proj1
      (proj2 (get_proto_contract Examples.some_metadata.2 Examples.some_metadata.1
                "any" (Examples.CMessage "Duration"))
         (Examples.OAny "Duration" "60s") eq_refl) (or_intror eq_refl)).
Defined.

(** ** [GetTrials] *)

Section GetTrialsFacts.
Context {Status Measurement Rest : Type} `{EqDecision Status}.
Context {service : ServicePolicySupporter.Service Status Measurement Rest}.
Implicit Types (self : ServicePolicySupporter.t)
  (trial : ServicePolicySupporter.Trial Status Measurement Rest).

Lemma filter_none {A : Type} (P : A → Prop) `{∀ x, Decision (P x)} (l : list A) :
  (∀ x, ¬ P x) → filter P l = [].
Proof.
  intros Hnone. induction l as [|x l IH]; [done|].
  by rewrite filter_cons_False.
Qed.

Lemma trial_filter_selected trial_ids min_trial_id max_trial_id
    (status_matches : option Status) trial :
  ServicePolicySupporter._trial_filter trial_ids min_trial_id max_trial_id
    status_matches trial = true
  ↔ selected trial_ids min_trial_id max_trial_id status_matches trial.
Proof.
  unfold ServicePolicySupporter._trial_filter, selected.
  set (c1 := match trial_ids with Some _ => _ | None => _ end).
  set (c2 := match min_trial_id with Some _ => _ | None => _ end).
  set (c3 := match max_trial_id with Some _ => _ | None => _ end).
  set (c4 := match status_matches with Some _ => _ | None => _ end).
  assert (c1 = false ↔
          ∀ ids, trial_ids = Some ids → ServicePolicySupporter.id trial ∈ ids) as H1.
  { subst c1. destruct trial_ids as [ids|].
    - rewrite bool_decide_eq_false. split.
      + intros Hin ? [= <-]. by apply dec_stable.
      + intros Hin Hnot. by apply Hnot, Hin.
    - split; [by intros _ ? [=]|done]. }
  assert (c2 = false ↔
          ∀ m, min_trial_id = Some m → (m ≤ ServicePolicySupporter.id trial)%Z) as H2.
  { subst c2. destruct min_trial_id as [lo|].
    - rewrite bool_decide_eq_false. split.
      + intros Hlo ? [= <-]. lia.
      + intros Hlo. specialize (Hlo _ eq_refl). lia.
    - split; [by intros _ ? [=]|done]. }
  assert (c3 = false ↔
          ∀ m, max_trial_id = Some m → (ServicePolicySupporter.id trial ≤ m)%Z) as H3.
  { subst c3. destruct max_trial_id as [hi|].
    - rewrite bool_decide_eq_false. split.
      + intros Hhi ? [= <-]. lia.
      + intros Hhi. specialize (Hhi _ eq_refl). lia.
    - split; [by intros _ ? [=]|done]. }
  assert (c4 = false ↔
          ∀ s, status_matches = Some s →
               ServicePolicySupporter.status_truthy s = true →
               ServicePolicySupporter.status trial = s) as H4.
  { subst c4. destruct status_matches as [s|].
    - rewrite andb_false_iff, bool_decide_eq_false. split.
      + intros [Hs|Hs] ? [= <-] Ht; [congruence|by apply dec_stable].
      + intros Hs. destruct (ServicePolicySupporter.status_truthy s) eqn:Ht;
          [|by left].
        right. intros Hne. by apply Hne, Hs.
    - split; [by intros _ ? [=]|done]. }
  rewrite <-H1, <-H2, <-H3, <-H4.
  clear H1 H2 H3 H4. destruct c1, c2, c3, c4; intuition congruence.
Qed.

(** X18.  [GetTrials] raises [ValueError] exactly when [trial_ids] is given
    (an empty collection counts) together with a bound or a truthy
    [status_matches].  Otherwise it returns, in the order of the service,
    the trials of the study that are selected, the study being the
    supporter's own unless [study_guid] is given; with
    [include_intermediate_measurements=False] each returned trial has its
    measurements emptied and is otherwise unchanged. *)
Theorem GetTrials_selects self study_guid trial_ids min_trial_id max_trial_id
    (status_matches : option Status) (include_intermediate_measurements : bool) :
  let result :=
    ServicePolicySupporter.GetTrials self study_guid trial_ids min_trial_id
      max_trial_id status_matches include_intermediate_measurements in
  let all_trials :=
    ServicePolicySupporter.ListTrials
      (default (ServicePolicySupporter._study_guid self) study_guid) in
  let both :=
    trial_ids ≠ None
    ∧ (min_trial_id ≠ None ∨ max_trial_id ≠ None
       ∨ ∃ s, status_matches = Some s ∧ ServicePolicySupporter.status_truthy s = true) in
  (both → result = inl ServicePolicySupporter.ValueError_both_selections)
  ∧ (¬ both →
     ∃ kept,
       kept `sublist_of` all_trials
       ∧ (∀ trial, trial ∈ kept ↔
            trial ∈ all_trials
            ∧ selected trial_ids min_trial_id max_trial_id status_matches trial)
       ∧ result = inr (if include_intermediate_measurements then kept
                       else without_measurements <$> kept)).
Proof.
  cbn zeta. unfold ServicePolicySupporter.GetTrials.
  set (all_trials := ServicePolicySupporter.ListTrials _).
  set (both := trial_ids ≠ None ∧ _).
  assert (bool_decide (is_Some trial_ids)
          && (bool_decide (is_Some min_trial_id)
              || bool_decide (is_Some max_trial_id)
              || ServicePolicySupporter.truthy status_matches) = true ↔ both)
    as Hboth.
  { unfold both, ServicePolicySupporter.truthy.
    rewrite andb_true_iff, !orb_true_iff, !bool_decide_eq_true.
    split.
    - intros (Hids & Hrest). split; [by apply not_eq_None_Some|].
      destruct Hrest as [[?|?]|Hs];
        [left; by apply not_eq_None_Some
        |right; left; by apply not_eq_None_Some|].
      destruct status_matches as [s|]; [|done]. right. right. by exists s.
    - intros (Hids & Hrest). split; [by apply not_eq_None_Some|].
      destruct Hrest as [?|[?|(s & -> & Hs)]];
        [left; left; by apply not_eq_None_Some
        |left; right; by apply not_eq_None_Some
        |by right]. }
  split.
  - intros Hb. apply Hboth in Hb. by rewrite Hb.
  - intros Hb. destruct (_ && _); [by exfalso; apply Hb, Hboth|].
    exists (filter
              (λ t, ServicePolicySupporter._trial_filter trial_ids min_trial_id
                      max_trial_id status_matches t = true) all_trials).
    split; [apply sublist_filter|]. split.
    + intros trial. rewrite list_elem_of_filter, trial_filter_selected.
      tauto.
    + by destruct include_intermediate_measurements.
Qed.

(** X19.  Edge cases of the selection: with no selection argument every
    trial of the study is returned; an empty [trial_ids], or a
    [min_trial_id] above [max_trial_id], gives the empty list and no
    error. *)
Theorem GetTrials_edge_cases self study_guid :
  ServicePolicySupporter.GetTrials self study_guid None None None None true
  = inr (ServicePolicySupporter.ListTrials
           (default (ServicePolicySupporter._study_guid self) study_guid))
  ∧ (∀ status_matches include_intermediate_measurements,
       ServicePolicySupporter.truthy status_matches = false →
       ServicePolicySupporter.GetTrials self study_guid (Some []) None None
         status_matches include_intermediate_measurements = inr [])
  ∧ (∀ lo hi status_matches include_intermediate_measurements,
       (hi < lo)%Z →
       ServicePolicySupporter.GetTrials self study_guid None (Some lo) (Some hi)
         status_matches include_intermediate_measurements = inr []).
Proof.
  unfold ServicePolicySupporter.GetTrials.
  set (all_trials := ServicePolicySupporter.ListTrials _).
  split; [|split].
  - cbn. f_equal. induction all_trials as [|t ts IH]; [done|].
    rewrite filter_cons_True by done. by rewrite IH.
  - intros status_matches incl ->. cbn. rewrite filter_none.
    + by destruct incl.
    + intros t. unfold ServicePolicySupporter._trial_filter.
      rewrite bool_decide_eq_true_2; [done|]. apply not_elem_of_nil.
  - intros lo hi status_matches incl Hlt. cbn. rewrite filter_none.
    + by destruct incl.
    + intros t. unfold ServicePolicySupporter._trial_filter.
      repeat case_bool_decide; try done; lia.
Qed.

End GetTrialsFacts.

Lemma GetTrials_selects_witness :
  ¬ ((None : option (list Z)) ≠ None
     ∧ (Some 2%Z ≠ None ∨ (None : option Z) ≠ None
        ∨ ∃ s, (None : option ServiceExamples.status) = Some s
               ∧ ServicePolicySupporter.status_truthy s = true))
  ∧ ∃ kept,
      kept `sublist_of` ServiceExamples.trials
      ∧ (∀ trial, trial ∈ kept ↔
           trial ∈ ServiceExamples.trials ∧ selected None (Some 2%Z) None None trial)
      ∧ ServicePolicySupporter.GetTrials ServiceExamples.supporter None None
          (Some 2%Z) None None false
        = inr (without_measurements <$> kept).
Proof.
  assert (¬ ((None : option (list Z)) ≠ None
             ∧ (Some 2%Z ≠ None ∨ (None : option Z) ≠ None
                ∨ ∃ s, (None : option ServiceExamples.status) = Some s
                       ∧ ServicePolicySupporter.status_truthy s = true)))
    as Hnot by (intros [Hids _]; by apply Hids).
  split; [exact Hnot|].
  exact (proj2 (GetTrials_selects ServiceExamples.supporter None None (Some 2%Z)
                  None None false) Hnot).
Defined.

Lemma GetTrials_edge_cases_witness :
  (1 < 3)%Z
  ∧ ServicePolicySupporter.GetTrials ServiceExamples.supporter None None
      (Some 3%Z) (Some 1%Z) (Some ServiceExamples.COMPLETED) true
    = inr [].
Proof.
  assert (1 < 3)%Z as Hlt by lia.
  split; [exact Hlt|].
  exact (proj2 (proj2 (GetTrials_edge_cases ServiceExamples.supporter None))
           3%Z 1%Z (Some ServiceExamples.COMPLETED) true Hlt).
Defined.

(** ** [_pytrial_metrics] *)

Section PytrialMetricsFacts.
Context {MetricInformation Trial MetricValue : Type}.
Context {measurements : StudyConfigMetrics.TrialMeasurements Trial MetricValue}.
Context (metric_name : MetricInformation → string).
Implicit Types (metric_information : list MetricInformation) (pytrial : Trial).

Lemma keys_filter_subseteq {K V : Type} (P : K * V → Prop) `{∀ x, Decision (P x)}
    (d : list (K * V)) k :
  k ∈ PyDict.keys (filter P d) → k ∈ PyDict.keys d.
Proof.
  unfold PyDict.keys. rewrite !list_elem_of_fmap.
  intros (kv & -> & Hin). exists kv. split; [done|].
  by apply list_elem_of_filter in Hin as [_ ?].
Qed.

Lemma foldl_set_filter {K V : Type} `{EqDecision K} (keep : K → bool)
    (d pre suf : list (K * V)) :
  d = pre ++ suf →
  NoDup (PyDict.keys d) →
  foldl (λ acc k,
           if keep k then
             match PyDict.get d k with
             | Some v => PyDict.set acc k v
             | None => acc
             end
           else acc)
        (filter (λ kv, keep kv.1 = true) pre) (PyDict.keys suf)
  = filter (λ kv, keep kv.1 = true) d.
Proof.
  revert pre. induction suf as [|[k v] suf IH]; intros pre Hd Hnodup.
  - rewrite app_nil_r in Hd. by subst.
  - cbn [PyDict.keys fmap list_fmap foldl fst].
    change (list_fmap _ _ fst suf) with (PyDict.keys suf).
    assert (PyDict.get d k = Some v) as Hget.
    { apply pydict_elem_get; [done|]. subst d. apply elem_of_app. right. left. }
    assert (k ∉ PyDict.keys pre) as Hfresh.
    { subst d. unfold PyDict.keys in *. rewrite fmap_app in Hnodup.
      apply NoDup_app in Hnodup as (_ & Hdisj & _).
      intros Hin. apply (Hdisj _ Hin). cbn. left. }
    rewrite Hget.
    assert ((if keep k then PyDict.set (filter (λ kv, keep kv.1 = true) pre) k v
             else filter (λ kv, keep kv.1 = true) pre)
            = filter (λ kv, keep kv.1 = true) (pre ++ [(k, v)])) as ->.
    { rewrite filter_app. destruct (keep k) eqn:Hkeep.
      - rewrite filter_cons_True by done.
        unfold PyDict.set.
        assert (PyDict.get (filter (λ kv, keep kv.1 = true) pre) k = None) as ->.
        { apply pydict_get_None. intros Hin. by apply keys_filter_subseteq in Hin. }
        done.
      - rewrite filter_cons_False by (cbn; congruence).
        cbn. by rewrite app_nil_r. }
    apply IH; [|done]. by rewrite <-app_assoc.
Qed.

Lemma metrics_step_keep metric_information pytrial (include_all_metrics : bool)
    metrics (name : string) :
  StudyConfigMetrics.metrics_step metric_name metric_information pytrial
    include_all_metrics metrics name
  = if (include_all_metrics
        || bool_decide (name ∈ map metric_name metric_information))
       && negb (bool_decide (name = "")
                && bool_decide
                     (StudyConfigMetrics.single_objective_metric_name metric_name
                        metric_information ≠ Some name))
    then
      match PyDict.get (StudyConfigMetrics.final_measurement_metrics pytrial) name with
      | Some v => PyDict.set metrics name v
      | None => metrics
      end
    else metrics.
Proof.
  unfold StudyConfigMetrics.metrics_step.
  destruct include_all_metrics; cbn [orb negb andb];
    repeat (case_bool_decide; cbn [orb negb andb]); done.
Qed.

Lemma keep_reported metric_information (include_all_metrics : bool) (name : string) :
  (include_all_metrics
   || bool_decide (name ∈ map metric_name metric_information))
  && negb (bool_decide (name = "")
           && bool_decide
                (StudyConfigMetrics.single_objective_metric_name metric_name
                   metric_information ≠ Some name)) = true
  ↔ reported metric_name metric_information include_all_metrics name.
Proof.
  unfold reported.
  rewrite andb_true_iff, orb_true_iff, negb_true_iff, andb_false_iff,
    !bool_decide_eq_true, !bool_decide_eq_false.
  assert (name ∈ map metric_name metric_information
          ↔ ∃ m, m ∈ metric_information ∧ metric_name m = name) as ->.
  { change (map metric_name metric_information)
      with (metric_name <$> metric_information).
    rewrite list_elem_of_fmap. split.
    - intros (m & -> & Hm). by exists m.
    - intros (m & Hm & <-). by exists m. }
  assert (name = "" →
          (StudyConfigMetrics.single_objective_metric_name metric_name
             metric_information = Some name
           ↔ ∃ m, metric_information = [m] ∧ metric_name m = "")) as Hsingle.
  { intros ->. unfold StudyConfigMetrics.single_objective_metric_name.
    destruct metric_information as [|m [|m' rest]]; cbn.
    - split; [done|]. by intros (? & ? & _).
    - split; [intros [= Hm]; by exists m|intros (? & [= <-] & ->); done].
    - split; [done|]. by intros (? & ? & _). }
  split.
  - intros (Hin & Hdrop). split; [done|]. intros Hname.
    apply Hsingle; [done|]. destruct Hdrop as [Hdrop|Hdrop]; [done|].
    by apply dec_stable.
  - intros (Hin & Hempty). split; [done|].
    destruct (decide (name = "")) as [Hname|Hname]; [|by left].
    right. intros Hne. apply Hne, Hsingle; auto.
Qed.

(** X20.  [_pytrial_metrics] returns no metric for a trial that is not
    completed or is infeasible.  Otherwise the result is the trial's final
    metrics, in their order, restricted to the reported names: all names
    with [include_all_metrics], else the configured ones; and the metric
    with the empty name is reported only when the study has exactly one
    metric and that metric has the empty name, whatever
    [include_all_metrics] is. *)
Theorem pytrial_metrics_reported metric_information pytrial
    (include_all_metrics : bool) :
  NoDup (PyDict.keys (StudyConfigMetrics.final_measurement_metrics pytrial)) →
  let metrics :=
    StudyConfigMetrics._pytrial_metrics metric_name metric_information pytrial
      include_all_metrics in
  metrics `sublist_of` StudyConfigMetrics.final_measurement_metrics pytrial
  ∧ ∀ name v,
      PyDict.get metrics name = Some v
      ↔ StudyConfigMetrics.is_completed pytrial = true
        ∧ StudyConfigMetrics.infeasible pytrial = false
        ∧ PyDict.get (StudyConfigMetrics.final_measurement_metrics pytrial) name
          = Some v
        ∧ reported metric_name metric_information include_all_metrics name.
Proof.
  intros Hnodup. cbn zeta. unfold StudyConfigMetrics._pytrial_metrics.
  set (final := StudyConfigMetrics.final_measurement_metrics pytrial) in *.
  destruct (StudyConfigMetrics.is_completed pytrial),
    (StudyConfigMetrics.infeasible pytrial); cbn [andb negb];
    try (split; [apply sublist_nil_l|]; intros name v; cbn; split;
         [done|by intros (? & ? & _)]).
  set (keep := λ name : string,
         (include_all_metrics
          || bool_decide (name ∈ map metric_name metric_information))
         && negb (bool_decide (name = "")
                  && bool_decide
                       (StudyConfigMetrics.single_objective_metric_name metric_name
                          metric_information ≠ Some name))).
  assert (foldl (StudyConfigMetrics.metrics_step metric_name metric_information
                   pytrial include_all_metrics) [] (PyDict.keys final)
          = filter (λ kv, keep kv.1 = true) final) as ->.
  { rewrite <-(foldl_set_filter keep final [] final eq_refl Hnodup).
    cbn [filter list_filter]. generalize (@nil (string * MetricValue)).
    generalize (PyDict.keys final). intros names.
    induction names as [|name names IH]; intros acc; [done|].
    cbn [foldl]. rewrite metrics_step_keep. apply IH. }
  split; [apply sublist_filter|].
  intros name v.
  assert (NoDup (PyDict.keys (filter (λ kv, keep kv.1 = true) final))) as Hnodup'.
  { unfold PyDict.keys in *.
    eapply sublist_NoDup; first [exact Hnodup|apply fmap_sublist, sublist_filter]. }
  split.
  - intros Hget. apply pydict_get_Some_elem in Hget.
    apply list_elem_of_filter in Hget as [Hkeep Hin]. cbn in Hkeep.
    split; [done|]. split; [done|]. split; [by apply pydict_elem_get|].
    by apply keep_reported.
  - intros (_ & _ & Hget & Hrep). apply pydict_elem_get; [done|].
    apply list_elem_of_filter. split; [by apply keep_reported|].
    by apply pydict_get_Some_elem.
Qed.

End PytrialMetricsFacts.

Lemma pytrial_metrics_reported_witness :
  NoDup (PyDict.keys
           (StudyConfigMetrics.final_measurement_metrics ServiceExamples.completed_trial))
  ∧ PyDict.get
      (StudyConfigMetrics._pytrial_metrics (λ name : string, name) ["loss"]
         ServiceExamples.completed_trial true) ""
    = None.
Proof.
  assert (NoDup (PyDict.keys
            (StudyConfigMetrics.final_measurement_metrics
               ServiceExamples.completed_trial))) as Hnodup by compute_done.
  split; [exact Hnodup|].
  destruct (PyDict.get _ _) as [v|] eqn:Hget; [|reflexivity].
  apply (proj2 (pytrial_metrics_reported (λ name : string, name) ["loss"]
                  ServiceExamples.completed_trial true Hnodup)) in Hget
    as (_ & _ & _ & _ & Hempty).
  destruct (Hempty eq_refl) as (m & [= <-] & Hm). discriminate Hm.
Defined.

Lemma decode_without_escapes_witness :
  contains PyStr.backslash ":a:b" = false
  ∧ PyStr.lstrip PyStr.colon ":a:b" ≠ ""
  ∧ Namespace.make (Namespace.Str ":a:b")
    = PyStr.split PyStr.colon (PyStr.lstrip PyStr.colon ":a:b").
Proof.
  assert (contains PyStr.backslash ":a:b" = false) as Hplain by reflexivity.
  assert (PyStr.lstrip PyStr.colon ":a:b" ≠ "") as Hne by (vm_compute; discriminate).
  split; [exact Hplain|]. split; [exact Hne|].
  exact (decode_without_escapes ":a:b" Hplain Hne).
Defined.

Lemma repr_roundtrip_witness :
  (∀ c, c ∈ ["a:b"; "c\d"; ""] → PyStr.ends_with_escape c = false)
  ∧ head ["a:b"; "c\d"; ""] ≠ Some ""
  ∧ Namespace.make (Namespace.Str (Namespace.__repr__ ["a:b"; "c\d"; ""]))
    = ["a:b"; "c\d"; ""].
Proof.
  assert (∀ c, c ∈ ["a:b"; "c\d"; ""] → PyStr.ends_with_escape c = false)
    as Hall.
  { intros c Hc. repeat (apply elem_of_cons in Hc as [->|Hc]; [reflexivity|]).
    by apply elem_of_nil in Hc. }
  assert (head ["a:b"; "c\d"; ""] ≠ Some "") as Hhead by (cbn; discriminate).
  split; [exact Hall|]. split; [exact Hhead|].
  exact (repr_roundtrip ["a:b"; "c\d"; ""] Hall Hhead).
Defined.

Lemma str_roundtrip_witness :
  (∀ c, c ∈ ["a"; "b\c"] →
     contains PyStr.colon c = false ∧ PyStr.ends_with_escape c = false)
  ∧ head ["a"; "b\c"] ≠ Some ""
  ∧ Namespace.__str__ ["a"; "b\c"] = Namespace.__repr__ ["a"; "b\c"]
  ∧ Namespace.make (Namespace.Str (Namespace.__str__ ["a"; "b\c"])) = ["a"; "b\c"].
Proof.
  assert (∀ c, c ∈ ["a"; "b\c"] →
            contains PyStr.colon c = false ∧ PyStr.ends_with_escape c = false)
    as Hall.
  { intros c Hc. repeat (apply elem_of_cons in Hc as [->|Hc]; [split; reflexivity|]).
    by apply elem_of_nil in Hc. }
  assert (head ["a"; "b\c"] ≠ Some "") as Hhead by (cbn; discriminate).
  split; [exact Hall|]. split; [exact Hhead|].
  exact (str_roundtrip ["a"; "b\c"] Hall Hhead).
Defined.

(** ** [to_proto] *)

Section ToProtoMetadataFacts.
Import StudyConfig.
Context {AlgorithmValue NoiseValue MetricSpec ParameterSpec KeyValue : Type}.
Context {DecayCurve Median AutomatedStoppingConfig MetricInformation : Type}.
Context {Val ExternalType PyObj : Type}.
Context (MetricInformation_to_proto : MetricInformation → MetricSpec).
Context (ParameterConfigConverter_to_proto : ParameterConfig Val ExternalType → ParameterSpec).
Context (AutomatedStoppingConfig_to_proto :
           AutomatedStoppingConfig → AutomatedStoppingProto DecayCurve Median).
Context (assign : list KeyValue → string → string → PyObj → list KeyValue).
Context (key_order : nat → Namespace.t → list string).

Abbreviation Spec :=
  (@StudySpec AlgorithmValue NoiseValue MetricSpec ParameterSpec KeyValue DecayCurve Median).
Abbreviation Config :=
  (@StudyConfig AlgorithmValue NoiseValue MetricSpec ParameterSpec KeyValue
     DecayCurve Median AutomatedStoppingConfig MetricInformation Val ExternalType).






End ToProtoMetadataFacts.


(** ** [from_proto]: loading the metadata *)

Section FromProtoFacts.
Context {PyObj : Type}.
Implicit Types (H : Heap PyObj) (kv : StudyConfigFromProto.KeyValue PyObj)
  (kvs : list (StudyConfigFromProto.KeyValue PyObj)).

Lemma load_step H (l0 : nat) kv :
  l0 < length H →
  let r := Metadata.abs_ns (Metadata.Build l0 [])
             (Namespace.Str (StudyConfigFromProto.ns kv)) H in
  let H' := Metadata.__setitem__ r.1 (StudyConfigFromProto.key kv)
              (StudyConfigFromProto.kv_value kv) r.2 in
  length H' = S (length H)
  ∧ ∀ l a, l < length H →
      Metadata.store_at H' l a
      = if decide (l = l0
                   ∧ a = Namespace.make (Namespace.Str (StudyConfigFromProto.ns kv)))
        then <[StudyConfigFromProto.key kv := StudyConfigFromProto.kv_value kv]>
               (Metadata.store_at H l0 a)
        else Metadata.store_at H l a.
Proof.
  intros Hlt. cbv zeta. unfold Metadata.abs_ns, Metadata.__setitem__.
  set (a0 := Namespace.make (Namespace.Str (StudyConfigFromProto.ns kv))).
  pose proof (copy_core_store_at (Metadata.Build l0 []) a0 H) as Hsame.
  destruct (copy_core_spec (Metadata.Build l0 []) a0 H Hlt)
    as (H1 & Hcopy & Hlen & Hentry & _).
  rewrite Hcopy in Hsame |- *. cbn [fst snd Metadata._stores Metadata._namespace] in *.
  split; [by rewrite length_modify|].
  intros l a Hl. rewrite store_at_modify by (rewrite Hentry; by eexists).
  destruct (decide (l0 = l ∧ a0 = a)) as [[<- <-]|Hne].
  - rewrite decide_True by done. by rewrite Hsame.
  - rewrite decide_False by (intros [-> ->]; by apply Hne). by apply Hsame.
Qed.

Lemma load_fold H (l0 : nat) kvs :
  l0 < length H →
  let H' :=
    foldl (λ H kv,
             let '(view, H) :=
               Metadata.abs_ns (Metadata.Build l0 [])
                 (Namespace.Str (StudyConfigFromProto.ns kv)) H in
             Metadata.__setitem__ view (StudyConfigFromProto.key kv)
               (StudyConfigFromProto.kv_value kv) H)
          H kvs in
  length H ≤ length H'
  ∧ ∀ l a (k : string), l < length H →
      ((l ≠ l0 ∨ ∀ kv, kv ∈ kvs → ¬ entry_for kv a k) →
         Metadata.store_at H' l a !! k = Metadata.store_at H l a !! k)
      ∧ (∀ pre kv suf,
           kvs = pre ++ kv :: suf → l = l0 → entry_for kv a k →
           (∀ kv', kv' ∈ suf → ¬ entry_for kv' a k) →
           Metadata.store_at H' l a !! k = Some (StudyConfigFromProto.kv_value kv)).
Proof.
  intros Hlt. cbv zeta. induction kvs as [|x kvs IH] using rev_ind.
  - cbn. split; [done|]. intros l a k Hl. split; [done|].
    intros pre kv suf Hnil. by destruct pre.
  - rewrite foldl_app. cbn [foldl].
    destruct IH as (Hlen & IH).
    set (H1 := foldl _ H kvs) in *.
    destruct (Metadata.abs_ns (Metadata.Build l0 [])
                (Namespace.Str (StudyConfigFromProto.ns x)) H1) as [view H2] eqn:Habs.
    pose proof (load_step H1 l0 x ltac:(lia)) as Hstep. cbv zeta in Hstep.
    rewrite Habs in Hstep. cbn [fst snd] in Hstep.
    destruct Hstep as (Hlen' & Hstep).
    split; [lia|]. intros l a k Hl.
    rewrite Hstep by lia. destruct (IH l a k Hl) as (IHnone & IHlast).
    assert (¬ entry_for x a k →
            (if decide (l = l0
                        ∧ a = Namespace.make
                                (Namespace.Str (StudyConfigFromProto.ns x)))
             then <[StudyConfigFromProto.key x := StudyConfigFromProto.kv_value x]>
                    (Metadata.store_at H1 l0 a)
             else Metadata.store_at H1 l a) !! k
            = Metadata.store_at H1 l a !! k) as Hskip.
    { intros Hnot. case_decide as Hc; [|done]. destruct Hc as [-> ->].
      apply lookup_insert_ne. intros Hk. by apply Hnot. }
    split.
    + intros Hno. destruct Hno as [Hl0|Hno].
      * rewrite decide_False by (intros [? _]; done). apply IHnone. by left.
      * rewrite Hskip by (apply Hno, elem_of_app; right; left).
        apply IHnone. right. intros kv Hkv. apply Hno, elem_of_app. by left.
    + intros pre kv suf Heq -> Hfor Hlater.
      destruct suf as [|y suf _] using rev_ind.
      * apply app_inj_tail in Heq as [-> ->].
        destruct Hfor as [<- <-]. rewrite decide_True by done.
        apply lookup_insert_eq.
      * rewrite app_comm_cons, app_assoc in Heq.
        apply app_inj_tail in Heq as [-> ->].
        rewrite Hskip by (apply Hlater, elem_of_app; right; left).
        apply (IHlast pre kv suf); [done|done|done|].
        intros kv' Hkv'. apply Hlater, elem_of_app. by left.
Qed.

(** X22.  The metadata [from_proto] builds from [proto.metadata] is a view
    at the root of a new backing store; the stores that existed are not
    changed.  A key of a namespace holds the value of the last entry for it,
    where an entry is for the namespace its [ns] string decodes to, and the
    value is the [proto] field when that is set and the [value] field
    otherwise; a key no entry is for is missing. *)
Theorem from_proto_loads_last_entry kvs H :
  let metadata := (StudyConfigFromProto.from_proto_metadata kvs H).1 in
  let H' := (StudyConfigFromProto.from_proto_metadata kvs H).2 in
  metadata = Metadata.Build (length H) []
  ∧ (∀ l a, l < length H → Metadata.store_at H' l a = Metadata.store_at H l a)
  ∧ (∀ a (k : string),
       (∀ kv, kv ∈ kvs → ¬ entry_for kv a k) →
       Metadata.store_at H' (length H) a !! k = None)
  ∧ (∀ pre kv suf a (k : string),
       kvs = pre ++ kv :: suf → entry_for kv a k →
       (∀ kv', kv' ∈ suf → ¬ entry_for kv' a k) →
       Metadata.store_at H' (length H) a !! k
       = Some (StudyConfigFromProto.kv_value kv)).
Proof.
  cbv zeta. unfold StudyConfigFromProto.from_proto_metadata.
  destruct (init_spec Metadata.NoItems [] H) as (H0 & -> & Hlen & Hroot & Hold).
  cbn [fst snd].
  pose proof (load_fold H0 (length H) kvs ltac:(lia)) as (Hmono & Hload).
  cbv zeta in Hload.
  assert (∀ a, Metadata.store_at H0 (length H) a = ∅) as Hempty.
  { intros a. rewrite store_at_entry, Hroot. by case_decide. }
  split; [done|]. split; [|split].
  - intros l a Hl. apply map_eq. intros k.
    destruct (Hload l a k ltac:(lia)) as (Hnone & _).
    rewrite Hnone by (left; lia). by rewrite !store_at_entry, Hold.
  - intros a k Hno. destruct (Hload (length H) a k ltac:(lia)) as (Hnone & _).
    rewrite Hnone by by right. by rewrite Hempty.
  - intros pre kv suf a k Heq Hfor Hlater.
    destruct (Hload (length H) a k ltac:(lia)) as (_ & Hlast).
    by apply (Hlast pre kv suf).
Qed.

End FromProtoFacts.

Lemma from_proto_loads_last_entry_witness :
  [(StudyConfigFromProto.Build_KeyValue "a" "k" 1%Z None);
   (StudyConfigFromProto.Build_KeyValue ":a" "k" 2%Z (Some 3%Z))]
  = [(StudyConfigFromProto.Build_KeyValue "a" "k" 1%Z None)]
    ++ (StudyConfigFromProto.Build_KeyValue ":a" "k" 2%Z (Some 3%Z)) :: []
  ∧ entry_for (StudyConfigFromProto.Build_KeyValue ":a" "k" 2%Z (Some 3%Z))
      ["a"] "k"
  ∧ (∀ kv' : StudyConfigFromProto.KeyValue Z, kv' ∈ [] → ¬ entry_for kv' ["a"] "k")
  ∧ Metadata.store_at
      (StudyConfigFromProto.from_proto_metadata
         [(StudyConfigFromProto.Build_KeyValue "a" "k" 1%Z None);
          (StudyConfigFromProto.Build_KeyValue ":a" "k" 2%Z (Some 3%Z))]
         []).2
      (length ([] : Heap Z)) ["a"] !! "k"
    = Some (StudyConfigFromProto.kv_value
              (StudyConfigFromProto.Build_KeyValue ":a" "k" 2%Z (Some 3%Z))).
Proof.
  assert (entry_for (StudyConfigFromProto.Build_KeyValue ":a" "k" 2%Z (Some 3%Z))
            ["a"] "k") as Hfor by (split; reflexivity).
  assert (∀ kv' : StudyConfigFromProto.KeyValue Z,
            kv' ∈ [] → ¬ entry_for kv' ["a"] "k") as Hlater.
  { intros kv' Hin. by apply elem_of_nil in Hin. }
  split; [reflexivity|]. split; [exact Hfor|]. split; [exact Hlater|].
  exact (proj2 (proj2 (proj2
    (from_proto_loads_last_entry
       [StudyConfigFromProto.Build_KeyValue "a" "k" 1%Z None;
        StudyConfigFromProto.Build_KeyValue ":a" "k" 2%Z (Some 3%Z)] [])))
    [StudyConfigFromProto.Build_KeyValue "a" "k" 1%Z None]
    (StudyConfigFromProto.Build_KeyValue ":a" "k" 2%Z (Some 3%Z)) []
    ["a"] "k" eq_refl Hfor Hlater).
Defined.
